(** * MARBLE: layers and post-processing, a shallow embedding

    The development follows [MARBLE/layers.py] and [MARBLE/postprocessing.py].
    Python exceptions are values of an error monad, tensors are a shape
    together with their row-major data, dictionaries are finite maps, and the
    calls into the geometry library (which is not part of the modelled
    sources) are parameters whose invocations are recorded in a log.

    The entries of tensors are idealised as real numbers.  The diffusion
    time, the one number the code compares and clamps, is a binary32
    number, as [torch.tensor] stores a Python float. *)

From Stdlib Require Import ZArith QArith List String Reals Lra Lia Bool Arith.
From Stdlib Require Import Floats.SpecFloat.
From stdpp Require Import gmap strings.
Import ListNotations.

Local Close Scope Q_scope.
Local Open Scope nat_scope.

(* ===================================================================== *)
(** ** Python: exceptions and integer operators *)
(* ===================================================================== *)

Module Py.

(** The exceptions the modelled code can raise. [RuntimeError] stands for
    the shape errors of the tensor library. *)
Inductive exn : Type :=
| AssertionError (msg : string)
| ZeroDivisionError
| TypeError
| ValueError
| IndexError
| KeyError (key : string)
| AttributeError (name : string)
| RuntimeError.

Inductive result (A : Type) : Type :=
| Ok (a : A)
| Raise (e : exn).

Arguments Ok {A} a.
Arguments Raise {A} e.

Definition bind {A B : Type} (m : result A) (k : A -> result B) : result B :=
  match m with
  | Ok a => k a
  | Raise e => Raise e
  end.

Notation "'let*' x ':=' m 'in' k" := (bind m (fun x => k))
  (at level 10, x pattern, m at level 100, k at level 200).

(** [assert cond, msg] *)
Definition assert (cond : bool) (msg : string) : result unit :=
  if cond then Ok tt else Raise (AssertionError msg).

(** [for a in l: ...] collecting results, stopping at the first exception. *)
Fixpoint mapM {A B : Type} (f : A -> result B) (l : list A) : result (list B) :=
  match l with
  | [] => Ok []
  | a :: l' =>
      let* b := f a in
      let* bs := mapM f l' in
      Ok (b :: bs)
  end.

(** Integer [//]: floor division as in [Z.div], and an exception on a zero
    divisor. *)
Definition floordiv (a b : Z) : result Z :=
  if (b =? 0)%Z then Raise ZeroDivisionError else Ok (a / b)%Z.

(** [//] and [%] on sizes, which are never negative. *)
Definition floordiv_nat (a b : nat) : result nat :=
  if b =? 0 then Raise ZeroDivisionError else Ok (a / b).

Definition modulo_nat (a b : nat) : result nat :=
  if b =? 0 then Raise ZeroDivisionError else Ok (a mod b).

(** [l[i]] for an integer [i]: negative indices count from the end. *)
Definition index {A : Type} (l : list A) (i : Z) : result A :=
  let n := Z.of_nat (length l) in
  let j := if (i <? 0)%Z then (i + n)%Z else i in
  if ((0 <=? j) && (j <? n))%Z
  then match l !! Z.to_nat j with
       | Some a => Ok a
       | None => Raise IndexError
       end
  else Raise IndexError.

(** A value that can be handed to [hasattr] as an attribute name. *)
Inductive pyname : Type :=
| PStr (s : string)
| PTuple (items : list string).

(** [hasattr(obj, name)]: the name must be a string. *)
Definition hasattr (attrs : gset string) (name : pyname) : result bool :=
  match name with
  | PStr s => Ok (bool_decide (s ∈ attrs))
  | PTuple _ => Raise TypeError
  end.

End Py.

(* ===================================================================== *)
(** ** Tensors *)
(* ===================================================================== *)

Module Torch.
Import Py.

(** The element type of a tensor, with the operations the layers use. *)
Class Scalar (A : Type) : Type := {
  szero : A;
  sone : A;
  sadd : A -> A -> A;
  smul : A -> A -> A
}.

#[export] Instance Scalar_R : Scalar R :=
  {| szero := 0%R; sone := 1%R; sadd := Rplus; smul := Rmult |}.

#[export] Instance Scalar_Z : Scalar Z :=
  {| szero := 0%Z; sone := 1%Z; sadd := Z.add; smul := Z.mul |}.

(** A contiguous tensor: its shape and its elements in row-major order. *)
Record tensor (A : Type) : Type := Tensor {
  shape : list nat;
  data : list A
}.

Arguments Tensor {A} shape data.
Arguments shape {A} t.
Arguments data {A} t.

Definition numel_of (sh : list nat) : nat := fold_right Nat.mul 1 sh.

Definition numel {A : Type} (t : tensor A) : nat := numel_of (shape t).

(** The data of a tensor fills its shape. *)
Definition wf {A : Type} (t : tensor A) : Prop :=
  length (data t) = numel_of (shape t).

(** [t.shape[1]] of a matrix. *)
Definition width {A : Type} (t : tensor A) : nat := nth 1 (shape t) 0.

(** Row-major position of a multi-index. *)
Fixpoint offset (sh idx : list nat) : nat :=
  match sh, idx with
  | _ :: sh', i :: idx' => i * numel_of sh' + offset sh' idx'
  | _, _ => 0
  end.

Definition get {A : Type} `{Scalar A} (t : tensor A) (idx : list nat) : A :=
  nth (offset (shape t) idx) (data t) szero.

(** A multi-index within the bounds of a shape. *)
Definition inb (idx sh : list nat) : Prop := Forall2 lt idx sh.

(** The elements of the tensor of shape [sh] whose entry at [idx] is [f idx]. *)
Fixpoint tabulate_data {A : Type} (sh : list nat) (f : list nat -> A) : list A :=
  match sh with
  | [] => [f []]
  | d :: sh' => flat_map (fun i => tabulate_data sh' (fun idx => f (i :: idx))) (seq 0 d)
  end.

Definition tabulate {A : Type} (sh : list nat) (f : list nat -> A) : tensor A :=
  Tensor sh (tabulate_data sh f).

(** [ix k idx] is component [k] of a multi-index. *)
Definition ix (k : nat) (idx : list nat) : nat := nth k idx 0.

(** Sum of [f 0 .. f (n-1)]. *)
Definition sum_n {A : Type} `{Scalar A} (n : nat) (f : nat -> A) : A :=
  fold_right sadd szero (map f (seq 0 n)).

(** *** Shapes with one inferred dimension *)

(** An entry of the shape given to [view] or [reshape]; [Infer] is [-1]. *)
Inductive dim : Type :=
| Dim (n : nat)
| Infer.

Definition known_product (spec : list dim) : nat :=
  fold_right (fun d acc => match d with Dim n => n * acc | Infer => acc end) 1 spec.

Definition count_infer (spec : list dim) : nat :=
  length (List.filter (fun d => match d with Infer => true | Dim _ => false end) spec).

Definition fill_infer (spec : list dim) (v : nat) : list nat :=
  map (fun d => match d with Dim n => n | Infer => v end) spec.

(** The shape [view] computes for [n] elements: the sizes must multiply to
    [n]; one [-1] is inferred, unless the known sizes multiply to 0 or do
    not divide [n]. *)
Definition infer_shape (n : nat) (spec : list dim) : result (list nat) :=
  let p := known_product spec in
  match count_infer spec with
  | 0 => if p =? n then Ok (fill_infer spec 0) else Raise RuntimeError
  | 1 => if p =? 0 then Raise RuntimeError
         else if n mod p =? 0 then Ok (fill_infer spec (n / p))
         else Raise RuntimeError
  | _ => Raise RuntimeError
  end.

(** [t.view(spec)] and [t.reshape(spec)] on a contiguous tensor. *)
Definition view {A : Type} (t : tensor A) (spec : list dim) : result (tensor A) :=
  let* sh := infer_shape (numel t) spec in
  Ok (Tensor sh (data t)).

Definition reshape {A : Type} (t : tensor A) (spec : list dim) : result (tensor A) :=
  view t spec.

(** A Python integer used as a size in a shape. *)
Definition dim_of_Z (z : Z) : result dim :=
  if (z =? -1)%Z then Ok Infer
  else if (z <? 0)%Z then Raise RuntimeError
  else Ok (Dim (Z.to_nat z)).

(** [n, dim = x.shape] *)
Definition unpack2 {A : Type} (t : tensor A) : result (nat * nat) :=
  match shape t with
  | [a; b] => Ok (a, b)
  | _ => Raise ValueError
  end.

(** [n, _, _, dim = R.shape] *)
Definition unpack4 {A : Type} (t : tensor A) : result (nat * nat * nat * nat) :=
  match shape t with
  | [a; b; c; d] => Ok (a, b, c, d)
  | _ => Raise ValueError
  end.

(** [t.shape[i]] *)
Definition shape_at {A : Type} (t : tensor A) (i : nat) : result nat :=
  match shape t !! i with
  | Some n => Ok n
  | None => Raise IndexError
  end.

Section Ops.
Context {A : Type} `{Scalar A}.

(** [t.t()] and [t.T] of a matrix. *)
Definition transpose (t : tensor A) : result (tensor A) :=
  match shape t with
  | [r; c] => Ok (tabulate [c; r] (fun idx => get t [ix 1 idx; ix 0 idx]))
  | [] | [_] => Ok t
  | _ => Raise RuntimeError
  end.

(** [a.matmul(b)] of two matrices, summing over the shared dimension. *)
Definition matmul (a b : tensor A) : result (tensor A) :=
  match shape a, shape b with
  | [r; k], [k'; c] =>
      if k =? k'
      then Ok (tabulate [r; c]
                 (fun idx => sum_n k (fun l => smul (get a [ix 0 idx; l]) (get b [l; ix 1 idx]))))
      else Raise RuntimeError
  | _, _ => Raise RuntimeError
  end.

(** [torch.ones(r, c)] and [torch.eye(n)] *)
Definition ones (r c : nat) : tensor A := tabulate [r; c] (fun _ => sone).

Definition eye (n : nat) : tensor A :=
  tabulate [n; n] (fun idx => if ix 0 idx =? ix 1 idx then sone else szero).

(** [torch.kron(a, b)] of two matrices. *)
Definition kron (a b : tensor A) : result (tensor A) :=
  match shape a, shape b with
  | [ra; ca], [rb; cb] =>
      Ok (tabulate [ra * rb; ca * cb]
            (fun idx => smul (get a [ix 0 idx / rb; ix 1 idx / cb])
                            (get b [ix 0 idx mod rb; ix 1 idx mod cb])))
  | _, _ => Raise RuntimeError
  end.

(** The size two broadcast sizes agree on. *)
Definition broadcast_dim (a b : nat) : result nat :=
  if a =? b then Ok a
  else if a =? 1 then Ok b
  else if b =? 1 then Ok a
  else Raise RuntimeError.

(** [a * b], elementwise, of two matrices with broadcasting. *)
Definition mul_elementwise (a b : tensor A) : result (tensor A) :=
  match shape a, shape b with
  | [ra; ca], [rb; cb] =>
      let* r := broadcast_dim ra rb in
      let* c := broadcast_dim ca cb in
      Ok (tabulate [r; c]
            (fun idx =>
               smul (get a [if ra =? 1 then 0 else ix 0 idx; if ca =? 1 then 0 else ix 1 idx])
                   (get b [if rb =? 1 then 0 else ix 0 idx; if cb =? 1 then 0 else ix 1 idx])))
  | _, _ => Raise RuntimeError
  end.

(** [t.swapaxes(1, 2)] of a 4-dimensional tensor, made contiguous. *)
Definition swapaxes_1_2 (t : tensor A) : result (tensor A) :=
  match shape t with
  | [a; b; c; d] =>
      Ok (tabulate [a; c; b; d]
            (fun idx => get t [ix 0 idx; ix 2 idx; ix 1 idx; ix 3 idx]))
  | _ => Raise RuntimeError
  end.

(** [t.repeat_interleave(k, dim=1)] and [dim=0] of a matrix. *)
Definition repeat_interleave_cols (t : tensor A) (k : nat) : result (tensor A) :=
  match shape t with
  | [r; c] => Ok (tabulate [r; c * k] (fun idx => get t [ix 0 idx; ix 1 idx / k]))
  | _ => Raise RuntimeError
  end.

Definition repeat_interleave_rows (t : tensor A) (k : nat) : result (tensor A) :=
  match shape t with
  | [r; c] => Ok (tabulate [r * k; c] (fun idx => get t [ix 0 idx / k; ix 1 idx]))
  | _ => Raise RuntimeError
  end.

(** All tensors of a list have the shape [sh]. *)
Definition all_shape (sh : list nat) (ts : list (tensor A)) : bool :=
  forallb (fun t => bool_decide (shape t = sh)) ts.

(** [torch.stack(ts, axis=2)] of matrices of one shape: a new last axis. *)
Definition stack_last (ts : list (tensor A)) : result (tensor A) :=
  match ts with
  | [] => Raise RuntimeError
  | t0 :: _ =>
      match shape t0 with
      | [r; c] =>
          if all_shape [r; c] ts
          then Ok (tabulate [r; c; length ts]
                     (fun idx => get (nth (ix 2 idx) ts t0) [ix 0 idx; ix 1 idx]))
          else Raise RuntimeError
      | _ => Raise RuntimeError
      end
  end.

(** The sizes of a tensor before its last axis, and the size of that axis. *)
Definition leading (sh : list nat) : list nat := List.removelast sh.
Definition last_dim (sh : list nat) : nat := List.last sh 0.

(** Row [p] of a tensor seen as a matrix with [last_dim] columns. *)
Definition row (t : tensor A) (p : nat) : list A :=
  let w := last_dim (shape t) in
  firstn w (skipn (p * w) (data t)).

(** [torch.cat(ts, axis=nd-1)] for tensors of [nd] dimensions that agree
    on every axis but the last: [axis=1] for matrices, [axis=2] for
    3-dimensional tensors. *)
Definition cat_last (nd : nat) (ts : list (tensor A)) : result (tensor A) :=
  match ts with
  | [] => Raise RuntimeError
  | t0 :: _ =>
      let lead := leading (shape t0) in
      if forallb (fun t => bool_decide (length (shape t) = nd /\ leading (shape t) = lead)) ts
         && negb (nd =? 0)
      then Ok (Tensor (lead ++ [fold_right Nat.add 0 (map (fun t => last_dim (shape t)) ts)])
                 (flat_map (fun p => flat_map (fun t => row t p) ts) (seq 0 (numel_of lead))))
      else Raise RuntimeError
  end.

(** [t[..., j]] of a 3-dimensional tensor. *)
Definition select_last (t : tensor A) (j : nat) : result (tensor A) :=
  match shape t with
  | [a; b; c] =>
      if j <? c
      then Ok (tabulate [a; b] (fun idx => get t [ix 0 idx; ix 1 idx; j]))
      else Raise IndexError
  | _ => Raise RuntimeError
  end.

(** [torch.einsum('bki,bkj->bi', x, y)] *)
Definition einsum_bki_bkj_bi (x y : tensor A) : result (tensor A) :=
  match shape x, shape y with
  | [b; k; i], [b'; k'; j] =>
      if (b =? b') && (k =? k')
      then Ok (tabulate [b; i]
                 (fun idx =>
                    sum_n k (fun kk =>
                      sum_n j (fun jj =>
                        smul (get x [ix 0 idx; kk; ix 1 idx]) (get y [ix 0 idx; kk; jj])))))
      else Raise RuntimeError
  | _, _ => Raise RuntimeError
  end.

(** [nn.Linear(D, D, bias=False)] with weight [w], applied to [y]:
    [y @ w.T]. *)
Definition linear (w y : tensor A) : result (tensor A) :=
  let* wt := transpose w in
  matmul y wt.

End Ops.

(** [t.norm(dim=2)] of a 3-dimensional real tensor: the Euclidean norm
    along the last axis. *)
Definition norm_dim2 (t : tensor R) : result (tensor R) :=
  match shape t with
  | [a; b; c] =>
      Ok (tabulate [a; b]
            (fun idx => sqrt (sum_n c (fun k => (get t [ix 0 idx; ix 1 idx; k] *
                                                 get t [ix 0 idx; ix 1 idx; k])%R))))
  | _ => Raise IndexError
  end.

End Torch.

(* ===================================================================== *)
(** ** layers.py *)
(* ===================================================================== *)

(** *** [AnisoConv] *)

Module AnisoConv.
Import Py Torch.

(** The object: [MessagePassing] with [aggr='add']. *)
Record t : Type := { aggr : string }.

(** [AnisoConv()] *)
Definition init : t := {| aggr := "add" |}.

Section AnisoConv.
Context {A : Type} `{Scalar A}.

(** The edge list of a graph, the [kernels] argument as the caller passes
    it, and the helpers that build and convert them: [utils.to_list] and
    [utils.to_SparseTensor] of [lib/utils], and, of the graph library,
    [to_dense_adj] for [tgu.to_dense_adj(edge_index)[0]] and
    [dense_to_sparse] for [tgu.sparse.dense_to_sparse(adj)[0]].  The product
    [K_t.matmul(x, reduce=...)] of a sparse matrix with a dense one belongs
    to the sparse-tensor library: [sparse_matmul K_t x reduce]. *)
Variable EdgeIndex : Type.
Variable Kernels : Type.
Variable to_list : Kernels -> list (tensor A).
Variable to_SparseTensor : EdgeIndex -> nat * nat -> tensor A -> tensor A.
Variable to_dense_adj : EdgeIndex -> tensor A.
Variable dense_to_sparse : tensor A -> EdgeIndex.
Variable sparse_matmul : tensor A -> tensor A -> string -> result (tensor A).

(** [message_and_aggregate(self, K_t, x)].  The guard
    [(K_t.size(dim=1) % n*dim)==0] groups as [((size % n) * dim) == 0]. *)
Definition message_and_aggregate (self : t) (K_t x : tensor A) : result (tensor A) :=
  let* (n, dim) := unpack2 x in
  let* cols := shape_at K_t 1 in
  let* m := modulo_nat cols n in
  let* x' :=
    if m * dim =? 0
    then let* n_ch := floordiv_nat (n * dim) cols in
         view x [Infer; Dim n_ch]
    else Ok x in
  let* y := sparse_matmul K_t x' (aggr self) in
  view y [Infer; Dim dim].

(** What the callers rely on: on matrices whose sizes match, the library's
    product with the reduction of the layer is the matrix product. *)
Definition product_on_matching_sizes (self : t) : Prop :=
  forall (K y : tensor A) (r k c : nat),
    shape K = [r; k] -> shape y = [k; c] ->
    sparse_matmul K y (aggr self) = matmul K y.

(** [self.propagate(K_t, x=x)] with a sparse matrix for the edges runs the
    fused step [message_and_aggregate]; [update] is the identity. *)
Definition propagate (self : t) (K_t x : tensor A) : result (tensor A) :=
  message_and_aggregate self K_t x.

(** [expand_adjacenecy_matrix(edge_index, dim)] *)
Definition expand_adjacenecy_matrix (edge_index : EdgeIndex) (dim : nat)
  : result EdgeIndex :=
  let adj := to_dense_adj edge_index in
  let* adj := repeat_interleave_cols adj dim in
  let* adj := repeat_interleave_rows adj dim in
  Ok (dense_to_sparse adj).

(** The body of the loop over the kernels in [forward]: [Rb] is the block
    matrix of the rotations together with its block size, when there is
    one. *)
Definition apply_kernel (self : t) (x : tensor A) (edge_index : EdgeIndex)
    (size : nat * nat) (Rb : option (tensor A * nat)) (K : tensor A)
  : result (tensor A) :=
  let* K :=
    match Rb with
    | Some (Rm, dim) =>
        let* KK := kron K (ones dim dim) in
        mul_elementwise Rm KK
    | None => Ok K
    end in
  let* Kt := transpose K in
  let Ks := to_SparseTensor edge_index size Kt in
  let* Kst := transpose Ks in
  propagate self Kst x.

(** [forward(self, x, edge_index, size, kernels, R)] *)
Definition forward (self : t) (x : tensor A) (edge_index : EdgeIndex)
    (size : nat * nat) (kernels : Kernels) (Rot : option (tensor A))
  : result (tensor A) :=
  let* (Rb, size, edge_index) :=
    match Rot with
    | Some Rt =>
        let* (n, _, _, dim) := unpack4 Rt in
        let* Rs := swapaxes_1_2 Rt in
        let* Rm := reshape Rs [Dim (n * dim); Dim (n * dim)] in
        let size := (fst size * dim, snd size * dim) in
        let* edge_index := expand_adjacenecy_matrix edge_index dim in
        Ok (Some (Rm, dim), size, edge_index)
    | None => Ok (None, size, edge_index)
    end in
  let* out := mapM (apply_kernel self x edge_index size Rb) (to_list kernels) in
  let* out := stack_last out in
  let* rows := shape_at out 0 in
  view out [Dim rows; Infer].

End AnisoConv.
End AnisoConv.

(** *** Binary32 numbers *)

(** A tensor made by [torch.tensor] from a Python float has the default
    dtype, binary32: 24 bits of precision and exponents below 128.  Python
    floats are binary64 numbers. *)
Module Float32.

Definition prec : Z := 24.
Definition emax : Z := 128.

Definition float32 : Type := spec_float.

Definition zero : float32 := S754_zero false.

Definition is_nan (x : float32) : bool :=
  match x with
  | S754_nan => true
  | _ => false
  end.

(** The Python float written as the decimal literal [num / den]: the
    binary64 number nearest to the quotient. *)
Definition float64_of_quotient (num den : Z) : spec_float :=
  SFdiv 53 1024 (binary_normalize 53 1024 num 0 false) (binary_normalize 53 1024 den 0 false).

(** A Python float converted to the dtype of the tensor. *)
Definition of_float64 (x : spec_float) : float32 :=
  match x with
  | S754_finite s m e => binary_normalize prec emax (cond_Zopp s (Zpos m)) e s
  | _ => x
  end.

(** The rational number a finite binary number stands for. *)
Definition value (x : float32) : Q :=
  match x with
  | S754_finite s m e => (inject_Z (cond_Zopp s (Zpos m)) * Qpower 2 e)%Q
  | _ => 0%Q
  end.

End Float32.

(** *** [Diffusion] *)

Module Diffusion.
Import Py Torch.
Import Float32.

(** The object: one learned parameter, a binary32 tensor. *)
Record t : Type := { diffusion_time : float32 }.

(** [Diffusion(ic)], with [ic] as [torch.tensor(ic)] stores it. *)
Definition init (ic : float32) : t := {| diffusion_time := ic |}.

(** The floor of the diffusion time: the Python float [1e-8], converted to
    the dtype of the parameter. *)
Definition eps : float32 := of_float64 (float64_of_quotient 1 100000000).

(** [torch.clamp(x, min=m)]: a NaN is left as it is, a value below [m] is
    replaced by [m]. *)
Definition clamp_min (x m : float32) : float32 :=
  if is_nan x then x
  else if SFltb x m then m else x.

(** The dictionaries [par_L] and [par_Lc]. *)
Abbreviation par := (gmap string (option (tensor R))).

(** The calls into the geometry library, in the order they are made. *)
Inductive call : Type :=
| compute_eigendecomposition_call (L : tensor R)
| vector_diffusion_call (x : tensor R) (t : float32) (method : string) (p : par)
| scalar_diffusion_call (x : tensor R) (t : float32) (method : string) (p : par).

Definition dimension_message : string :=
  "Data dimension must be an integer multiple of the dimensions                  of the connection Laplacian!".

(** The tensors [for x_ in t] runs over: the slices along the first axis. *)
Definition unbind {A : Type} (t : tensor A) : result (list (tensor A)) :=
  match shape t with
  | [] => Raise TypeError
  | d :: sh =>
      Ok (map (fun i => Tensor sh (firstn (numel_of sh) (skipn (i * numel_of sh) (data t))))
            (seq 0 d))
  end.

(** Column [j] of a matrix as the 1-dimensional tensor [x.T[j]]. *)
Definition column (x : tensor R) (j : nat) : tensor R :=
  Tensor [nth 0 (shape x) 0] (map (fun i => get x [i; j]) (seq 0 (nth 0 (shape x) 0))).

Section Diffusion.

(** The geometry library: [g.compute_eigendecomposition],
    [g.vector_diffusion] and [g.scalar_diffusion]. *)
Variable compute_eigendecomposition : tensor R -> tensor R * tensor R.
Variable vector_diffusion : tensor R -> float32 -> string -> par -> tensor R.
Variable scalar_diffusion : tensor R -> float32 -> string -> par -> tensor R.

(** [if method=='spectral' and 'evals' not in p.keys():
       p['evals'], p['evecs'] = g.compute_eigendecomposition(M)] *)
Definition ensure_eigendecomposition (method : string) (p : par) (M : tensor R)
  : par * list call :=
  if String.eqb method "spectral" && negb (bool_decide ("evals" ∈ dom p))
  then let (evals, evecs) := compute_eigendecomposition M in
       (<["evecs" := Some evecs]> (<["evals" := Some evals]> p),
        [compute_eigendecomposition_call M])
  else (p, []).

(** The assertion of the vector branch:
    [(x.shape[0]*x.shape[1] % Lc.shape[0])==0]. *)
Definition check_dimension (x Lc : tensor R) : result unit :=
  let* v := shape_at x 0 in
  let* k := shape_at x 1 in
  let* rows := shape_at Lc 0 in
  let* m := modulo_nat (v * k) rows in
  assert (m =? 0) dimension_message.

(** [forward(self, x, L, Lc, method, normalise)]: the object after the
    call, the library calls made, and the value returned or the exception
    raised. *)
Definition forward (self : t) (x L : tensor R) (Lc : option (tensor R))
    (method : string) (normalise : bool) : t * list call * result (tensor R) :=
  let par_L : par := {[ "L" := Some L ]} in
  let par_Lc : par := {[ "Lc" := Lc ]} in
  let self := {| diffusion_time := clamp_min (diffusion_time self) eps |} in
  let t := diffusion_time self in
  match Lc with
  | Some Lc =>
      let (par_Lc, log) := ensure_eigendecomposition method par_Lc Lc in
      match check_dimension x Lc with
      | Raise e => (self, log, Raise e)
      | Ok _ =>
          (self, log ++ [vector_diffusion_call x t method par_Lc],
           Ok (vector_diffusion x t method par_Lc))
      end
  | None =>
      let (par_L, log) := ensure_eigendecomposition method par_L L in
      match (let* xT := transpose x in unbind xT) with
      | Raise e => (self, log, Raise e)
      | Ok cols =>
          (self, log ++ map (fun x_ => scalar_diffusion_call x_ t method par_L) cols,
           cat_last 2 (map (fun x_ => scalar_diffusion x_ t method par_L) cols))
      end
  end.

(** The dictionary the scalar branch hands to the library, and the calls
    made before the diffusion calls. *)
Definition scalar_par (L : tensor R) (method : string) : par :=
  if String.eqb method "spectral"
  then <["evecs" := Some (snd (compute_eigendecomposition L))]>
         (<["evals" := Some (fst (compute_eigendecomposition L))]> {[ "L" := Some L ]})
  else {[ "L" := Some L ]}.

Definition eigendecomposition_step (M : tensor R) (method : string) : list call :=
  if String.eqb method "spectral" then [compute_eigendecomposition_call M] else [].

(** Two calls on one object with the same Laplacians, one after the
    other. *)
Definition forward_twice (self : t) (x1 x2 L : tensor R) (Lc : option (tensor R))
    (method : string) (normalise : bool)
  : t * (list call * list call) * (result (tensor R) * result (tensor R)) :=
  let '(self1, log1, out1) := forward self x1 L Lc method normalise in
  let '(self2, log2, out2) := forward self1 x2 L Lc method normalise in
  (self2, (log1, log2), (out1, out2)).

(** The three components of what [forward] yields. *)
Definition state_after (r : t * list call * result (tensor R)) : t := fst (fst r).
Definition log_of (r : t * list call * result (tensor R)) : list call := snd (fst r).
Definition result_of (r : t * list call * result (tensor R)) : result (tensor R) := snd r.

(** The logs of the first and of the second of two calls. *)
Definition first_log (r : t * (list call * list call) * (result (tensor R) * result (tensor R)))
  : list call := fst (snd (fst r)).
Definition second_log (r : t * (list call * list call) * (result (tensor R) * result (tensor R)))
  : list call := snd (snd (fst r)).

(** The Laplacian a call works with: [Lc] when it is given, else [L]. *)
Definition laplacian_used (L : tensor R) (Lc : option (tensor R)) : tensor R :=
  match Lc with
  | Some Lc => Lc
  | None => L
  end.

(** The dictionary handed to the library in a diffusion call. *)
Definition par_of (c : call) : option par :=
  match c with
  | compute_eigendecomposition_call _ => None
  | vector_diffusion_call _ _ _ p => Some p
  | scalar_diffusion_call _ _ _ p => Some p
  end.

(** The number of eigendecompositions in a log. *)
Definition eig_calls (log : list call) : nat :=
  length (List.filter (fun c => match c with
                                | compute_eigendecomposition_call _ => true
                                | _ => false
                                end) log).

(** The diffusion times handed to the library in a log. *)
Definition times_used (log : list call) : list float32 :=
  flat_map (fun c => match c with
                     | compute_eigendecomposition_call _ => []
                     | vector_diffusion_call _ t _ _ => [t]
                     | scalar_diffusion_call _ t _ _ => [t]
                     end) log.

End Diffusion.
End Diffusion.

(** *** [InnerProductFeatures] *)

Module InnerProductFeatures.
Import Py Torch.

(** The object: the channel count [C], the vector dimension [D] and the
    weights of the [C] linear maps [O]. *)
Record t : Type := {
  C : Z;
  D : Z;
  O : list (tensor R)
}.

(** The argument of [forward]: one tensor or a list of tensors. *)
Inductive input : Type :=
| Single (x : tensor R)
| Many (xs : list (tensor R)).

(** [if not isinstance(x, list): x = [x]] *)
Definition as_list (x : input) : list (tensor R) :=
  match x with
  | Single x => [x]
  | Many xs => xs
  end.

(** [torch.eye(n)] for a Python integer. *)
Definition eye_Z (n : Z) : result (tensor R) :=
  if (n <? 0)%Z then Raise RuntimeError else Ok (eye (Z.to_nat n)).

(** [reset_parameters(self)] *)
Definition reset_parameters (self : t) : result t :=
  let* ws := mapM (fun _ => eye_Z (D self)) (O self) in
  Ok {| C := C self; D := D self; O := ws |}.

Definition channels_message : string := "Number of channels is incorrect!".

(** The number of [Dn]-dimensional channels in a list of matrices. *)
Definition channel_count (Dn : nat) (xs : list (tensor R)) : nat :=
  fold_right Nat.add 0 (map (fun t => width t / Dn) xs).

(** Component [k] of channel [i] at node [v] of a signal with [Cn]
    channels: the columns are laid out component by component. *)
Definition component (x : tensor R) (Cn v i k : nat) : R := get x [v; k * Cn + i].

(** The inner product of channels [i] and [j] at node [v]. *)
Definition inner (x : tensor R) (Cn Dn v i j : nat) : R :=
  sum_n Dn (fun k => (component x Cn v i k * component x Cn v j k)%R).

(** The bilinear form [x_i^T W x_j] at node [v]. *)
Definition bilinear (W x : tensor R) (Cn Dn v i j : nat) : R :=
  sum_n Dn (fun k =>
    (component x Cn v i k * sum_n Dn (fun l => (get W [k; l] * component x Cn v j l)%R))%R).

(** The vector branch of [forward] after the channel check. *)
Definition inner_products (self : t) (x : tensor R) : result (tensor R) :=
  let* Ox := mapM (fun j =>
                     let* w := index (O self) (Z.of_nat j) in
                     let* xj := select_last x j in
                     linear w xj)
                  (seq 0 (Z.to_nat (C self))) in
  let* Ox := stack_last Ox in
  let* xOx := einsum_bki_bkj_bi x Ox in
  let* v := shape_at x 0 in
  reshape xOx [Dim v; Infer].

(** [forward(self, x)].  The code overwrites the entries of the list it is
    given; the model keeps the value returned. *)
Definition forward (self : t) (x : input) : result (tensor R) :=
  let x := as_list x in
  let* x := mapM (fun x_ =>
                    let* v := shape_at x_ 0 in
                    let* d := dim_of_Z (D self) in
                    reshape x_ [Dim v; d; Infer]) x in
  if (D self =? 1)%Z
  then
    let* x := mapM norm_dim2 x in
    cat_last 2 x
  else
    let* x := cat_last 3 x in
    let* c := shape_at x 2 in
    let* _ := assert (Z.of_nat c =? C self)%Z channels_message in
    inner_products self x.

Section Init.

(** The weight a fresh [nn.Linear(D, D, bias=False)] starts with. *)
Variable linear_weight : nat -> tensor R.

(** [InnerProductFeatures(C, D)] *)
Definition init (C D : Z) : result t :=
  let* ws := mapM (fun _ => if (D <? 0)%Z then Raise RuntimeError
                            else Ok (linear_weight (Z.to_nat D)))
                  (seq 0 (Z.to_nat C)) in
  reset_parameters {| C := C; D := D; O := ws |}.

End Init.
End InnerProductFeatures.

(** *** [setup_layers] *)

Module Layers.
Import Py Torch.

(** The entries of the dictionary [par] that [setup_layers] reads. *)
Record params : Type := {
  signal_dim : Z;
  emb_dim : Z;
  order : nat;
  inner_product_features : bool;
  depth : nat;
  hidden_channels : Z;
  out_channels : Z;
  n_lin_layers : Z;
  dropout : R;
  batch_norm : bool;
  bias : bool
}.

(** The arguments of the layers built by the graph library. *)
Record GCNConv : Type := { gcn_in_channels : Z; gcn_out_channels : Z }.

Record MLP : Type := {
  mlp_in_channels : Z;
  mlp_hidden_channels : Z;
  mlp_out_channels : Z;
  mlp_num_layers : Z;
  mlp_dropout : R;
  mlp_norm : bool;
  mlp_bias : bool
}.

(** What [setup_layers] returns. *)
Record layers : Type := {
  diffusion : Diffusion.t;
  grad : list AnisoConv.t;
  convs : list GCNConv;
  mlp : MLP;
  ip : InnerProductFeatures.t
}.

(** [s*((1-e**(o+1))//(1-e))]: the channels after the gradient features. *)
Definition cum_channels_gradient (s e : Z) (o : nat) : result Z :=
  let* q := floordiv (1 - e ^ (Z.of_nat o + 1)) (1 - e) in
  Ok (s * q)%Z.

(** The sum [e^0 + e^1 + ... + e^o]. *)
Fixpoint geometric_sum (e : Z) (o : nat) : Z :=
  match o with
  | 0 => 1
  | S o' => geometric_sum e o' + e ^ Z.of_nat o
  end.

(** The sum [e^k + e^(k+1) + ... + e^(k+n-1)] of natural numbers. *)
Fixpoint pow_sum (e k n : nat) : nat :=
  match n with
  | 0 => 0
  | S n' => e ^ k + pow_sum e (S k) n'
  end.

(** The adjustment made when inner-product features are used. *)
Definition cum_channels_adjust (ipf : bool) (s : Z) (o : nat) (cum_channels : Z)
  : result Z :=
  if ipf
  then let* c := floordiv cum_channels s in
       if (s =? 1)%Z then Ok (Z.of_nat o + 1)%Z else Ok c
  else Ok cum_channels.

Section SetupLayers.
Variable linear_weight : nat -> tensor R.

(** [setup_layers(par)] *)
Definition setup_layers (par : params) : result layers :=
  let s := signal_dim par in
  let e := emb_dim par in
  let o := order par in
  let diffusion := Diffusion.init Float32.zero in
  let grad := map (fun _ => AnisoConv.init) (seq 0 o) in
  let* cum_channels := cum_channels_gradient s e o in
  let* cum_channels := cum_channels_adjust (inner_product_features par) s o cum_channels in
  let convs := map (fun _ => {| gcn_in_channels := cum_channels;
                                gcn_out_channels := cum_channels |})
                   (seq 0 (depth par)) in
  let* ip := InnerProductFeatures.init linear_weight cum_channels s in
  let mlp := {| mlp_in_channels := cum_channels;
                mlp_hidden_channels := hidden_channels par;
                mlp_out_channels := out_channels par;
                mlp_num_layers := n_lin_layers par;
                mlp_dropout := dropout par;
                mlp_norm := batch_norm par;
                mlp_bias := bias par |} in
  Ok {| diffusion := diffusion; grad := grad; convs := convs; mlp := mlp; ip := ip |}.

End SetupLayers.
End Layers.

(* ===================================================================== *)
(** ** Arrays *)
(* ===================================================================== *)

Module Numpy.
Import Py Torch.

(** [np.atleast_2d] on a shape. *)
Definition atleast_2d (sh : list nat) : list nat :=
  match sh with
  | [] => [1; 1]
  | [d] => [1; d]
  | _ => sh
  end.

(** [np.vstack([a, b])]: the rows of [a], then the rows of [b]. *)
Definition vstack2 (a b : tensor R) : result (tensor R) :=
  match atleast_2d (shape a), atleast_2d (shape b) with
  | n :: ra, k :: rb =>
      if bool_decide (ra = rb)
      then Ok (Tensor ((n + k) :: ra) (data a ++ data b))
      else Raise ValueError
  | _, _ => Raise ValueError
  end.

(** A slice bound [i] on an axis of length [m]: a negative bound counts
    from the end, and both are clipped to the axis. *)
Definition slice_bound (m : nat) (i : Z) : nat :=
  if (i <? 0)%Z then Z.to_nat (Z.max (i + Z.of_nat m) 0)
  else Nat.min (Z.to_nat i) m.

(** [a[start:stop]] on the first axis; an omitted bound is [None]. *)
Definition slice_rows (a : tensor R) (start stop : option Z) : result (tensor R) :=
  match shape a with
  | [] => Raise IndexError
  | m :: rest =>
      let lo := match start with Some i => slice_bound m i | None => 0 end in
      let hi := match stop with Some i => slice_bound m i | None => m end in
      let w := numel_of rest in
      Ok (Tensor ((hi - lo) :: rest) (firstn ((hi - lo) * w) (skipn (lo * w) (data a))))
  end.

(** [a[start:stop, :]]: the same on an array with at least two axes. *)
Definition slice_rows_2d (a : tensor R) (start stop : option Z) : result (tensor R) :=
  match shape a with
  | _ :: _ :: _ => slice_rows a start stop
  | _ => Raise IndexError
  end.

(** [np.diff(a, axis=0)]: each row minus the one before it. *)
Definition diff0 (a : tensor R) : result (tensor R) :=
  match shape a with
  | [] => Raise ValueError
  | m :: rest =>
      let w := numel_of rest in
      Ok (Tensor ((m - 1) :: rest)
            (map (fun p => (nth (p + w) (data a) 0 - nth p (data a) 0)%R)
                 (seq 0 ((m - 1) * w))))
  end.

(** [np.linspace(start, stop, num)] for integer arguments. *)
Definition linspace (start stop num : Z) : result (list R) :=
  if (num <? 0)%Z then Raise ValueError
  else Ok (map (fun i => if (num =? 1)%Z then IZR start
                         else (IZR start + INR i * ((IZR stop - IZR start) / IZR (num - 1)))%R)
               (seq 0 (Z.to_nat num))).

(** [np.repeat(c, n)] of a scalar. *)
Definition repeat_scalar {A : Type} (c : A) (n : Z) : result (list A) :=
  if (n <? 0)%Z then Raise ValueError else Ok (repeat c (Z.to_nat n)).

End Numpy.

(* ===================================================================== *)
(** ** postprocessing.py *)
(* ===================================================================== *)

Module Postprocessing.
Import Py.

(** A dataset object, as far as this module looks at it: the names of its
    attributes and its slice dictionary. *)
Record dataset : Type := {
  attrs : gset string;
  slice_dict : gmap string (list Z)
}.

(** The attributes [postprocessing] stores on the dataset. *)
Definition stored_attrs : gset string :=
  {[ "emb_2d"; "manifold"; "clusters"; "dist"; "gamma"; "cdist" ]}.

(** [postprocessing(data, ...)], as far as attributes go: it reads
    [data.emb] and [data._slice_dict['x']] and stores its results; the
    values come from the geometry library and are not modelled. *)
Definition postprocessing (data : dataset) : result dataset :=
  if bool_decide ("emb" ∈ attrs data)
  then match slice_dict data !! "x" with
       | Some _ => Ok {| attrs := attrs data ∪ stored_attrs; slice_dict := slice_dict data |}
       | None => Raise (KeyError "x")
       end
  else Raise (AttributeError "emb").

Definition no_clusters_message : string :=
  "No clusters found. First, run         geometry.cluster(data) or postprocessing(data)!".

Definition slices_message : string := "Source and target must be < number of slices!".

Definition different_message : string := "Source and target must be different!".

(** [range(a, b)] *)
Definition range (a b : Z) : list Z :=
  map (fun i => (a + Z.of_nat i)%Z) (seq 0 (Z.to_nat (b - a))).

(** Lines 58 to 64 of [compare_attractors]: the node ranges of the two
    slices, then the two assertions on [s] and [t]. *)
Definition slice_checks (slices : list Z) (s t : Z) : result (list Z * list Z) :=
  let n_slices := (Z.of_nat (length slices) - 1)%Z in
  let* a := index slices s in
  let* b := index slices (s + 1) in
  let s_s := range a b in
  let* c := index slices t in
  let* d := index slices (t + 1) in
  let s_t := range c d in
  let* _ := assert ((s <? n_slices - 2) && (t <? n_slices - 1))%Z slices_message in
  let* _ := assert (negb (s =? t)%Z) different_message in
  Ok (s_s, s_t).

(** [compare_attractors(data, source_target)] up to the end of its checks;
    the result is the pair of node ranges the plotting code goes on with. *)
Definition compare_attractors (data : dataset) (source_target : Z * Z)
  : result (list Z * list Z) :=
  let* found := hasattr (attrs data) (PTuple ["emb_2d"]) in
  let* _ := assert found no_clusters_message in
  let (s, t) := source_target in
  let* slices := match slice_dict data !! "x" with
                 | Some l => Ok l
                 | None => Raise (KeyError "x")
                 end in
  slice_checks slices s t.

(** The integers a [range] holds. *)
Definition in_range (a b x : Z) : Prop := (a <= x < b)%Z.

(** Offsets that never decrease, as the slice dictionary of a batch has
    them. *)
Definition nondecreasing (slices : list Z) : Prop :=
  forall i j, i <= j -> j < length slices ->
    (nth i slices 0 <= nth j slices 0)%Z.

Section Embed.
Import Torch.

(** [g.embed(emb, embed_typ, manifold)] of the geometry library, which
    returns the embedded points and the fitted manifold. *)
Variable Manifold : Type.
Variable embed : tensor R -> string -> option Manifold -> tensor R * Manifold.

(** Lines 37 to 39 of [postprocessing]: the centroids are stacked under the
    points, everything is embedded at once, and the result is cut again
    [n_clusters] rows before its end. *)
Definition embed_with_centroids (emb centroids : tensor R) (embed_typ : string)
    (manifold : option Manifold) (n_clusters : Z)
  : result (tensor R * tensor R * Manifold) :=
  let* emb := Numpy.vstack2 emb centroids in
  let (emb, manifold) := embed emb embed_typ manifold in
  let* emb_2d := Numpy.slice_rows emb None (Some (- n_clusters)%Z) in
  let* centroids := Numpy.slice_rows emb (Some (- n_clusters)%Z) None in
  Ok (emb_2d, centroids, manifold).

End Embed.

End Postprocessing.

(* ===================================================================== *)
(** ** generate_datasets.py *)
(* ===================================================================== *)

Module GenerateDatasets.
Import Py Torch.

(** [get_vector_array(coords)] *)
Definition get_vector_array (coords : tensor R) : result (tensor R) :=
  Numpy.diff0 coords.

Section Trial.

(** [pca.transform] of the fitted decomposition. *)
Variable pca_transform : tensor R -> tensor R.

(** The body of the loop over the trials of condition [c] in [main]: the
    positions, the vectors between them, the time points and the condition
    labels that are appended for one trial. *)
Definition trial_features (c : nat) (trial : tensor R)
  : result (tensor R * tensor R * list R * list nat) :=
  let trial := pca_transform trial in
  let* pos := Numpy.slice_rows_2d trial None (Some (-1)%Z) in
  let* vel := get_vector_array trial in
  let* T := shape_at trial 0 in
  let* timepoints := Numpy.linspace 0 (Z.of_nat T - 2) (Z.of_nat T - 1) in
  let* labels := Numpy.repeat_scalar c (Z.of_nat T - 1) in
  Ok (pos, vel, timepoints, labels).

End Trial.
End GenerateDatasets.

(* ===================================================================== *)
(** ** Sample inputs *)
(* ===================================================================== *)

Module Samples.
Import Py Torch.

(** Stand-ins for the geometry library, used to run [Diffusion.forward] on
    concrete inputs: the diffusion functions hand their input back. *)
Definition eig_id (L : tensor R) : tensor R * tensor R := (L, L).
Definition diffusion_id (x : tensor R) (t : Float32.float32) (method : string)
    (p : Diffusion.par)
  : tensor R := x.

(** A scalar diffusion that returns its input as a column, as the library
    does for a 1-dimensional signal. *)
Definition diffusion_unsqueeze (x : tensor R) (t : Float32.float32) (method : string)
    (p : Diffusion.par)
  : tensor R := Tensor [nth 0 (shape x) 0; 1] (data x).

(** A scalar signal on 3 nodes with 2 channels and a Laplacian. *)
Definition x_3x2 : tensor R := Tensor [3; 2] [1; 2; 3; 4; 5; 6]%R.
Definition L_3x3 : tensor R := Tensor [3; 3] (repeat 0%R 9).

(** A signal on one node with one channel, and its 1x1 Laplacian. *)
Definition x_1x1 : tensor R := Tensor [1; 1] [1%R].
Definition L_1x1 : tensor R := Tensor [1; 1] [0%R].

(** A scalar signal on one node and its gradient features with two
    channels, as the list handed to [InnerProductFeatures.forward]. *)
Definition x_scalar : tensor R := Tensor [1; 1] [(-2)%R].
Definition x_grad : tensor R := Tensor [1; 2] [3%R; 4%R].

(** Reducers for scalar signals, configured for 2 and for 5 channels. *)
Definition ip_scalar_2 : InnerProductFeatures.t :=
  {| InnerProductFeatures.C := 2; InnerProductFeatures.D := 1;
     InnerProductFeatures.O := repeat (eye 1) 2 |}.
Definition ip_scalar_5 : InnerProductFeatures.t :=
  {| InnerProductFeatures.C := 5; InnerProductFeatures.D := 1;
     InnerProductFeatures.O := repeat (eye 1) 5 |}.

(** A signal of shape 5x3 and a connection Laplacian of shape 7x7. *)
Definition x_5x3 : tensor R := Tensor [5; 3] (repeat 1%R 15).
Definition Lc_7x7 : tensor R := Tensor [7; 7] (repeat 0%R 49).

(** A signal of shape 6x2 and a connection Laplacian of shape 4x4, and an
    empty connection Laplacian. *)
Definition x_6x2 : tensor R := Tensor [6; 2] (repeat 1%R 12).
Definition Lc_4x4 : tensor R := Tensor [4; 4] (repeat 0%R 16).
Definition Lc_0x0 : tensor R := Tensor [0; 0] [].

(** Stand-ins for the helpers of [AnisoConv] on integer tensors: the
    kernels are passed as a list, and the sparse matrix takes its entry at
    every position from the value matrix. *)
Definition to_list_id (ks : list (tensor Z)) : list (tensor Z) := ks.
Definition to_SparseTensor_dense (e : unit) (size : nat * nat) (v : tensor Z) : tensor Z :=
  tabulate [fst size; snd size] (fun idx => get v idx).
Definition to_dense_adj_empty (e : unit) : tensor Z := Tensor [0; 0] [].
Definition dense_to_sparse_unit (adj : tensor Z) : unit := tt.

(** A stand-in for the product of the sparse-tensor library: it sums over
    the columns of the matrix that are rows of the signal, whatever the
    declared sizes; on matching sizes it is the matrix product. *)
Definition sparse_matmul_sum (K_t x : tensor Z) (reduce : string) : result (tensor Z) :=
  match shape K_t, shape x with
  | [r; k], [k'; c] =>
      Ok (tabulate [r; c]
            (fun idx => sum_n (Nat.min k k')
                          (fun l => smul (get K_t [ix 0 idx; l]) (get x [l; ix 1 idx]))))
  | _, _ => Raise RuntimeError
  end.

(** A scalar signal on 2 nodes with 4 channels, and 3 kernels. *)
Definition x_2x4 : tensor Z := Tensor [2; 4] [1; 2; 3; 4; 5; 6; 7; 8]%Z.
Definition K_a : tensor Z := Tensor [2; 2] [1; 0; 0; 1]%Z.
Definition K_b : tensor Z := Tensor [2; 2] [0; 1; 1; 0]%Z.
Definition K_c : tensor Z := Tensor [2; 2] [1; 1; 0; 0]%Z.

(** Rotations on 2 nodes in the plane, all of them the identity, a kernel
    and a planar vector signal. *)
Definition R_identity : tensor Z :=
  Tensor [2; 2; 2; 2] [1; 0; 0; 1; 1; 0; 0; 1; 1; 0; 0; 1; 1; 0; 0; 1]%Z.
Definition K_1234 : tensor Z := Tensor [2; 2] [1; 2; 3; 4]%Z.
Definition x_2x2 : tensor Z := Tensor [2; 2] [1; 2; 3; 4]%Z.

(** A transposed kernel with 3 columns, not a multiple of 2. *)
Definition K_2x3 : tensor Z := Tensor [2; 3] [1; 0; 0; 0; 1; 0]%Z.

(** A kernel over 2 nodes with planar rotations applied, 4 x 4, and a
    graph library whose edge lists are the dense adjacency matrices. *)
Definition K_4x4 : tensor Z :=
  Tensor [4; 4] [1; 2; 0; 0; 0; 1; 0; 3; 1; 0; 1; 0; 0; 0; 2; 1]%Z.
Definition to_dense_adj_self (e : tensor Z) : tensor Z := e.
Definition dense_to_sparse_self (adj : tensor Z) : tensor Z := adj.

(** A dataset after clustering, with four slices of five nodes, and one
    with two slices. *)
Definition data_4_slices : Postprocessing.dataset :=
  {| Postprocessing.attrs := {[ "x"; "pos"; "emb" ]} ∪ Postprocessing.stored_attrs;
     Postprocessing.slice_dict := {[ "x" := [0; 5; 10; 15; 20]%Z ]} |}.
Definition data_2_slices : Postprocessing.dataset :=
  {| Postprocessing.attrs := {[ "x"; "pos"; "emb" ]} ∪ Postprocessing.stored_attrs;
     Postprocessing.slice_dict := {[ "x" := [0; 5; 10]%Z ]} |}.

End Samples.

(* ===================================================================== *)
(** * Properties *)
(* ===================================================================== *)

(** ** The error monad *)

Module PyFacts.
Import Py.

Lemma bind_Ok {A B : Type} (a : A) (k : A -> result B) : bind (Ok a) k = k a.
Proof. reflexivity. Qed.

Lemma bind_Raise {A B : Type} (e : exn) (k : A -> result B) : bind (Raise e) k = Raise e.
Proof. reflexivity. Qed.

Lemma bind_Ok_inv {A B : Type} (m : result A) (k : A -> result B) (b : B) :
  bind m k = Ok b -> exists a, m = Ok a /\ k a = Ok b.
Proof. destruct m as [a|e]; simpl; [eauto | discriminate]. Qed.

Lemma mapM_Ok_all {A B : Type} (f : A -> result B) (g : A -> B) (l : list A) :
  (forall a, In a l -> f a = Ok (g a)) -> mapM f l = Ok (map g l).
Proof.
  induction l as [|a l IH]; intros Hf; simpl; [reflexivity|].
  rewrite (Hf a) by (left; reflexivity). simpl.
  rewrite IH by (intros b Hb; apply Hf; right; exact Hb). reflexivity.
Qed.

Lemma mapM_length {A B : Type} (f : A -> result B) (l : list A) (bs : list B) :
  mapM f l = Ok bs -> length bs = length l.
Proof.
  revert bs. induction l as [|a l IH]; intros bs; simpl.
  - intros [= <-]. reflexivity.
  - destruct (f a) as [b|e]; simpl; [|discriminate].
    destruct (mapM f l) as [bs'|e]; simpl; [|discriminate].
    intros [= <-]. simpl. f_equal. apply IH. reflexivity.
Qed.

Lemma mapM_nth {A B : Type} (f : A -> result B) (l : list A) (bs : list B)
    (i : nat) (da : A) (db : B) :
  mapM f l = Ok bs -> i < length l -> f (nth i l da) = Ok (nth i bs db).
Proof.
  revert bs i. induction l as [|a l IH]; intros bs i; simpl.
  - intros _ Hi. lia.
  - destruct (f a) as [b|e] eqn:Ha; simpl; [|discriminate].
    destruct (mapM f l) as [bs'|e] eqn:Hl; simpl; [|discriminate].
    intros [= <-] Hi. destruct i as [|i]; simpl; [exact Ha|].
    apply IH; [reflexivity | lia].
Qed.

Lemma mapM_In {A B : Type} (f : A -> result B) (l : list A) (bs : list B) (b : B) :
  mapM f l = Ok bs -> In b bs -> exists a, In a l /\ f a = Ok b.
Proof.
  revert bs. induction l as [|a l IH]; intros bs; simpl.
  - intros [= <-] [].
  - destruct (f a) as [b'|e] eqn:Ha; simpl; [|discriminate].
    destruct (mapM f l) as [bs'|e] eqn:Hl; simpl; [|discriminate].
    intros [= <-] [<-|Hin].
    + exists a. auto.
    + destruct (IH bs' eq_refl Hin) as (a' & Ha' & Hfa'). exists a'. auto.
Qed.

(** A loop whose every step succeeds succeeds, and relates inputs and
    outputs position by position. *)
Lemma mapM_exists {A B : Type} (f : A -> result B) (P : A -> B -> Prop) (l : list A) :
  (forall a, In a l -> exists b, f a = Ok b /\ P a b) ->
  exists bs, mapM f l = Ok bs /\ length bs = length l /\
             forall i da db, i < length l -> P (nth i l da) (nth i bs db).
Proof.
  induction l as [|a l IH]; intros Hf.
  - exists []. repeat split. intros i da db Hi. simpl in Hi. lia.
  - destruct (Hf a (or_introl eq_refl)) as (b & Hb & HP).
    destruct IH as (bs & Hbs & Hlen & Hnth); [intros a' Ha'; apply Hf; right; exact Ha'|].
    exists (b :: bs). simpl. rewrite Hb, Hbs. simpl. repeat split; [lia|].
    intros [|i] da db Hi; simpl; [exact HP | apply Hnth; lia].
Qed.

End PyFacts.


(** ** [Diffusion] *)

Module DiffusionFacts.
Import Py Torch Float32 Diffusion PyFacts.

(** The floor is 11258999 * 2^-50, a binary32 number, the one nearest to
    1e-8 and below it. *)
Lemma eps_value : eps = S754_finite false 11258999 (-50).
Proof. vm_compute. reflexivity. Qed.

Lemma eps_valid : valid_binary prec emax eps = true.
Proof. vm_compute. reflexivity. Qed.

Lemma eps_below_1e_8 :
  (value eps == 11258999 # 1125899906842624)%Q /\
  (value eps < 1 # 100000000)%Q /\
  (1 # 100000000 < value (S754_finite false 11259000 (-50)))%Q /\
  ((1 # 100000000) - value eps < value (S754_finite false 11259000 (-50)) - (1 # 100000000))%Q.
Proof. rewrite eps_value. repeat split. Qed.

(** Comparing the other way round gives the opposite answer. *)
Lemma SFcompare_antisym (a b : spec_float) :
  SFcompare b a = option_map CompOpp (SFcompare a b).
Proof.
  destruct a as [sa|sa| |sa ma ea], b as [sb|sb| |sb mb eb];
    try reflexivity; try (destruct sa; reflexivity); try (destruct sb; reflexivity);
    try (destruct sa, sb; reflexivity).
  cbn [SFcompare option_map]. f_equal.
  destruct sa, sb; try reflexivity;
    rewrite (Z.compare_antisym ea eb); destruct (ea ?= eb)%Z; cbn [CompOpp]; try reflexivity;
    change (Pos.compare_cont Eq mb ma) with (Pos.compare mb ma);
    change (Pos.compare_cont Eq ma mb) with (Pos.compare ma mb);
    rewrite (Pos.compare_antisym ma mb); destruct (Pos.compare ma mb); reflexivity.
Qed.

Lemma clamp_min_nan (m : float32) : clamp_min S754_nan m = S754_nan.
Proof. reflexivity. Qed.

(** What the clamp does to a number: below the floor it gives the floor,
    otherwise the number itself. *)
Lemma clamp_min_number (x m : float32) :
  is_nan x = false ->
  clamp_min x m = if SFltb x m then m else x.
Proof. intros Hx. unfold clamp_min. rewrite Hx. reflexivity. Qed.

(** A number that is not below the floor is at least the floor. *)
Lemma eps_leb_of_not_ltb (x : float32) :
  is_nan x = false -> SFltb x eps = false -> SFleb eps x = true.
Proof.
  intros Hx Hlt. unfold SFleb, SFltb in *. rewrite SFcompare_antisym.
  assert (Hc : SFcompare x eps <> None).
  { rewrite eps_value. destruct x as [s|s| |s m e]; discriminate. }
  destruct (SFcompare x eps) as [[ | | ]|]; try reflexivity;
    [discriminate | contradiction].
Qed.

(** A number that is not below the floor is strictly positive. *)
Lemma pos_of_not_ltb_eps (x : float32) :
  is_nan x = false -> SFltb x eps = false -> SFltb zero x = true.
Proof.
  rewrite eps_value. destruct x as [s|s| |s m e]; try discriminate.
  - destruct s; intros _ Hlt; [discriminate Hlt | reflexivity].
  - destruct s; intros _ Hlt; [discriminate Hlt | reflexivity].
Qed.

Lemma clamp_min_eps_spec (x : float32) :
  is_nan x = false ->
  is_nan (clamp_min x eps) = false /\
  SFleb eps (clamp_min x eps) = true /\
  SFltb zero (clamp_min x eps) = true.
Proof.
  intros Hx. rewrite (clamp_min_number x eps Hx).
  destruct (SFltb x eps) eqn:Hlt.
  - rewrite eps_value. repeat split.
  - split; [exact Hx|]. split; [apply eps_leb_of_not_ltb | apply pos_of_not_ltb_eps];
      assumption.
Qed.

Lemma eig_calls_app (l1 l2 : list call) :
  eig_calls (l1 ++ l2) = eig_calls l1 + eig_calls l2.
Proof. unfold eig_calls. rewrite List.filter_app, length_app. reflexivity. Qed.

Lemma eig_calls_scalar (f : tensor R -> call) (cols : list (tensor R)) :
  (forall x, exists t m p, f x = scalar_diffusion_call x t m p) ->
  eig_calls (map f cols) = 0.
Proof.
  intros Hf. induction cols as [|c cols IH]; [reflexivity|].
  unfold eig_calls in *. simpl. destruct (Hf c) as (t & m & p & ->). exact IH.
Qed.

Lemma times_used_app (l1 l2 : list call) :
  times_used (l1 ++ l2) = times_used l1 ++ times_used l2.
Proof. unfold times_used. apply flat_map_app. Qed.

Lemma times_used_scalar (t : float32) (m : string) (p : par) (cols : list (tensor R)) :
  times_used (map (fun x_ => scalar_diffusion_call x_ t m p) cols) = repeat t (length cols).
Proof. induction cols as [|c cols IH]; simpl; [reflexivity | f_equal; exact IH]. Qed.

Section WithLibrary.
Variable compute_eigendecomposition : tensor R -> tensor R * tensor R.
Variable vector_diffusion : tensor R -> float32 -> string -> par -> tensor R.
Variable scalar_diffusion : tensor R -> float32 -> string -> par -> tensor R.

Local Abbreviation ensure := (ensure_eigendecomposition compute_eigendecomposition).
Local Abbreviation fwd := (forward compute_eigendecomposition vector_diffusion scalar_diffusion).

(** A dictionary freshly built with one key other than ['evals'] never holds
    a decomposition, so a spectral call computes one. *)
Lemma ensure_fresh (k : string) (v : option (tensor R)) (M : tensor R) :
  k <> "evals" ->
  ensure "spectral" {[ k := v ]} M
  = (<["evecs" := Some (snd (compute_eigendecomposition M))]>
       (<["evals" := Some (fst (compute_eigendecomposition M))]> {[ k := v ]}),
     [compute_eigendecomposition_call M]).
Proof.
  intros Hk. unfold ensure_eigendecomposition.
  rewrite bool_decide_eq_false_2.
  - simpl. destruct (compute_eigendecomposition M); reflexivity.
  - rewrite dom_singleton_L, elem_of_singleton. congruence.
Qed.

Lemma ensure_other (method : string) (p : par) (M : tensor R) :
  method <> "spectral" -> ensure method p M = (p, []).
Proof.
  intros Hm. unfold ensure_eigendecomposition.
  apply String.eqb_neq in Hm. rewrite Hm. reflexivity.
Qed.

Lemma ensure_eig_calls (method : string) (k : string) (v : option (tensor R)) (M : tensor R) :
  k <> "evals" ->
  eig_calls (snd (ensure method {[ k := v ]} M))
  = if String.eqb method "spectral" then 1 else 0.
Proof.
  intros Hk. destruct (String.eqb_spec method "spectral") as [->|Hm].
  - rewrite ensure_fresh by exact Hk. reflexivity.
  - rewrite ensure_other by exact Hm. reflexivity.
Qed.

Lemma ensure_times (method : string) (p : par) (M : tensor R) :
  times_used (snd (ensure method p M)) = [].
Proof.
  unfold ensure_eigendecomposition.
  destruct (_ && _); [destruct (compute_eigendecomposition M)|]; reflexivity.
Qed.

(** The object after a call, whatever the call does next. *)
Lemma state_after_forward self x L Lc method normalise :
  state_after (fwd self x L Lc method normalise)
  = {| diffusion_time := clamp_min (diffusion_time self) eps |}.
Proof.
  unfold forward, state_after. destruct Lc as [Lc|].
  - destruct (ensure_eigendecomposition _ _ _ _) as [p log].
    destruct (check_dimension x Lc); reflexivity.
  - destruct (ensure_eigendecomposition _ _ _ _) as [p log].
    destruct (bind _ _); reflexivity.
Qed.

(** The log of a call: the eigendecomposition step, then the diffusion
    calls. *)
Lemma log_of_forward self x L Lc method normalise :
  exists rest,
    log_of (fwd self x L Lc method normalise)
    = snd (ensure method {[ (match Lc with Some _ => "Lc" | None => "L" end)
                            := (match Lc with Some _ => Lc | None => Some L end) ]}
             (laplacian_used L Lc)) ++ rest /\
    eig_calls rest = 0 /\
    times_used rest = repeat (clamp_min (diffusion_time self) eps) (length rest) /\
    Forall (fun c => par_of c
                     = Some (fst (ensure method
                                    {[ (match Lc with Some _ => "Lc" | None => "L" end)
                                       := (match Lc with Some _ => Lc | None => Some L end) ]}
                                    (laplacian_used L Lc)))) rest.
Proof.
  unfold forward, log_of. destruct Lc as [Lc|]; cbn [laplacian_used].
  - destruct (ensure_eigendecomposition _ _ _ _) as [p log]. cbn [fst snd].
    destruct (check_dimension x Lc).
    + eexists. split; [reflexivity|]. repeat split; repeat constructor.
    + exists []. rewrite app_nil_r. repeat split; constructor.
  - destruct (ensure_eigendecomposition _ _ _ _) as [p log]. cbn [fst snd].
    destruct (bind _ _) as [cols|e].
    + eexists. split; [reflexivity|]. split; [|split].
      * apply eig_calls_scalar. intros c. eauto.
      * rewrite times_used_scalar, length_map. reflexivity.
      * apply Forall_map, Forall_forall. intros c _. reflexivity.
    + exists []. rewrite app_nil_r. repeat split; constructor.
Qed.

Lemma eig_calls_forward self x L Lc method normalise :
  eig_calls (log_of (fwd self x L Lc method normalise))
  = if String.eqb method "spectral" then 1 else 0.
Proof.
  destruct (log_of_forward self x L Lc method normalise) as (rest & -> & Hr & _).
  rewrite eig_calls_app, Hr, Nat.add_0_r.
  apply ensure_eig_calls. destruct Lc; discriminate.
Qed.

Lemma forward_twice_logs self x1 x2 L Lc method normalise :
  first_log (forward_twice compute_eigendecomposition vector_diffusion scalar_diffusion
               self x1 x2 L Lc method normalise)
  = log_of (fwd self x1 L Lc method normalise) /\
  second_log (forward_twice compute_eigendecomposition vector_diffusion scalar_diffusion
                self x1 x2 L Lc method normalise)
  = log_of (fwd (state_after (fwd self x1 L Lc method normalise)) x2 L Lc method normalise).
Proof.
  unfold forward_twice, first_log, second_log, log_of, state_after.
  destruct (fwd self x1 L Lc method normalise) as [[self1 log1] out1]. cbn [fst snd].
  destruct (fwd self1 x2 L Lc method normalise) as [[self2 log2] out2]. split; reflexivity.
Qed.

Local Abbreviation fwd2 :=
  (forward_twice compute_eigendecomposition vector_diffusion scalar_diffusion).

(** Every diffusion call of a spectral call is handed the decomposition
    computed in that same call. *)
Lemma spectral_pars self x L Lc normalise :
  Forall (fun c => forall p, par_of c = Some p ->
            p !! "evals" = Some (Some (fst (compute_eigendecomposition (laplacian_used L Lc)))) /\
            p !! "evecs" = Some (Some (snd (compute_eigendecomposition (laplacian_used L Lc)))))
         (log_of (fwd self x L Lc "spectral" normalise)).
Proof.
  destruct (log_of_forward self x L Lc "spectral" normalise) as (rest & -> & _ & _ & Hp).
  rewrite ensure_fresh in * by (destruct Lc; discriminate). cbn [fst snd] in *.
  apply Forall_app. split.
  - constructor; [|constructor]. intros q Hq. discriminate Hq.
  - eapply List.Forall_impl; [|exact Hp]. intros c Hc q Hcq. cbv beta in Hc.
    rewrite Hc in Hcq. injection Hcq as <-.
    split; [rewrite lookup_insert_ne by discriminate|]; apply lookup_insert_eq.
Qed.

(** C1 (amended).  The decomposition lives in a dictionary built afresh by
    every call: each spectral call computes it exactly once, whatever the
    operator did before, and hands it to all diffusion calls it makes; of
    two spectral calls on the same operator and Laplacians both compute it,
    and a call with another method computes none. *)
Theorem eigendecomposition_once_per_call self x1 x2 L Lc method normalise :
  eig_calls (first_log (fwd2 self x1 x2 L Lc method normalise))
  = (if String.eqb method "spectral" then 1 else 0) /\
  eig_calls (second_log (fwd2 self x1 x2 L Lc method normalise))
  = (if String.eqb method "spectral" then 1 else 0) /\
  Forall (fun c => forall p, par_of c = Some p ->
            p !! "evals" = Some (Some (fst (compute_eigendecomposition (laplacian_used L Lc)))) /\
            p !! "evecs" = Some (Some (snd (compute_eigendecomposition (laplacian_used L Lc)))))
         (first_log (fwd2 self x1 x2 L Lc "spectral" normalise)
          ++ second_log (fwd2 self x1 x2 L Lc "spectral" normalise)).
Proof.
  destruct (forward_twice_logs self x1 x2 L Lc method normalise) as [-> ->].
  destruct (forward_twice_logs self x1 x2 L Lc "spectral" normalise) as [-> ->].
  rewrite !eig_calls_forward. repeat split.
  apply Forall_app. split; apply spectral_pars.
Qed.

(** C6 (amended).  The clamp is the first effect of every call, and the
    call hands the stored value to the library, whatever its method and
    however it ends.  The floor is the binary32 number 11258999 * 2^-50,
    what [1e-8] becomes in the dtype of the parameter.  When the stored
    time is a number (not a NaN), the object holds after the call a number
    that is at least the floor and strictly positive: the floor itself when
    the time was below it, the time unchanged otherwise; a NaN stays a NaN.
    Every diffusion time handed to the library in the call is the value
    the object holds after it. *)
Theorem forward_clamps_diffusion_time self x L Lc method normalise :
  diffusion_time (state_after (fwd self x L Lc method normalise))
  = clamp_min (diffusion_time self) eps /\
  eps = S754_finite false 11258999 (-50) /\
  (is_nan (diffusion_time self) = false ->
   is_nan (diffusion_time (state_after (fwd self x L Lc method normalise))) = false /\
   SFleb eps (diffusion_time (state_after (fwd self x L Lc method normalise))) = true /\
   SFltb zero (diffusion_time (state_after (fwd self x L Lc method normalise))) = true /\
   diffusion_time (state_after (fwd self x L Lc method normalise))
   = (if SFltb (diffusion_time self) eps then eps else diffusion_time self)) /\
  (is_nan (diffusion_time self) = true ->
   diffusion_time (state_after (fwd self x L Lc method normalise)) = S754_nan) /\
  Forall (fun t => t = diffusion_time (state_after (fwd self x L Lc method normalise)))
         (times_used (log_of (fwd self x L Lc method normalise))).
Proof.
  rewrite state_after_forward. cbn [diffusion_time].
  split; [reflexivity|]. split; [exact eps_value|]. split; [|split].
  - intros Hx. destruct (clamp_min_eps_spec (diffusion_time self) Hx) as (H1 & H2 & H3).
    repeat split; try assumption. apply clamp_min_number, Hx.
  - intros Hx. destruct (diffusion_time self); try discriminate Hx. reflexivity.
  - destruct (log_of_forward self x L Lc method normalise) as (rest & -> & _ & Ht & _).
    rewrite times_used_app, ensure_times, Ht. cbn [app].
    apply List.Forall_forall. intros t Hin. apply repeat_spec in Hin. exact Hin.
Qed.

Lemma check_dimension_spec (x Lc : tensor R) (V K rows : nat) (rest : list nat) :
  shape x = [V; K] -> shape Lc = rows :: rest -> 0 < rows ->
  check_dimension x Lc
  = if (V * K) mod rows =? 0 then Ok tt else Raise (AssertionError dimension_message).
Proof.
  intros Hx HLc Hrows. unfold check_dimension, shape_at, modulo_nat.
  rewrite Hx, HLc. cbn [lookup list_lookup bind].
  destruct (Nat.eqb_spec rows 0) as [?|_]; [lia|]. reflexivity.
Qed.

(** C2.  For a signal of shape [V x K] and a connection Laplacian with at
    least one row, the call raises the dimension assertion exactly when
    [(V*K) mod rows(Lc)] is not 0; otherwise it hands the signal to vector
    diffusion and returns what that returns. *)
Theorem vector_diffusion_dimension_check self x L Lc method normalise
    (V K rows : nat) (rest : list nat) :
  shape x = [V; K] -> shape Lc = rows :: rest -> 0 < rows ->
  (result_of (fwd self x L (Some Lc) method normalise)
   = Raise (AssertionError dimension_message) <-> (V * K) mod rows <> 0) /\
  ((V * K) mod rows = 0 ->
   exists p,
     result_of (fwd self x L (Some Lc) method normalise)
     = Ok (vector_diffusion x (clamp_min (diffusion_time self) eps) method p) /\
     In (vector_diffusion_call x (clamp_min (diffusion_time self) eps) method p)
        (log_of (fwd self x L (Some Lc) method normalise))).
Proof.
  intros Hx HLc Hrows. unfold forward, result_of, log_of.
  destruct (ensure_eigendecomposition _ _ _ _) as [p log].
  rewrite (check_dimension_spec x Lc V K rows rest Hx HLc Hrows).
  destruct (Nat.eqb_spec ((V * K) mod rows) 0) as [Hz|Hz]; cbn [fst snd diffusion_time].
  - split.
    + split; [discriminate | intros Hne; contradiction].
    + intros _. exists p. split; [reflexivity|]. apply in_or_app. right. left. reflexivity.
  - split.
    + split; [intros _; exact Hz | reflexivity].
    + intros Hz'. contradiction.
Qed.

End WithLibrary.

(** C1, counterexample.  Two spectral calls in a row on one operator with
    the same Laplacian: the second call computes the eigendecomposition of
    that Laplacian again. *)
Lemma second_spectral_call_recomputes :
  In (compute_eigendecomposition_call Samples.L_1x1)
     (second_log (forward_twice Samples.eig_id Samples.diffusion_id Samples.diffusion_id
                    (init zero) Samples.x_1x1 Samples.x_1x1 Samples.L_1x1 None
                    "spectral" false)) /\
  eig_calls (second_log (forward_twice Samples.eig_id Samples.diffusion_id Samples.diffusion_id
                           (init zero) Samples.x_1x1 Samples.x_1x1 Samples.L_1x1 None
                           "spectral" false)) = 1.
Proof.
  destruct (forward_twice_logs Samples.eig_id Samples.diffusion_id Samples.diffusion_id
              (init zero) Samples.x_1x1 Samples.x_1x1 Samples.L_1x1 None "spectral" false)
    as [_ ->].
  split.
  - destruct (log_of_forward Samples.eig_id Samples.diffusion_id Samples.diffusion_id
                (state_after (forward Samples.eig_id Samples.diffusion_id Samples.diffusion_id
                                (init zero) Samples.x_1x1 Samples.L_1x1 None "spectral" false))
                Samples.x_1x1 Samples.L_1x1 None "spectral" false) as (rest & -> & _).
    rewrite ensure_fresh by discriminate. left. reflexivity.
  - apply eig_calls_forward.
Qed.

(** C6, counterexample.  An operator whose time has become a NaN keeps it:
    after a call the stored time is still a NaN, which is neither at least
    the floor nor positive, and it is the time handed to the diffusion.
    And for a time of 0 the call stores the floor, whose value
    11258999 / 2^50 is below 1e-8. *)
Lemma forward_keeps_nan_and_floor_below_1e_8 :
  (diffusion_time
     (state_after (forward Samples.eig_id Samples.diffusion_id Samples.diffusion_id
                     (init S754_nan) Samples.x_6x2 Samples.L_1x1 (Some Samples.Lc_4x4)
                     "spectral" false)) = S754_nan /\
   SFleb eps S754_nan = false /\ SFltb zero S754_nan = false /\
   times_used
     (log_of (forward Samples.eig_id Samples.diffusion_id Samples.diffusion_id
                (init S754_nan) Samples.x_6x2 Samples.L_1x1 (Some Samples.Lc_4x4)
                "spectral" false)) = [S754_nan]) /\
  (diffusion_time
     (state_after (forward Samples.eig_id Samples.diffusion_id Samples.diffusion_id
                     (init zero) Samples.x_6x2 Samples.L_1x1 (Some Samples.Lc_4x4)
                     "spectral" false)) = S754_finite false 11258999 (-50) /\
   (value (S754_finite false 11258999 (-50)) == 11258999 # 1125899906842624)%Q /\
   (value (S754_finite false 11258999 (-50)) < 1 # 100000000)%Q).
Proof.
  split.
  - split; [rewrite state_after_forward; reflexivity|].
    split; [reflexivity|]. split; [reflexivity|].
    unfold forward, log_of.
    destruct (ensure_eigendecomposition _ _ _ _) as [q log] eqn:He.
    rewrite (check_dimension_spec Samples.x_6x2 Samples.Lc_4x4 6 2 4 [4])
      by (reflexivity || lia).
    change ((6 * 2) mod 4 =? 0) with true. cbn [fst snd diffusion_time init].
    rewrite times_used_app.
    pose proof (ensure_times Samples.eig_id "spectral" {[ "Lc" := Some Samples.Lc_4x4 ]}
                  Samples.Lc_4x4) as Het.
    rewrite He in Het. cbn [snd] in Het. rewrite Het. reflexivity.
  - split; [rewrite state_after_forward; cbn [diffusion_time init];
            rewrite <- eps_value; reflexivity|].
    split; reflexivity.
Qed.

(** C2, at a concrete input: a signal of shape 5x3 with a connection
    Laplacian of shape 7x7 fails the assertion, since 15 mod 7 = 1. *)
Lemma vector_diffusion_5x3_7x7_fails :
  (shape Samples.x_5x3 = [5; 3] /\ shape Samples.Lc_7x7 = [7; 7] /\ 0 < 7) /\
  result_of (forward Samples.eig_id Samples.diffusion_id Samples.diffusion_id
               (init zero) Samples.x_5x3 Samples.L_1x1 (Some Samples.Lc_7x7) "spectral" false)
  = Raise (AssertionError dimension_message).
Proof.
  split; [repeat split; lia|].
  apply (proj2 (proj1 (vector_diffusion_dimension_check
                         Samples.eig_id Samples.diffusion_id Samples.diffusion_id
                         (init zero) Samples.x_5x3 Samples.L_1x1 Samples.Lc_7x7
                         "spectral" false 5 3 7 [7] eq_refl eq_refl (Nat.lt_0_succ 6)))).
  cbn. discriminate.
Defined.

(** A signal of shape 6x2 with a connection Laplacian of shape 4x4 passes
    the check, since 12 mod 4 = 0, and is handed to vector diffusion. *)
Example vector_diffusion_6x2_4x4_proceeds :
  result_of (forward Samples.eig_id Samples.diffusion_id Samples.diffusion_id
               (init zero) Samples.x_6x2 Samples.L_1x1 (Some Samples.Lc_4x4) "spectral" false)
  = Ok Samples.x_6x2.
Proof.
  unfold forward, result_of.
  destruct (ensure_eigendecomposition _ _ _ _) as [p log].
  rewrite (check_dimension_spec Samples.x_6x2 Samples.Lc_4x4 6 2 4 [4])
    by (reflexivity || lia).
  reflexivity.
Qed.

(** A connection Laplacian without rows: the remainder itself raises. *)
Example check_dimension_no_rows :
  check_dimension Samples.x_6x2 Samples.Lc_0x0 = Raise ZeroDivisionError.
Proof. reflexivity. Qed.

End DiffusionFacts.

(** ** Tensors *)

Module TorchFacts.
Import Py Torch PyFacts.

(** *** Lists laid out in rows of one length *)

Lemma length_flat_map_seq {B : Type} (g : nat -> list B) (s n m : nat) :
  (forall j, s <= j < s + n -> length (g j) = m) ->
  length (flat_map g (seq s n)) = n * m.
Proof.
  revert s. induction n as [|n IH]; intros s Hg; [reflexivity|].
  cbn [seq flat_map]. rewrite length_app, Hg by lia.
  rewrite IH by (intros j Hj; apply Hg; lia). lia.
Qed.

Lemma nth_flat_map_seq {B : Type} (g : nat -> list B) (s n m i k : nat) (d : B) :
  (forall j, s <= j < s + n -> length (g j) = m) ->
  i < n -> k < m ->
  nth (i * m + k) (flat_map g (seq s n)) d = nth k (g (s + i)) d.
Proof.
  revert s i. induction n as [|n IH]; intros s i Hg Hi Hk; [lia|].
  cbn [seq flat_map]. destruct i as [|i].
  - rewrite app_nth1 by (rewrite Hg by lia; lia).
    rewrite Nat.add_0_r. reflexivity.
  - rewrite app_nth2 by (rewrite Hg by lia; lia).
    rewrite Hg by lia.
    replace (S i * m + k - m) with (i * m + k) by lia.
    rewrite IH by (try lia; intros j Hj; apply Hg; lia).
    replace (S s + i) with (s + S i) by lia. reflexivity.
Qed.

Lemma flat_map_ext_seq {B : Type} (g h : nat -> list B) (s n : nat) :
  (forall j, s <= j < s + n -> g j = h j) ->
  flat_map g (seq s n) = flat_map h (seq s n).
Proof.
  revert s. induction n as [|n IH]; intros s Hg; [reflexivity|].
  cbn [seq flat_map]. rewrite Hg by lia. f_equal. apply IH. intros j Hj. apply Hg. lia.
Qed.

(** Cutting a list into its rows and gluing them back. *)
Lemma rows_concat {B : Type} (l : list B) (w p s : nat) :
  length l = (s + p) * w ->
  flat_map (fun q => firstn w (skipn (q * w) l)) (seq s p) = skipn (s * w) l.
Proof.
  revert s. induction p as [|p IH]; intros s Hl.
  - cbn [seq flat_map]. rewrite skipn_all2 by lia. reflexivity.
  - cbn [seq flat_map]. rewrite IH by lia.
    replace (S s * w) with (w + s * w) by lia.
    rewrite <- skipn_skipn. apply firstn_skipn.
Qed.

(** *** Tabulated tensors *)

Lemma length_tabulate_data {A : Type} (sh : list nat) (f : list nat -> A) :
  length (tabulate_data sh f) = numel_of sh.
Proof.
  revert f. induction sh as [|d sh IH]; intros f; [reflexivity|].
  cbn [tabulate_data numel_of fold_right].
  apply length_flat_map_seq. intros j _. apply IH.
Qed.

Lemma wf_tabulate {A : Type} (sh : list nat) (f : list nat -> A) : wf (tabulate sh f).
Proof. apply length_tabulate_data. Qed.

Lemma offset_lt (sh idx : list nat) : inb idx sh -> offset sh idx < numel_of sh.
Proof.
  intros Hin. induction Hin as [|i d idx sh Hi Hin IH]; [simpl; lia|].
  cbn [offset numel_of fold_right]. fold (numel_of sh). nia.
Qed.

Lemma nth_tabulate_data {A : Type} (sh idx : list nat) (f : list nat -> A) (d : A) :
  inb idx sh -> nth (offset sh idx) (tabulate_data sh f) d = f idx.
Proof.
  intros Hin. revert f. induction Hin as [|i n idx sh Hi Hin IH]; intros f; [reflexivity|].
  cbn [offset tabulate_data].
  rewrite (nth_flat_map_seq _ 0 n (numel_of sh) i (offset sh idx) d).
  - apply (IH (fun idx' => f (i :: idx'))).
  - intros j _. apply length_tabulate_data.
  - exact Hi.
  - apply offset_lt. exact Hin.
Qed.

Lemma get_tabulate {A : Type} `{Scalar A} (sh idx : list nat) (f : list nat -> A) :
  inb idx sh -> get (tabulate sh f) idx = f idx.
Proof. intros Hin. unfold get, tabulate. cbn [shape data]. apply nth_tabulate_data, Hin. Qed.

Lemma inb2 (i j r c : nat) : i < r -> j < c -> inb [i; j] [r; c].
Proof. intros. repeat constructor; assumption. Qed.

Lemma inb3 (i j k a b c : nat) : i < a -> j < b -> k < c -> inb [i; j; k] [a; b; c].
Proof. intros. repeat constructor; assumption. Qed.

(** Tensors with the same shape and the same entries are equal. *)
Lemma tabulate_data_ext {A : Type} (sh : list nat) (f g : list nat -> A) :
  (forall idx, inb idx sh -> f idx = g idx) -> tabulate_data sh f = tabulate_data sh g.
Proof.
  revert f g. induction sh as [|d sh IH]; intros f g Hfg.
  - cbn. f_equal. apply Hfg. constructor.
  - cbn [tabulate_data]. apply flat_map_ext_seq. intros j Hj. apply IH.
    intros idx Hidx. apply Hfg. constructor; [lia | exact Hidx].
Qed.

(** *** Sums *)

Section Sums.
Context {A : Type} `{Scalar A}.

Lemma sum_n_ext (n : nat) (f g : nat -> A) :
  (forall i, i < n -> f i = g i) -> sum_n n f = sum_n n g.
Proof.
  intros Hfg. unfold sum_n. f_equal. apply map_ext_in.
  intros i Hi. apply in_seq in Hi. apply Hfg. lia.
Qed.

End Sums.

Lemma sum_n_S (n : nat) (f : nat -> R) : sum_n (S n) f = (sum_n n f + f n)%R.
Proof.
  unfold sum_n. rewrite seq_S, map_app, fold_right_app. cbn [map fold_right Nat.add].
  cbn [sadd szero Scalar_R]. generalize (map f (seq 0 n)) as l.
  induction l as [|a l IH]; cbn [fold_right]; [lra|].
  rewrite IH. lra.
Qed.

Lemma sum_n_0 (f : nat -> R) : sum_n 0 f = 0%R.
Proof. reflexivity. Qed.

Lemma sum_n_plus (n : nat) (f g : nat -> R) :
  sum_n n (fun i => (f i + g i)%R) = (sum_n n f + sum_n n g)%R.
Proof.
  induction n as [|n IH]; [rewrite !sum_n_0; lra|].
  rewrite !sum_n_S, IH. lra.
Qed.

Lemma sum_n_scale (n : nat) (c : R) (f : nat -> R) :
  sum_n n (fun i => (c * f i)%R) = (c * sum_n n f)%R.
Proof.
  induction n as [|n IH]; [rewrite !sum_n_0; lra|].
  rewrite !sum_n_S, IH. lra.
Qed.

Lemma sum_n_zero (n : nat) : sum_n n (fun _ => 0%R) = 0%R.
Proof. induction n as [|n IH]; [reflexivity|]. rewrite sum_n_S, IH. lra. Qed.

Lemma sum_n_swap (n m : nat) (f : nat -> nat -> R) :
  sum_n n (fun i => sum_n m (fun j => f i j)) = sum_n m (fun j => sum_n n (fun i => f i j)).
Proof.
  induction n as [|n IH].
  - rewrite sum_n_0. symmetry. apply sum_n_zero.
  - rewrite sum_n_S, IH, <- sum_n_plus. apply sum_n_ext. intros j _.
    rewrite sum_n_S. reflexivity.
Qed.

(** A sum against the indicator of one index picks that term. *)
Lemma sum_n_delta (n a : nat) (f : nat -> R) :
  a < n ->
  sum_n n (fun b => (f b * (if a =? b then 1 else 0))%R) = f a.
Proof.
  intros Ha. induction n as [|n IH]; [lia|].
  rewrite sum_n_S. destruct (Nat.eqb_spec a n) as [->|Hne].
  - rewrite (sum_n_ext n _ (fun _ => 0%R)).
    + rewrite sum_n_zero. lra.
    + intros b Hb. destruct (Nat.eqb_spec n b); [lia | lra].
  - rewrite IH by lia. lra.
Qed.

Lemma sum_n_nonneg (n : nat) (f : nat -> R) :
  (forall i, i < n -> (0 <= f i)%R) -> (0 <= sum_n n f)%R.
Proof.
  intros Hf. induction n as [|n IH]; [rewrite sum_n_0; lra|].
  rewrite sum_n_S. pose proof (Hf n (Nat.lt_succ_diag_r n)) as Hn.
  assert (0 <= sum_n n f)%R by (apply IH; intros i Hi; apply Hf; lia). lra.
Qed.

(** *** Shapes *)

Lemma infer_shape_rows (n c : nat) :
  0 < c -> infer_shape (n * c) [Infer; Dim c] = Ok [n; c].
Proof.
  intros Hc. unfold infer_shape. cbn.
  destruct (Nat.eqb_spec (c * 1) 0) as [?|_]; [lia|].
  replace (c * 1) with c by lia.
  rewrite Nat.Div0.mod_mul, Nat.div_mul by lia. reflexivity.
Qed.

Lemma infer_shape_cols (r n : nat) :
  0 < r -> infer_shape (r * n) [Dim r; Infer] = Ok [r; n].
Proof.
  intros Hr. unfold infer_shape. cbn.
  destruct (Nat.eqb_spec (r * 1) 0) as [?|_]; [lia|].
  replace (r * 1) with r by lia. rewrite (Nat.mul_comm r n).
  rewrite Nat.Div0.mod_mul, Nat.div_mul by lia. reflexivity.
Qed.

Lemma infer_shape_3 (v d n : nat) :
  0 < v -> 0 < d -> infer_shape (v * (d * n)) [Dim v; Dim d; Infer] = Ok [v; d; n].
Proof.
  intros Hv Hd. unfold infer_shape. cbn.
  destruct (Nat.eqb_spec (v * (d * 1)) 0) as [?|_]; [nia|].
  replace (v * (d * 1)) with (v * d) by lia.
  replace (v * (d * n)) with (n * (v * d)) by lia.
  rewrite Nat.Div0.mod_mul, Nat.div_mul by nia. reflexivity.
Qed.

Lemma view_rows_inv {A : Type} (y out : tensor A) (c : nat) :
  view y [Infer; Dim c] = Ok out ->
  0 < c /\ shape out = [numel y / c; c] /\ data out = data y.
Proof.
  unfold view, infer_shape. cbn.
  replace (c * 1) with c by lia.
  destruct (Nat.eqb_spec c 0) as [?|Hc]; [discriminate|].
  destruct (numel y mod c =? 0); [|discriminate].
  cbn. intros [= <-]. cbn. repeat split. lia.
Qed.

Lemma view_cols_inv {A : Type} (y out : tensor A) (r : nat) :
  view y [Dim r; Infer] = Ok out ->
  0 < r /\ shape out = [r; numel y / r] /\ data out = data y.
Proof.
  unfold view, infer_shape. cbn.
  replace (r * 1) with r by lia.
  destruct (Nat.eqb_spec r 0) as [?|Hr]; [discriminate|].
  destruct (numel y mod r =? 0); [|discriminate].
  cbn. intros [= <-]. cbn. repeat split. lia.
Qed.

Lemma all_shape_In {A : Type} `{Scalar A} (sh : list nat) (ts : list (tensor A)) :
  all_shape sh ts = true <-> (forall t, In t ts -> shape t = sh).
Proof.
  unfold all_shape. rewrite forallb_forall. split; intros Hs t Ht.
  - specialize (Hs t Ht). apply bool_decide_eq_true in Hs. exact Hs.
  - apply bool_decide_eq_true. apply Hs, Ht.
Qed.

(** What [stack_last] returns when it returns. *)
Lemma stack_last_inv {A : Type} `{Scalar A} (ts : list (tensor A)) (out d : tensor A) :
  stack_last ts = Ok out ->
  exists r c,
    (forall t, In t ts -> shape t = [r; c]) /\
    shape out = [r; c; length ts] /\
    (forall i j l, i < r -> j < c -> l < length ts ->
       get out [i; j; l] = get (nth l ts d) [i; j]).
Proof.
  unfold stack_last. destruct ts as [|t0 ts']; [discriminate|].
  destruct (shape t0) as [|r [|c [|? ?]]] eqn:Hs; try discriminate.
  destruct (all_shape [r; c] (t0 :: ts')) eqn:Hall; [|discriminate].
  intros Heq.
  assert (Hout : out = tabulate [r; c; length (t0 :: ts')]
                         (fun idx => get (nth (ix 2 idx) (t0 :: ts') t0) [ix 0 idx; ix 1 idx]))
    by congruence.
  rewrite Hout. clear Heq Hout.
  exists r, c. split; [apply all_shape_In, Hall|]. split; [reflexivity|].
  intros i j l Hi Hj Hl. rewrite get_tabulate by (apply inb3; assumption).
  change (ix 2 [i; j; l]) with l. change (ix 0 [i; j; l]) with i.
  change (ix 1 [i; j; l]) with j. f_equal. apply nth_indep. exact Hl.
Qed.

Lemma stack_last_Ok {A : Type} `{Scalar A} (ts : list (tensor A)) (r c : nat) :
  ts <> [] -> (forall t, In t ts -> shape t = [r; c]) ->
  exists out, stack_last ts = Ok out.
Proof.
  intros Hne Hs. unfold stack_last. destruct ts as [|t0 ts']; [contradiction|].
  rewrite (Hs t0 (or_introl eq_refl)).
  rewrite (proj2 (all_shape_In [r; c] (t0 :: ts')) Hs). eauto.
Qed.

Lemma view_cols_Ok {A : Type} (t : tensor A) (r n : nat) :
  0 < r -> numel t = r * n ->
  view t [Dim r; Infer] = Ok (Tensor [r; n] (data t)).
Proof.
  intros Hr Hn. unfold view. rewrite Hn, infer_shape_cols by exact Hr. reflexivity.
Qed.

Lemma view_rows_Ok {A : Type} (t : tensor A) (n c : nat) :
  0 < c -> numel t = n * c ->
  view t [Infer; Dim c] = Ok (Tensor [n; c] (data t)).
Proof.
  intros Hc Hn. unfold view. rewrite Hn, infer_shape_rows by exact Hc. reflexivity.
Qed.

End TorchFacts.

(** ** [AnisoConv] *)

Module AnisoConvFacts.
Import Py Torch AnisoConv PyFacts TorchFacts.

Section WithGraph.
Context {A : Type} `{Scalar A}.
Variable EdgeIndex : Type.
Variable Kernels : Type.
Variable to_list : Kernels -> list (tensor A).
Variable to_SparseTensor : EdgeIndex -> nat * nat -> tensor A -> tensor A.
Variable to_dense_adj : EdgeIndex -> tensor A.
Variable dense_to_sparse : tensor A -> EdgeIndex.
Variable sparse_matmul : tensor A -> tensor A -> string -> result (tensor A).

Local Abbreviation message_and_aggregate' := (message_and_aggregate sparse_matmul).
Local Abbreviation apply_kernel' := (apply_kernel EdgeIndex to_SparseTensor sparse_matmul).
Local Abbreviation forward' :=
  (forward EdgeIndex Kernels to_list to_SparseTensor to_dense_adj dense_to_sparse
     sparse_matmul).
Local Abbreviation expand' :=
  (expand_adjacenecy_matrix EdgeIndex to_dense_adj dense_to_sparse).
Local Abbreviation product_on_matching_sizes' := (product_on_matching_sizes sparse_matmul).

Lemma message_and_aggregate_branches self (K_t x : tensor A) (n dim rows cols : nat) :
  shape x = [n; dim] -> shape K_t = [rows; cols] -> 0 < n -> 0 < dim ->
  (cols mod n = 0 ->
   message_and_aggregate' self K_t x
   = (let* n_ch := floordiv_nat (n * dim) cols in
      let* x' := view x [Infer; Dim n_ch] in
      let* y := sparse_matmul K_t x' (aggr self) in
      view y [Infer; Dim dim])) /\
  (cols mod n <> 0 ->
   message_and_aggregate' self K_t x
   = (let* y := sparse_matmul K_t x (aggr self) in
      view y [Infer; Dim dim])).
Proof.
  intros Hx HK Hn Hdim. unfold message_and_aggregate, unpack2, shape_at, modulo_nat.
  rewrite Hx, HK. cbn [lookup list_lookup bind].
  destruct (Nat.eqb_spec n 0) as [?|_]; [lia|]. cbn [bind].
  split; intros Hm.
  - rewrite Hm. cbn [Nat.mul Nat.eqb].
    destruct (floordiv_nat (n * dim) cols); reflexivity.
  - destruct (Nat.eqb_spec (cols mod n * dim) 0) as [Hz|_]; [nia|]. reflexivity.
Qed.

(** With [cols = n * d] and [d] dividing [dim], the view groups the signal
    in rows of [dim / d] entries, one row per column of [K_t]. *)
Lemma view_groups (x : tensor A) (n dim d : nat) :
  shape x = [n; dim] -> 0 < n -> 0 < dim -> 0 < d -> dim mod d = 0 ->
  (let* n_ch := floordiv_nat (n * dim) (n * d) in view x [Infer; Dim n_ch])
  = Ok (Tensor [n * d; dim / d] (data x)).
Proof.
  intros Hx Hn Hdim Hd Hm. unfold floordiv_nat.
  destruct (Nat.eqb_spec (n * d) 0) as [?|_]; [nia|]. cbn [bind].
  rewrite Nat.Div0.div_mul_cancel_l by lia.
  apply Nat.Div0.div_exact in Hm.
  assert (0 < dim / d) by (destruct (dim / d); [lia | lia]).
  apply view_rows_Ok; [assumption|]. unfold numel. rewrite Hx. cbn [numel_of fold_right].
  rewrite Hm at 1. lia.
Qed.

(** A kernel with as many columns as the signal has rows: the view leaves
    the signal as it is, and the result is the plain product. *)
Lemma message_and_aggregate_plain self (K_t x : tensor A) (n dim rows : nat) :
  shape x = [n; dim] -> shape K_t = [rows; n] -> 0 < n -> 0 < dim ->
  message_and_aggregate' self K_t x
  = (let* y := sparse_matmul K_t x (aggr self) in
     view y [Infer; Dim dim]).
Proof.
  intros Hx HK Hn Hdim.
  rewrite (proj1 (message_and_aggregate_branches self K_t x n dim rows n Hx HK Hn Hdim))
    by apply Nat.Div0.mod_same.
  unfold floordiv_nat. destruct (Nat.eqb_spec n 0) as [?|_]; [lia|]. cbn [bind].
  rewrite (Nat.mul_comm n dim), Nat.div_mul by lia.
  rewrite (view_rows_Ok x n dim) by (try assumption; unfold numel; rewrite Hx; cbn; lia).
  cbn [bind]. destruct x as [sh dt]. cbn [shape data] in *. subst sh. reflexivity.
Qed.

(** C4.  For a signal with [n >= 1] rows and [dim >= 1] columns and any
    product of the sparse-tensor library, the guard
    [(cols % n * dim) == 0] holds exactly when the column count of [K_t] is
    a multiple of [n]: then the signal is viewed in rows of
    [n_ch = n*dim // cols] entries, and [K_t] is multiplied with that view;
    otherwise [K_t] is multiplied with the signal as it is, whatever the
    library makes of the sizes.  When the column count is [n * d] with [d]
    dividing [dim], the view has one row per column of [K_t] and [dim / d]
    columns.  In every case the product is viewed in rows of [dim]
    entries. *)
Theorem message_and_aggregate_reshape_guard self (K_t x : tensor A) (n dim rows cols : nat) :
  shape x = [n; dim] -> shape K_t = [rows; cols] -> 0 < n -> 0 < dim ->
  (cols mod n = 0 ->
   message_and_aggregate' self K_t x
   = (let* n_ch := floordiv_nat (n * dim) cols in
      let* x' := view x [Infer; Dim n_ch] in
      let* y := sparse_matmul K_t x' (aggr self) in
      view y [Infer; Dim dim])) /\
  (cols mod n <> 0 ->
   message_and_aggregate' self K_t x
   = (let* y := sparse_matmul K_t x (aggr self) in
      view y [Infer; Dim dim])) /\
  (forall d, cols = n * d -> 0 < d -> dim mod d = 0 ->
   message_and_aggregate' self K_t x
   = (let* y := sparse_matmul K_t (Tensor [cols; dim / d] (data x)) (aggr self) in
      view y [Infer; Dim dim])).
Proof.
  intros Hx HK Hn Hdim.
  destruct (message_and_aggregate_branches self K_t x n dim rows cols Hx HK Hn Hdim)
    as [H1 H2].
  split; [exact H1|]. split; [exact H2|].
  intros d -> Hd Hm. rewrite H1 by (rewrite Nat.mul_comm; apply Nat.Div0.mod_mul).
  pose proof (view_groups x n dim d Hx Hn Hdim Hd Hm) as Hv.
  destruct (floordiv_nat (n * dim) (n * d)) as [n_ch|e]; cbn [bind] in *; [|discriminate].
  rewrite Hv. reflexivity.
Qed.

(** The aggregate of one kernel has as many columns as the signal. *)
Lemma message_and_aggregate_shape self (K_t x out : tensor A) (n ch : nat) :
  shape x = [n; ch] -> message_and_aggregate' self K_t x = Ok out ->
  0 < ch /\ exists r, shape out = [r; ch].
Proof.
  intros Hx. unfold message_and_aggregate, unpack2. rewrite Hx. cbn [bind].
  intros Hout.
  apply bind_Ok_inv in Hout as (cols & _ & Hout).
  apply bind_Ok_inv in Hout as (m & _ & Hout).
  apply bind_Ok_inv in Hout as (x' & _ & Hout).
  apply bind_Ok_inv in Hout as (y & _ & Hout).
  apply view_rows_inv in Hout as (Hc & Hs & _). split; [exact Hc | eauto].
Qed.

Lemma apply_kernel_shape self x e size Rb K out (n ch : nat) :
  shape x = [n; ch] -> apply_kernel' self x e size Rb K = Ok out ->
  0 < ch /\ exists r, shape out = [r; ch].
Proof.
  intros Hx. unfold apply_kernel, propagate. intros Hout.
  apply bind_Ok_inv in Hout as (K' & _ & Hout).
  apply bind_Ok_inv in Hout as (Kt & _ & Hout).
  apply bind_Ok_inv in Hout as (Kst & _ & Hout).
  eapply message_and_aggregate_shape; eauto.
Qed.

(** [forward] runs the loop over the kernels, stacks and flattens. *)
Lemma forward_inv self x e size kernels Rot out :
  forward' self x e size kernels Rot = Ok out ->
  exists e' size' Rb outs stacked rows,
    mapM (apply_kernel' self x e' size' Rb) (to_list kernels) = Ok outs /\
    stack_last outs = Ok stacked /\
    shape_at stacked 0 = Ok rows /\
    view stacked [Dim rows; Infer] = Ok out.
Proof.
  unfold forward. intros Hout.
  apply bind_Ok_inv in Hout as ([[Rb size'] e'] & _ & Hout).
  apply bind_Ok_inv in Hout as (outs & Houts & Hout).
  apply bind_Ok_inv in Hout as (stacked & Hst & Hout).
  apply bind_Ok_inv in Hout as (rows & Hrows & Hout).
  exists e', size', Rb, outs, stacked, rows. auto.
Qed.

(** Flattening a stack along its last two axes interleaves the kernels. *)
Lemma flatten_stacked (stacked out : tensor A) (r c k : nat) :
  shape stacked = [r; c; k] -> view stacked [Dim r; Infer] = Ok out ->
  0 < r /\ shape out = [r; k * c] /\
  forall i j l, get out [i; j * k + l] = get stacked [i; j; l].
Proof.
  intros Hs Hv. apply view_cols_inv in Hv as (Hr & Hso & Hd).
  unfold numel in Hso. rewrite Hs in Hso. cbn [numel_of fold_right] in Hso.
  replace (r * (c * (k * 1)) / r) with (k * c) in Hso
    by (replace (r * (c * (k * 1))) with (k * c * r) by lia; rewrite Nat.div_mul; lia).
  split; [exact Hr|]. split; [exact Hso|].
  intros i j l. unfold get. rewrite Hso, Hs, Hd. cbn [offset numel_of fold_right].
  f_equal. lia.
Qed.

(** The tail of [forward]: aggregates of one shape are stacked and
    flattened, and the flattening interleaves them. *)
Lemma stack_and_flatten (outs : list (tensor A)) (m ch : nat) (d : tensor A) :
  outs <> [] -> 0 < m -> (forall t, In t outs -> shape t = [m; ch]) ->
  exists out,
    (let* stacked := stack_last outs in
     let* rows := shape_at stacked 0 in
     view stacked [Dim rows; Infer]) = Ok out /\
    shape out = [m; length outs * ch] /\
    forall i c j, i < m -> c < ch -> j < length outs ->
      get out [i; c * length outs + j] = get (nth j outs d) [i; c].
Proof.
  intros Hne Hm Hshapes.
  destruct (stack_last_Ok outs m ch Hne Hshapes) as (stacked & Hst).
  destruct (stack_last_inv outs stacked d Hst) as (r & c & Hshapes' & Hss & Hget).
  assert (Hrc : r = m /\ c = ch).
  { destruct outs as [|o outs']; [contradiction|].
    pose proof (Hshapes o (or_introl eq_refl)) as H1.
    pose proof (Hshapes' o (or_introl eq_refl)) as H2. split; congruence. }
  destruct Hrc as [-> ->].
  exists (Tensor [m; ch * length outs] (data stacked)).
  split; [|split].
  - rewrite Hst. cbn [bind]. unfold shape_at. rewrite Hss. cbn [lookup list_lookup bind].
    apply view_cols_Ok; [exact Hm|]. unfold numel. rewrite Hss. cbn. lia.
  - cbn [shape]. f_equal. f_equal. lia.
  - intros i c j Hi Hc Hj. rewrite <- (Hget i c j) by assumption.
    unfold get. cbn [shape data]. rewrite Hss. cbn [offset numel_of fold_right].
    f_equal. lia.
Qed.

(** One kernel in the case without rotations: the aggregate has one row
    per target node and its entries are the sparse matrix product. *)
Lemma apply_kernel_scalar self x e (n m ch a b : nat) K :
  shape x = [n; ch] -> 0 < n -> 0 < ch -> shape K = [a; b] ->
  (forall e' s v, shape (to_SparseTensor e' s v) = [fst s; snd s]) ->
  product_on_matching_sizes' self ->
  exists Kt out,
    transpose K = Ok Kt /\
    apply_kernel' self x e (n, m) None K = Ok out /\
    shape out = [m; ch] /\
    forall i c, i < m -> c < ch ->
      get out [i; c]
      = sum_n n (fun l => smul (get (to_SparseTensor e (n, m) Kt) [l; i]) (get x [l; c])).
Proof.
  intros Hx Hn Hch HK Hsp Hmm.
  assert (Ht : transpose K = Ok (tabulate [b; a] (fun idx => get K [ix 1 idx; ix 0 idx])))
    by (unfold transpose; rewrite HK; reflexivity).
  eexists. eexists. split; [exact Ht|].
  unfold apply_kernel, propagate. cbn [bind]. rewrite Ht. cbn [bind].
  set (Ks := to_SparseTensor e (n, m) _).
  assert (HKs : shape Ks = [n; m]) by apply Hsp.
  unfold transpose. rewrite HKs. cbn [bind].
  set (Kst := tabulate [m; n] _).
  rewrite (message_and_aggregate_plain self Kst x n ch m Hx eq_refl Hn Hch).
  rewrite (Hmm Kst x m n ch eq_refl Hx).
  unfold matmul. rewrite Hx. cbn [shape Kst tabulate]. rewrite Nat.eqb_refl. cbn [bind].
  rewrite (view_rows_Ok _ m ch) by (unfold numel; cbn; lia).
  split; [reflexivity|]. split; [reflexivity|].
  intros i c Hi Hc.
  unfold get at 1. cbn [shape data tabulate].
  rewrite nth_tabulate_data by (apply inb2; assumption).
  change (ix 0 [i; c]) with i. change (ix 1 [i; c]) with c.
  apply sum_n_ext. intros l Hl. f_equal.
  unfold Kst. rewrite get_tabulate by (apply inb2; assumption). reflexivity.
Qed.

(** The manifold case of the aggregation.  For a kernel over [n * d]
    sources and a signal with [n] rows and [d * q] columns, row [v] of the
    result holds, at column [a * q + b], the product of row [v * d + a] of
    the kernel with the signal read as [n * d] rows of [q] entries. *)
Lemma message_and_aggregate_blocks self (K_t x : tensor A) (n d q rows : nat) :
  shape x = [n; d * q] -> shape K_t = [rows * d; n * d] ->
  0 < n -> 0 < d -> 0 < q -> 0 < rows ->
  product_on_matching_sizes' self ->
  exists out,
    message_and_aggregate' self K_t x = Ok out /\
    shape out = [rows; d * q] /\
    forall v a b, v < rows -> a < d -> b < q ->
      get out [v; a * q + b]
      = sum_n (n * d) (fun l => smul (get K_t [v * d + a; l])
                                     (get x [l / d; (l mod d) * q + b])).
Proof.
  intros Hx HK Hn Hd Hq Hrows Hmm.
  assert (Hdq : 0 < d * q) by nia.
  destruct (message_and_aggregate_branches self K_t x n (d * q) (rows * d) (n * d)
              Hx HK Hn Hdq) as [Hbranch _].
  rewrite Hbranch by (rewrite Nat.mul_comm; apply Nat.Div0.mod_mul). clear Hbranch.
  pose proof (view_groups x n (d * q) d Hx Hn Hdq Hd) as Hv.
  rewrite (Nat.mul_comm d q), Nat.Div0.mod_mul, Nat.div_mul in Hv by lia.
  specialize (Hv eq_refl). rewrite (Nat.mul_comm q d) in Hv.
  destruct (floordiv_nat (n * (d * q)) (n * d)) as [n_ch|err]; cbn [bind] in *;
    [|discriminate].
  rewrite Hv. cbn [bind].
  rewrite (Hmm K_t (Tensor [n * d; q] (data x)) (rows * d) (n * d) q HK eq_refl).
  unfold matmul. rewrite HK. cbn [shape]. rewrite Nat.eqb_refl. cbn [bind].
  rewrite (view_rows_Ok _ rows (d * q)) by (try assumption; unfold numel; cbn; lia).
  eexists. split; [reflexivity|]. split; [reflexivity|].
  intros v a b Hv' Ha Hb.
  unfold get at 1. cbn [shape data tabulate offset numel_of fold_right].
  replace (v * (d * q * 1) + ((a * q + b) * 1 + 0))
    with (offset [rows * d; q] [v * d + a; b]) by (cbn; nia).
  rewrite nth_tabulate_data by (apply inb2; nia).
  change (ix 0 [v * d + a; b]) with (v * d + a). change (ix 1 [v * d + a; b]) with b.
  apply sum_n_ext. intros l Hl. f_equal.
  unfold get. cbn [shape data]. rewrite Hx. cbn [offset numel_of fold_right].
  f_equal. pose proof (Nat.div_mod_eq l d) as Hdm. nia.
Qed.

(** The block matrix of the rotations: [R.swapaxes(1,2).reshape(n*d, n*d)]
    holds the rotation between nodes [i] and [j] in the block at rows
    [i*d ..] and columns [j*d ..]. *)
Lemma rotation_blocks (Rt : tensor A) (n d : nat) :
  shape Rt = [n; n; d; d] ->
  exists Rs Rm,
    swapaxes_1_2 Rt = Ok Rs /\
    reshape Rs [Dim (n * d); Dim (n * d)] = Ok Rm /\
    shape Rm = [n * d; n * d] /\
    forall I J, I < n * d -> J < n * d ->
      get Rm [I; J] = get Rt [I / d; J / d; I mod d; J mod d].
Proof.
  intros HR. unfold swapaxes_1_2. rewrite HR.
  eexists. eexists. split; [reflexivity|].
  unfold reshape, view, infer_shape, numel, tabulate.
  cbn [shape data count_infer List.filter length known_product fold_right numel_of
       fill_infer map].
  destruct (Nat.eqb_spec (n * d * (n * d * 1)) (n * (d * (n * (d * 1))))) as [_|Hne];
    [|exfalso; apply Hne; ring].
  cbn [bind]. split; [reflexivity|]. split; [reflexivity|].
  intros I J HI HJ.
  assert (Hd : 0 < d) by (destruct d; [lia | lia]).
  unfold get at 1. cbn [shape data offset numel_of fold_right].
  replace (I * (n * d * 1) + (J * 1 + 0))
    with (offset [n; d; n; d] [I / d; I mod d; J / d; J mod d]).
  2:{ cbn [offset numel_of fold_right].
      pose proof (Nat.div_mod_eq I d) as HId. pose proof (Nat.div_mod_eq J d) as HJd.
      nia. }
  rewrite nth_tabulate_data; [reflexivity|].
  repeat constructor.
  - apply Nat.Div0.div_lt_upper_bound. lia.
  - apply Nat.mod_upper_bound. lia.
  - apply Nat.Div0.div_lt_upper_bound. lia.
  - apply Nat.mod_upper_bound. lia.
Qed.

(** One kernel in the case with rotations.  The kernel is spread over
    [d x d] blocks and multiplied entry by entry with the block matrix of
    the rotations; the aggregate has one row per target node, and its
    column [a * q + b] is the product of row [i * d + a] of the transposed
    sparse matrix with component [a]-wise reading of channel [b]. *)
Lemma apply_kernel_rotations self x e (n m d q : nat) (Rm K : tensor A) :
  shape x = [n; d * q] -> shape Rm = [n * d; n * d] -> shape K = [n; n] ->
  0 < n -> 0 < m -> 0 < d -> 0 < q ->
  (forall e' s v, shape (to_SparseTensor e' s v) = [fst s; snd s]) ->
  product_on_matching_sizes' self ->
  exists Kr Kt out,
    (let* KK := kron K (ones d d) in mul_elementwise Rm KK) = Ok Kr /\
    (forall I J, I < n * d -> J < n * d ->
       get Kr [I; J] = smul (get Rm [I; J]) (smul (get K [I / d; J / d]) sone)) /\
    transpose Kr = Ok Kt /\
    apply_kernel' self x e (n * d, m * d) (Some (Rm, d)) K = Ok out /\
    shape out = [m; d * q] /\
    forall i a b, i < m -> a < d -> b < q ->
      get out [i; a * q + b]
      = sum_n (n * d)
          (fun l => smul (get (to_SparseTensor e (n * d, m * d) Kt) [l; i * d + a])
                         (get x [l / d; (l mod d) * q + b])).
Proof.
  intros Hx HRm HK Hn Hm Hd Hq Hsp Hmm.
  set (KK := tabulate [n * d; n * d]
               (fun idx => smul (get K [ix 0 idx / d; ix 1 idx / d])
                                (get (ones d d) [ix 0 idx mod d; ix 1 idx mod d]))).
  assert (Hkron : kron K (ones d d) = Ok KK).
  { unfold kron. rewrite HK. reflexivity. }
  set (Kr := tabulate [n * d; n * d]
               (fun idx =>
                  smul (get Rm [if n * d =? 1 then 0 else ix 0 idx;
                                if n * d =? 1 then 0 else ix 1 idx])
                       (get KK [if n * d =? 1 then 0 else ix 0 idx;
                                if n * d =? 1 then 0 else ix 1 idx]))).
  assert (Hmul : mul_elementwise Rm KK = Ok Kr).
  { unfold mul_elementwise. rewrite HRm. cbn [shape KK tabulate].
    unfold broadcast_dim. rewrite Nat.eqb_refl. reflexivity. }
  assert (HKr : (let* KK := kron K (ones d d) in mul_elementwise Rm KK) = Ok Kr).
  { rewrite Hkron. exact Hmul. }
  assert (Hentries : forall I J, I < n * d -> J < n * d ->
            get Kr [I; J] = smul (get Rm [I; J]) (smul (get K [I / d; J / d]) sone)).
  { intros I J HI HJ. unfold Kr. rewrite get_tabulate by (apply inb2; assumption).
    change (ix 0 [I; J]) with I. change (ix 1 [I; J]) with J.
    assert (HI' : (if n * d =? 1 then 0 else I) = I)
      by (destruct (Nat.eqb_spec (n * d) 1); lia).
    assert (HJ' : (if n * d =? 1 then 0 else J) = J)
      by (destruct (Nat.eqb_spec (n * d) 1); lia).
    rewrite HI', HJ'. f_equal.
    unfold KK. rewrite get_tabulate by (apply inb2; assumption).
    change (ix 0 [I; J]) with I. change (ix 1 [I; J]) with J. f_equal.
    unfold ones. rewrite get_tabulate; [reflexivity|].
    apply inb2; apply Nat.mod_upper_bound; lia. }
  set (Kt := tabulate [n * d; n * d] (fun idx => get Kr [ix 1 idx; ix 0 idx])).
  assert (Ht : transpose Kr = Ok Kt) by reflexivity.
  set (Ks := to_SparseTensor e (n * d, m * d) Kt).
  assert (HKs : shape Ks = [n * d; m * d]) by apply Hsp.
  set (Kst := tabulate [m * d; n * d] (fun idx => get Ks [ix 1 idx; ix 0 idx])).
  assert (Hts : transpose Ks = Ok Kst) by (unfold transpose; rewrite HKs; reflexivity).
  destruct (message_and_aggregate_blocks self Kst x n d q m Hx eq_refl Hn Hd Hq Hm Hmm)
    as (out & Hout & Hshape & Hget).
  exists Kr, Kt, out. split; [exact HKr|]. split; [exact Hentries|]. split; [exact Ht|].
  split.
  { unfold apply_kernel, propagate. rewrite HKr. cbn [bind]. rewrite Ht. cbn [bind].
    fold Ks. rewrite Hts. cbn [bind]. exact Hout. }
  split; [exact Hshape|].
  intros i a b Hi Ha Hb. rewrite (Hget i a b Hi Ha Hb).
  apply sum_n_ext. intros l Hl. f_equal.
  unfold Kst. rewrite get_tabulate by (apply inb2; nia). reflexivity.
Qed.

(** Expanding the adjacency matrix: every entry becomes a [dim x dim]
    block holding that entry. *)
Lemma expand_adjacenecy_matrix_Ok (edge_index : EdgeIndex) (dim r c : nat) :
  shape (to_dense_adj edge_index) = [r; c] ->
  exists adj,
    expand' edge_index dim = Ok (dense_to_sparse adj) /\
    shape adj = [r * dim; c * dim] /\
    forall i j, i < r * dim -> j < c * dim ->
      get adj [i; j] = get (to_dense_adj edge_index) [i / dim; j / dim].
Proof.
  intros Hs. unfold expand_adjacenecy_matrix, repeat_interleave_cols.
  rewrite Hs. cbn [bind]. unfold repeat_interleave_rows. cbn [shape tabulate bind].
  eexists. split; [reflexivity|]. split; [reflexivity|].
  intros i j Hi Hj. rewrite get_tabulate by (apply inb2; assumption).
  change (ix 0 [i; j]) with i. change (ix 1 [i; j]) with j.
  fold (tabulate [r; c * dim]
          (fun idx => get (to_dense_adj edge_index) [ix 0 idx; ix 1 idx / dim])).
  rewrite get_tabulate; [reflexivity|].
  apply inb2; [|exact Hj].
  apply Nat.Div0.div_lt_upper_bound. lia.
Qed.

(** C7.  With [k] kernels and a signal of [ch] columns, whenever [forward]
    returns, its output has [k * ch] columns and column [c * k + j] holds
    column [c] of the aggregate of kernel [j]: the aggregates, listed kernel
    by kernel, are stacked along a new last axis and each row is flattened,
    which interleaves the kernels.  And [forward] does return, on [n]
    source nodes and [m] target nodes, when the helpers build a sparse
    matrix of the size they are given and the library's product is the
    matrix product on matching sizes.  Without rotations and with kernels
    that are matrices, the entry in row [i] and column [c * k + j] is the
    product of row [i] of the transposed sparse matrix of kernel [j] with
    column [c] of the signal.  With rotations of shape [n x n x d x d],
    kernels of shape [n x n], a signal of [d * q] columns and an adjacency
    matrix to expand, the rotations are laid out as a block matrix, kernel
    [j] is spread over [d x d] blocks and multiplied with it entry by
    entry, and the entry in row [i] and column [(a * q + b) * k + j] is the
    product of row [i * d + a] of the transposed sparse matrix of that
    product with the signal read as [n * d] rows of [q] entries. *)
Theorem forward_output_columns self x e size kernels Rot (n ch : nat) :
  shape x = [n; ch] -> to_list kernels <> [] ->
  (forall out, forward' self x e size kernels Rot = Ok out ->
     exists rows e' size' Rb outs,
       mapM (apply_kernel' self x e' size' Rb) (to_list kernels) = Ok outs /\
       shape out = [rows; length (to_list kernels) * ch] /\
       forall i c j, i < rows -> c < ch -> j < length (to_list kernels) ->
         get out [i; c * length (to_list kernels) + j] = get (nth j outs x) [i; c]) /\
  (forall m, Rot = None -> size = (n, m) -> 0 < n -> 0 < m -> 0 < ch ->
     (forall K, In K (to_list kernels) -> exists a b, shape K = [a; b]) ->
     (forall e' s v, shape (to_SparseTensor e' s v) = [fst s; snd s]) ->
     product_on_matching_sizes' self ->
     exists out,
       forward' self x e size kernels Rot = Ok out /\
       shape out = [m; length (to_list kernels) * ch] /\
       forall i c j, i < m -> c < ch -> j < length (to_list kernels) ->
         exists Kt,
           transpose (nth j (to_list kernels) x) = Ok Kt /\
           get out [i; c * length (to_list kernels) + j]
           = sum_n n (fun l => smul (get (to_SparseTensor e (n, m) Kt) [l; i])
                                    (get x [l; c]))) /\
  (forall Rt m d q, Rot = Some Rt -> shape Rt = [n; n; d; d] -> size = (n, m) ->
     ch = d * q -> 0 < n -> 0 < m -> 0 < d -> 0 < q ->
     (forall K, In K (to_list kernels) -> shape K = [n; n]) ->
     (exists r c, shape (to_dense_adj e) = [r; c]) ->
     (forall e' s v, shape (to_SparseTensor e' s v) = [fst s; snd s]) ->
     product_on_matching_sizes' self ->
     exists Rm e' out,
       (let* Rs := swapaxes_1_2 Rt in reshape Rs [Dim (n * d); Dim (n * d)]) = Ok Rm /\
       (forall I J, I < n * d -> J < n * d ->
          get Rm [I; J] = get Rt [I / d; J / d; I mod d; J mod d]) /\
       expand' e d = Ok e' /\
       forward' self x e size kernels Rot = Ok out /\
       shape out = [m; length (to_list kernels) * ch] /\
       forall i a b j, i < m -> a < d -> b < q -> j < length (to_list kernels) ->
         exists Kr Kt,
           (let* KK := kron (nth j (to_list kernels) x) (ones d d) in
            mul_elementwise Rm KK) = Ok Kr /\
           (forall I J, I < n * d -> J < n * d ->
              get Kr [I; J]
              = smul (get Rm [I; J])
                     (smul (get (nth j (to_list kernels) x) [I / d; J / d]) sone)) /\
           transpose Kr = Ok Kt /\
           get out [i; (a * q + b) * length (to_list kernels) + j]
           = sum_n (n * d)
               (fun l => smul (get (to_SparseTensor e' (n * d, m * d) Kt) [l; i * d + a])
                              (get x [l / d; (l mod d) * q + b]))).
Proof.
  intros Hx Hne. split; [|split].
  - intros out Hout.
    apply forward_inv in Hout
      as (e' & size' & Rb & outs & stacked & rows & Houts & Hst & Hrows & Hv).
    pose proof (mapM_length _ _ _ Houts) as Hlen.
    destruct (stack_last_inv outs stacked x Hst) as (r & c & Hshapes & Hss & Hget).
    assert (c = ch) as ->.
    { destruct outs as [|o outs']; [destruct (to_list kernels); [contradiction | discriminate]|].
      destruct (mapM_In _ _ _ o Houts (or_introl eq_refl)) as (K & _ & HK).
      destruct (apply_kernel_shape self x e' size' Rb K o n ch Hx HK) as (_ & r' & Hr').
      rewrite (Hshapes o (or_introl eq_refl)) in Hr'. congruence. }
    unfold shape_at in Hrows. rewrite Hss in Hrows. cbn in Hrows. injection Hrows as <-.
    destruct (flatten_stacked stacked out r ch (length outs) Hss Hv) as (Hr & Hso & Hflat).
    rewrite Hlen in *.
    exists r, e', size', Rb, outs. split; [exact Houts|]. split; [exact Hso|].
    intros i c j Hi Hc Hj. rewrite Hflat. apply Hget; assumption.
  - intros m -> -> Hn Hm Hch Hks Hsp Hmm.
    destruct (mapM_exists (apply_kernel' self x e (n, m) None)
                (fun K out => shape out = [m; ch] /\
                   exists Kt, transpose K = Ok Kt /\
                     forall i c, i < m -> c < ch ->
                       get out [i; c]
                       = sum_n n (fun l => smul (get (to_SparseTensor e (n, m) Kt) [l; i])
                                                (get x [l; c])))
                (to_list kernels)) as (outs & Houts & Hlen & Hnth).
    { intros K HK. destruct (Hks K HK) as (a & b & Hab).
      destruct (apply_kernel_scalar self x e n m ch a b K Hx Hn Hch Hab Hsp Hmm)
        as (Kt & out & HKt & Hout & Hs & Hg).
      exists out. split; [exact Hout|]. split; [exact Hs|]. exists Kt. auto. }
    destruct (stack_and_flatten outs m ch x) as (out & Hout & Hshape & Hget).
    { destruct outs; [destruct (to_list kernels); [contradiction | discriminate]
                     | discriminate]. }
    { exact Hm. }
    { intros t Ht. destruct (In_nth outs t x Ht) as (j & Hj & <-).
      apply (Hnth j x x). lia. }
    rewrite Hlen in Hshape, Hget.
    exists out. split; [|split; [exact Hshape|]].
    + unfold forward. cbn [bind]. rewrite Houts. cbn [bind]. exact Hout.
    + intros i c j Hi Hc Hj.
      destruct (Hnth j x x Hj) as (_ & Kt & HKt & Hg).
      exists Kt. split; [exact HKt|]. rewrite (Hget i c j Hi Hc Hj). apply Hg; assumption.
  - intros Rt m d q -> HR -> -> Hn Hm Hd Hq Hks (r & c & Hadj) Hsp Hmm.
    destruct (rotation_blocks Rt n d HR) as (Rs & Rm & HRs & HRm & HsRm & HgRm).
    destruct (expand_adjacenecy_matrix_Ok e d r c Hadj) as (adj & He' & _).
    set (e' := dense_to_sparse adj) in *.
    destruct (mapM_exists (apply_kernel' self x e' (n * d, m * d) (Some (Rm, d)))
                (fun K out => shape out = [m; d * q] /\
                   exists Kr Kt,
                     (let* KK := kron K (ones d d) in mul_elementwise Rm KK) = Ok Kr /\
                     (forall I J, I < n * d -> J < n * d ->
                        get Kr [I; J]
                        = smul (get Rm [I; J]) (smul (get K [I / d; J / d]) sone)) /\
                     transpose Kr = Ok Kt /\
                     forall i a b, i < m -> a < d -> b < q ->
                       get out [i; a * q + b]
                       = sum_n (n * d)
                           (fun l =>
                              smul (get (to_SparseTensor e' (n * d, m * d) Kt) [l; i * d + a])
                                   (get x [l / d; (l mod d) * q + b])))
                (to_list kernels)) as (outs & Houts & Hlen & Hnth).
    { intros K HK.
      destruct (apply_kernel_rotations self x e' n m d q Rm K Hx HsRm (Hks K HK)
                  Hn Hm Hd Hq Hsp Hmm)
        as (Kr & Kt & out & HKr & HgKr & HKt & Hout & Hs & Hg).
      exists out. split; [exact Hout|]. split; [exact Hs|]. exists Kr, Kt. auto. }
    destruct (stack_and_flatten outs m (d * q) x) as (out & Hout & Hshape & Hget).
    { destruct outs; [destruct (to_list kernels); [contradiction | discriminate]
                     | discriminate]. }
    { exact Hm. }
    { intros t Ht. destruct (In_nth outs t x Ht) as (j & Hj & <-).
      apply (Hnth j x x). lia. }
    rewrite Hlen in Hshape, Hget.
    exists Rm, e', out.
    split; [rewrite HRs; exact HRm|]. split; [exact HgRm|]. split; [exact He'|].
    split; [|split; [exact Hshape|]].
    + unfold forward, unpack4. rewrite HR. cbn [bind]. rewrite HRs. cbn [bind].
      rewrite HRm. cbn [bind fst snd]. rewrite He'. cbn [bind].
      rewrite Houts. cbn [bind]. exact Hout.
    + intros i a b j Hi Ha Hb Hj.
      destruct (Hnth j x x Hj) as (_ & Kr & Kt & HKr & HgKr & HKt & Hg).
      exists Kr, Kt. split; [exact HKr|]. split; [exact HgKr|]. split; [exact HKt|].
      rewrite (Hget i (a * q + b) j Hi ltac:(nia) Hj). apply Hg; assumption.
Qed.

End WithGraph.

(** The stand-in for the library's product is the matrix product on
    matching sizes. *)
Lemma sparse_matmul_sum_product :
  product_on_matching_sizes Samples.sparse_matmul_sum init.
Proof.
  intros K y r k c HK Hy. unfold Samples.sparse_matmul_sum, matmul.
  rewrite HK, Hy, Nat.eqb_refl, Nat.min_id. reflexivity.
Qed.

(** C4, at concrete inputs.  A 4x4 kernel on a signal with 2 rows and 4
    columns takes the branch with the view, which regroups the signal in 4
    rows of 2 entries; a kernel with 3 columns is multiplied with the
    signal as it is. *)
Lemma message_and_aggregate_guard_samples :
  (shape Samples.x_2x4 = [2; 4] /\ shape Samples.K_4x4 = [4; 4] /\
   shape Samples.K_2x3 = [2; 3] /\ 0 < 2 /\ 0 < 4 /\ 4 mod 2 = 0 /\ 3 mod 2 <> 0) /\
  message_and_aggregate Samples.sparse_matmul_sum init Samples.K_4x4 Samples.x_2x4
  = (let* y := Samples.sparse_matmul_sum Samples.K_4x4
                 (Tensor [4; 2] (data Samples.x_2x4)) "add" in
     view y [Infer; Dim 4]) /\
  message_and_aggregate Samples.sparse_matmul_sum init Samples.K_4x4 Samples.x_2x4
  = Ok (Tensor [2; 4] [7; 10; 24; 28; 6; 8; 17; 20]%Z) /\
  message_and_aggregate Samples.sparse_matmul_sum init Samples.K_2x3 Samples.x_2x4
  = (let* y := Samples.sparse_matmul_sum Samples.K_2x3 Samples.x_2x4 "add" in
     view y [Infer; Dim 4]) /\
  message_and_aggregate Samples.sparse_matmul_sum init Samples.K_2x3 Samples.x_2x4
  = Ok Samples.x_2x4.
Proof.
  split; [repeat split; try lia; discriminate|].
  pose proof (message_and_aggregate_reshape_guard Samples.sparse_matmul_sum init
                Samples.K_4x4 Samples.x_2x4 2 4 4 4
                eq_refl eq_refl (Nat.lt_0_succ 1) (Nat.lt_0_succ 3)) as (_ & _ & H4).
  pose proof (message_and_aggregate_reshape_guard Samples.sparse_matmul_sum init
                Samples.K_2x3 Samples.x_2x4 2 4 2 3
                eq_refl eq_refl (Nat.lt_0_succ 1) (Nat.lt_0_succ 3)) as (_ & H3 & _).
  specialize (H4 2 eq_refl (Nat.lt_0_succ 1) eq_refl).
  specialize (H3 ltac:(discriminate)).
  split; [exact H4|]. split; [rewrite H4; vm_compute; reflexivity|].
  split; [exact H3|]. rewrite H3. vm_compute. reflexivity.
Defined.

(** C7, at concrete inputs: 3 kernels over a signal with 4 channels give
    12 output columns, without rotations and with rotations in the
    plane. *)
Lemma forward_3_kernels_4_channels :
  (shape Samples.x_2x4 = [2; 4] /\
   Samples.to_list_id [Samples.K_a; Samples.K_b; Samples.K_c] <> [] /\
   shape Samples.R_identity = [2; 2; 2; 2]) /\
  (exists out,
     forward unit (list (tensor Z)) Samples.to_list_id Samples.to_SparseTensor_dense
       Samples.to_dense_adj_empty Samples.dense_to_sparse_unit Samples.sparse_matmul_sum
       init Samples.x_2x4 tt (2, 2) [Samples.K_a; Samples.K_b; Samples.K_c] None = Ok out /\
     shape out = [2; 12]) /\
  (exists out,
     forward unit (list (tensor Z)) Samples.to_list_id Samples.to_SparseTensor_dense
       Samples.to_dense_adj_empty Samples.dense_to_sparse_unit Samples.sparse_matmul_sum
       init Samples.x_2x4 tt (2, 2) [Samples.K_a; Samples.K_b; Samples.K_c]
       (Some Samples.R_identity) = Ok out /\
     shape out = [2; 12]).
Proof.
  split; [split; [reflexivity | split; [discriminate | reflexivity]]|].
  split.
  - destruct (proj1 (proj2 (forward_output_columns unit (list (tensor Z))
                       Samples.to_list_id Samples.to_SparseTensor_dense
                       Samples.to_dense_adj_empty Samples.dense_to_sparse_unit
                       Samples.sparse_matmul_sum init
                       Samples.x_2x4 tt (2, 2) [Samples.K_a; Samples.K_b; Samples.K_c] None
                       2 4 eq_refl ltac:(discriminate)))
                2 eq_refl eq_refl (Nat.lt_0_succ 1) (Nat.lt_0_succ 1) (Nat.lt_0_succ 3))
      as (out & Hout & Hshape & _).
    + intros K [<-|[<-|[<-|[]]]]; exists 2, 2; reflexivity.
    + intros e' s v. reflexivity.
    + exact sparse_matmul_sum_product.
    + exists out. split; [exact Hout | exact Hshape].
  - destruct (proj2 (proj2 (forward_output_columns unit (list (tensor Z))
                       Samples.to_list_id Samples.to_SparseTensor_dense
                       Samples.to_dense_adj_empty Samples.dense_to_sparse_unit
                       Samples.sparse_matmul_sum init
                       Samples.x_2x4 tt (2, 2) [Samples.K_a; Samples.K_b; Samples.K_c]
                       (Some Samples.R_identity) 2 4 eq_refl ltac:(discriminate)))
                Samples.R_identity 2 2 2 eq_refl eq_refl eq_refl eq_refl
                (Nat.lt_0_succ 1) (Nat.lt_0_succ 1) (Nat.lt_0_succ 1) (Nat.lt_0_succ 1))
      as (Rm & e' & out & _ & _ & _ & Hout & Hshape & _).
    + intros K [<-|[<-|[<-|[]]]]; reflexivity.
    + exists 0, 0. reflexivity.
    + intros e' s v. reflexivity.
    + exact sparse_matmul_sum_product.
    + exists out. split; [exact Hout | exact Hshape].
Defined.

(** The call without rotations, evaluated: the columns of the three
    aggregates are interleaved channel by channel. *)
Example forward_3_kernels_4_channels_value :
  forward unit (list (tensor Z)) Samples.to_list_id Samples.to_SparseTensor_dense
    Samples.to_dense_adj_empty Samples.dense_to_sparse_unit Samples.sparse_matmul_sum
    init Samples.x_2x4 tt (2, 2) [Samples.K_a; Samples.K_b; Samples.K_c] None
  = Ok (Tensor [2; 12] [1; 5; 6; 2; 6; 8; 3; 7; 10; 4; 8; 12;
                        5; 1; 0; 6; 2; 0; 7; 3; 0; 8; 4; 0]%Z).
Proof. vm_compute. reflexivity. Qed.

(** The interleaving on the sample: column 1 of the output holds channel 0
    of the second kernel's aggregate (5); channel 1 of the first kernel's
    aggregate (2) comes in column 3. *)
Example forward_interleaves_kernels :
  exists out outs,
    forward unit (list (tensor Z)) Samples.to_list_id Samples.to_SparseTensor_dense
      Samples.to_dense_adj_empty Samples.dense_to_sparse_unit Samples.sparse_matmul_sum
      init Samples.x_2x4 tt (2, 2) [Samples.K_a; Samples.K_b; Samples.K_c] None = Ok out /\
    mapM (apply_kernel unit Samples.to_SparseTensor_dense Samples.sparse_matmul_sum
            init Samples.x_2x4 tt (2, 2) None)
      [Samples.K_a; Samples.K_b; Samples.K_c] = Ok outs /\
    get out [0; 0 * 3 + 1] = 5%Z /\
    get (nth 1 outs Samples.x_2x4) [0; 0] = 5%Z /\
    get out [0; 1 * 3 + 0] = 2%Z /\
    get (nth 0 outs Samples.x_2x4) [0; 1] = 2%Z.
Proof.
  eexists. eexists. split; [vm_compute; reflexivity|].
  split; [vm_compute; reflexivity|]. repeat split.
Qed.

(** With rotations: identity rotations on 2 nodes in the plane give the
    plain product of the kernel with the signal, [[7, 10], [15, 22]]. *)
Example forward_identity_rotations :
  forward unit (list (tensor Z)) Samples.to_list_id Samples.to_SparseTensor_dense
    Samples.to_dense_adj_empty Samples.dense_to_sparse_unit Samples.sparse_matmul_sum
    init Samples.x_2x2 tt (2, 2) [Samples.K_1234] (Some Samples.R_identity)
  = Ok (Tensor [2; 2] [7; 10; 15; 22]%Z) /\
  forward unit (list (tensor Z)) Samples.to_list_id Samples.to_SparseTensor_dense
    Samples.to_dense_adj_empty Samples.dense_to_sparse_unit Samples.sparse_matmul_sum
    init Samples.x_2x2 tt (2, 2) [Samples.K_1234] None
  = Ok (Tensor [2; 2] [7; 10; 15; 22]%Z).
Proof. split; vm_compute; reflexivity. Qed.

End AnisoConvFacts.

(** ** [InnerProductFeatures] *)

Module InnerProductFeaturesFacts.
Import Py Torch InnerProductFeatures PyFacts TorchFacts.

(** The first step of [forward] on one tensor of shape [V x (D*c)]. *)
Lemma reshape_step (D : Z) (x_ : tensor R) (V Dn c : nat) :
  D = Z.of_nat Dn -> 0 < Dn -> 0 < V -> shape x_ = [V; Dn * c] ->
  (let* v := shape_at x_ 0 in
   let* d := dim_of_Z D in
   reshape x_ [Dim v; d; Infer]) = Ok (Tensor [V; Dn; c] (data x_)).
Proof.
  intros -> HD HV Hs. unfold shape_at, dim_of_Z, reshape, view, numel.
  rewrite Hs. cbn [lookup list_lookup bind].
  destruct (Z.eqb_spec (Z.of_nat Dn) (-1)) as [?|_]; [lia|].
  destruct (Z.ltb_spec (Z.of_nat Dn) 0) as [?|_]; [lia|].
  cbn [bind]. rewrite Nat2Z.id.
  replace (numel_of [V; Dn * c]) with (V * (Dn * c)) by (cbn; lia).
  rewrite infer_shape_3 by assumption. reflexivity.
Qed.

(** Entries of the reshaped tensor are entries of the input. *)
Lemma get_reshaped (x_ : tensor R) (V Dn c v k i : nat) :
  shape x_ = [V; Dn * c] -> i < c ->
  get (Tensor [V; Dn; c] (data x_)) [v; k; i] = get x_ [v; k * c + i].
Proof.
  intros Hs Hi. unfold get. rewrite Hs. cbn [shape data offset numel_of fold_right].
  f_equal. nia.
Qed.

(** A row of width 1. *)
Lemma firstn_1_skipn {B : Type} (l : list B) (p : nat) (d : B) :
  p < length l -> firstn 1 (skipn p l) = [nth p l d].
Proof.
  revert p. induction l as [|a l IH]; intros p Hp; [simpl in Hp; lia|].
  destruct p as [|p]; [reflexivity|]. cbn [skipn nth]. apply IH. simpl in Hp. lia.
Qed.

Lemma flat_map_singletons {B E : Type} (g : B -> list E) (h : B -> E) (l : list B) :
  (forall b, In b l -> g b = [h b]) -> flat_map g l = map h l.
Proof.
  induction l as [|b l IH]; intros Hg; [reflexivity|].
  cbn [flat_map map]. rewrite Hg by (left; reflexivity). cbn [app]. f_equal.
  apply IH. intros b' Hb'. apply Hg. right. exact Hb'.
Qed.

Lemma sum_ones {B : Type} (l : list B) : fold_right Nat.add 0 (map (fun _ => 1) l) = length l.
Proof. induction l as [|b l IH]; [reflexivity|]. cbn. rewrite IH. reflexivity. Qed.

(** Concatenating columns: [k] matrices of shape [V x 1]. *)
Lemma cat_last_columns (ts : list (tensor R)) (V : nat) (d : tensor R) :
  ts <> [] -> (forall t, In t ts -> shape t = [V; 1] /\ wf t) ->
  exists out,
    cat_last 2 ts = Ok out /\ shape out = [V; length ts] /\
    forall v i, v < V -> i < length ts -> get out [v; i] = get (nth i ts d) [v; 0].
Proof.
  intros Hne Hts. unfold cat_last. destruct ts as [|t0 ts']; [contradiction|].
  set (ts := t0 :: ts') in *.
  assert (Ht0 : shape t0 = [V; 1]) by (apply Hts; left; reflexivity).
  rewrite Ht0. cbn [leading List.removelast].
  rewrite (proj2 (forallb_forall _ ts)).
  2:{ intros t Ht. apply bool_decide_eq_true. destruct (Hts t Ht) as [-> _]. split; reflexivity. }
  cbn [andb negb Nat.eqb]. eexists. split; [reflexivity|].
  assert (Hsum : fold_right Nat.add 0 (map (fun t => last_dim (shape t)) ts) = length ts).
  { rewrite <- sum_ones. f_equal. apply map_ext_in. intros t Ht.
    destruct (Hts t Ht) as [-> _]. reflexivity. }
  cbn [shape app]. rewrite Hsum. split; [reflexivity|].
  intros v i Hv Hi. unfold get at 1. cbn [shape data offset numel_of fold_right].
  replace (v * (length ts * 1) + (i * 1 + 0)) with (v * length ts + i) by lia.
  replace (V * 1) with V by lia.
  assert (Hrow : forall p, p < V ->
            flat_map (fun t => row t p) ts = map (fun t => nth p (data t) 0%R) ts).
  { intros p Hp. apply flat_map_singletons. intros t Ht.
    destruct (Hts t Ht) as [Hs Hwf]. unfold row. rewrite Hs. cbn [last_dim List.last].
    rewrite Nat.mul_1_r. apply firstn_1_skipn.
    unfold wf in Hwf. rewrite Hwf, Hs. cbn. lia. }
  rewrite (nth_flat_map_seq _ 0 V (length ts) v i); try assumption.
  - cbn [Nat.add]. rewrite Hrow by exact Hv.
    rewrite (nth_indep _ _ (nth v (data d) 0%R)) by (rewrite length_map; exact Hi).
    rewrite (map_nth (fun t => nth v (data t) 0%R)).
    unfold get. assert (Hin : In (nth i ts d) ts) by (apply nth_In; exact Hi).
    destruct (Hts _ Hin) as [-> _]. cbn [offset numel_of fold_right Scalar_R szero].
    f_equal. lia.
  - intros j Hj. rewrite Hrow by lia. apply length_map.
Qed.

(** The scalar branch on a list of matrices with [V] rows: one output
    column per matrix, holding the Euclidean norm of its rows. *)
Lemma forward_scalar (self : t) (x : input) (V : nat) (d : tensor R) :
  D self = 1%Z -> as_list x <> [] -> 0 < V ->
  (forall t, In t (as_list x) -> exists c, shape t = [V; c]) ->
  exists out,
    forward self x = Ok out /\ shape out = [V; length (as_list x)] /\
    forall v i, v < V -> i < length (as_list x) ->
      get out [v; i]
      = sqrt (sum_n (width (nth i (as_list x) d))
                (fun k => (get (nth i (as_list x) d) [v; k] *
                           get (nth i (as_list x) d) [v; k])%R)).
Proof.
  intros HD Hne HV Hxs. unfold forward. set (xs := as_list x) in *.
  set (g := fun x_ : tensor R => Tensor [V; 1; width x_] (data x_)).
  rewrite (mapM_Ok_all _ g).
  2:{ intros t Ht. destruct (Hxs t Ht) as (c & Hc).
      change (g t) with (Tensor [V; 1; width t] (data t)).
      unfold width. rewrite Hc. cbn [nth].
      apply (reshape_step (D self) t V 1 c HD); [lia | exact HV |].
      rewrite Hc. f_equal. f_equal. lia. }
  cbn [bind]. rewrite HD. cbn [Z.eqb Pos.eqb].
  set (h := fun t : tensor R =>
              tabulate [V; 1]
                (fun idx => sqrt (sum_n (width t)
                   (fun k => (get (g t) [ix 0 idx; ix 1 idx; k] *
                              get (g t) [ix 0 idx; ix 1 idx; k])%R)))).
  rewrite (mapM_Ok_all _ (fun t3 => h (Tensor [nth 0 (shape t3) 0; nth 2 (shape t3) 0] (data t3)))).
  2:{ intros t3 Ht3. apply in_map_iff in Ht3 as (t & <- & Ht). reflexivity. }
  cbn [bind]. rewrite map_map.
  destruct (cat_last_columns
              (map (fun t => h (Tensor [nth 0 (shape (g t)) 0; nth 2 (shape (g t)) 0] (data (g t)))) xs)
              V (h (Tensor [nth 0 (shape (g d)) 0; nth 2 (shape (g d)) 0] (data (g d)))))
    as (out & Hout & Hshape & Hget).
  { destruct xs; [contradiction | discriminate]. }
  { intros t3 Ht3. apply in_map_iff in Ht3 as (t & <- & Ht). split; [reflexivity|].
    apply wf_tabulate. }
  rewrite length_map in Hshape, Hget.
  exists out. split; [exact Hout|]. split; [exact Hshape|].
  intros v i Hv Hi. rewrite (Hget v i Hv Hi).
  rewrite (map_nth (fun t => h (Tensor [nth 0 (shape (g t)) 0; nth 2 (shape (g t)) 0] (data (g t))))).
  set (t := nth i xs d).
  assert (Ht : In t xs) by (apply nth_In; exact Hi).
  destruct (Hxs t Ht) as (c & Hc).
  unfold h. rewrite get_tabulate by (apply inb2; lia).
  change (ix 0 [v; 0]) with v. change (ix 1 [v; 0]) with 0.
  cbn [g shape data nth width]. unfold width. rewrite Hc. cbn [nth].
  f_equal. apply sum_n_ext. intros k Hk.
  assert (Hg : get (Tensor [V; 1; c] (data t)) [v; 0; k] = get t [v; k]).
  { rewrite (get_reshaped t V 1 c v 0 k); [reflexivity | | exact Hk].
    rewrite Hc. f_equal. f_equal. lia. }
  change (g {| shape := [V; c]; data := data t |}) with (Tensor [V; 1; c] (data t)).
  rewrite Hg. reflexivity.
Qed.

Lemma sum_n_1 (f : nat -> R) : sum_n 1 f = f 0.
Proof. rewrite sum_n_S, sum_n_0. lra. Qed.

(** C3 (amended).  With [D == 1] and a non-empty list of matrices with
    [V >= 1] rows, the output has one column per matrix of the list; its
    entry for a node and a matrix is the Euclidean norm of that node's row
    of the matrix, over all its channels.  It is non-negative, and for a
    matrix with a single channel it is the absolute value of the entry. *)
Theorem scalar_reducer_norms (self : t) (x : input) (V : nat) (d : tensor R) :
  D self = 1%Z -> as_list x <> [] -> 0 < V ->
  (forall t, In t (as_list x) -> exists c, shape t = [V; c]) ->
  exists out,
    forward self x = Ok out /\ shape out = [V; length (as_list x)] /\
    forall v i, v < V -> i < length (as_list x) ->
      get out [v; i]
      = sqrt (sum_n (width (nth i (as_list x) d))
                (fun k => (get (nth i (as_list x) d) [v; k] *
                           get (nth i (as_list x) d) [v; k])%R)) /\
      (0 <= get out [v; i])%R /\
      (width (nth i (as_list x) d) = 1 ->
       get out [v; i] = Rabs (get (nth i (as_list x) d) [v; 0])).
Proof.
  intros HD Hne HV Hxs.
  destruct (forward_scalar self x V d HD Hne HV Hxs) as (out & Hout & Hshape & Hget).
  exists out. split; [exact Hout|]. split; [exact Hshape|].
  intros v i Hv Hi. rewrite (Hget v i Hv Hi). split; [reflexivity|]. split.
  - apply sqrt_pos.
  - intros ->. rewrite sum_n_1. apply sqrt_Rsqr_abs.
Qed.

(** C3, counterexample.  A scalar signal and its two gradient channels on
    one node: three input channels give two output columns, and the second
    column holds 5, the norm of (3, 4), not the absolute value of an
    entry. *)
Lemma scalar_reducer_not_per_channel :
  exists out,
    forward Samples.ip_scalar_2 (Many [Samples.x_scalar; Samples.x_grad]) = Ok out /\
    shape out = [1; 2] /\
    get out [0; 1] = 5%R /\
    Rabs (get Samples.x_grad [0; 0]) = 3%R /\
    Rabs (get Samples.x_grad [0; 1]) = 4%R.
Proof.
  destruct (forward_scalar Samples.ip_scalar_2 (Many [Samples.x_scalar; Samples.x_grad]) 1
              Samples.x_scalar eq_refl) as (out & Hout & Hshape & Hget).
  - discriminate.
  - lia.
  - intros t [<-|[<-|[]]]; eexists; reflexivity.
  - exists out. split; [exact Hout|]. split; [exact Hshape|].
    split; [|split].
    + rewrite (Hget 0 1) by (cbn; lia).
      cbn [nth as_list width Samples.x_grad shape].
      rewrite !sum_n_S, sum_n_0. unfold get. cbn.
      replace (0 + 3 * 3 + 4 * 4)%R with (5 * 5)%R by lra.
      apply sqrt_square. lra.
    + unfold get. cbn. apply Rabs_pos_eq. lra.
    + unfold get. cbn. apply Rabs_pos_eq. lra.
Qed.

(** C9, counterexample.  With [D == 1] no channel count is checked: a
    reducer configured for 5 channels accepts a list of two matrices with
    three channels in all and returns a result. *)
Lemma scalar_reducer_skips_channel_check :
  exists out,
    forward Samples.ip_scalar_5 (Many [Samples.x_scalar; Samples.x_grad]) = Ok out /\
    shape out = [1; 2] /\
    channel_count 1 [Samples.x_scalar; Samples.x_grad] = 3 /\
    C Samples.ip_scalar_5 = 5%Z.
Proof.
  destruct (forward_scalar Samples.ip_scalar_5 (Many [Samples.x_scalar; Samples.x_grad]) 1
              Samples.x_scalar eq_refl) as (out & Hout & Hshape & _).
  - discriminate.
  - lia.
  - intros t [<-|[<-|[]]]; eexists; reflexivity.
  - exists out. repeat split; assumption || reflexivity.
Qed.

(** Concatenating reshaped signals along the channel axis. *)
Lemma cat_last_channels (ts : list (tensor R)) (V Dn : nat) :
  ts <> [] -> (forall t, In t ts -> exists c, shape t = [V; Dn; c]) ->
  exists out,
    cat_last 3 ts = Ok out /\
    shape out = [V; Dn; fold_right Nat.add 0 (map (fun t => nth 2 (shape t) 0) ts)].
Proof.
  intros Hne Hts. unfold cat_last. destruct ts as [|t0 ts']; [contradiction|].
  set (ts := t0 :: ts') in *.
  destruct (Hts t0 (or_introl eq_refl)) as (c0 & Hc0). rewrite Hc0.
  cbn [leading List.removelast].
  rewrite (proj2 (forallb_forall _ ts)).
  2:{ intros t Ht. apply bool_decide_eq_true. destruct (Hts t Ht) as (c & ->).
      split; reflexivity. }
  cbn [andb negb Nat.eqb]. eexists. split; [reflexivity|]. cbn [shape app].
  f_equal. f_equal. f_equal. f_equal. apply map_ext_in. intros t Ht.
  destruct (Hts t Ht) as (c & ->). reflexivity.
Qed.

(** C9 (amended).  In the vector branch ([D > 1]), for a non-empty list of
    matrices with [V >= 1] rows whose widths are multiples of [D]: when the
    number of [D]-dimensional channels differs from [C] the call raises the
    channel assertion and returns nothing; when it equals [C] the check
    passes and the inner products are computed on the concatenated
    signal. *)
Theorem vector_reducer_channel_check (self : t) (x : input) (V Dn : nat) :
  D self = Z.of_nat Dn -> 1 < Dn -> as_list x <> [] -> 0 < V ->
  (forall t, In t (as_list x) -> shape t = [V; width t] /\ width t mod Dn = 0) ->
  (Z.of_nat (channel_count Dn (as_list x)) <> C self ->
   forward self x = Raise (AssertionError channels_message)) /\
  (Z.of_nat (channel_count Dn (as_list x)) = C self ->
   exists x3,
     shape x3 = [V; Dn; channel_count Dn (as_list x)] /\
     forward self x = inner_products self x3).
Proof.
  intros HD HDn Hne HV Hxs. unfold forward. set (xs := as_list x) in *.
  set (g := fun x_ : tensor R => Tensor [V; Dn; width x_ / Dn] (data x_)).
  rewrite (mapM_Ok_all _ g).
  2:{ intros t Ht. destruct (Hxs t Ht) as (Hs & Hm).
      apply (reshape_step (D self) t V Dn (width t / Dn) HD); [lia | exact HV |].
      rewrite Hs at 1. f_equal. f_equal.
      apply Nat.Div0.div_exact in Hm. exact Hm. }
  cbn [bind].
  destruct (Z.eqb_spec (D self) 1) as [?|_]; [lia|].
  destruct (cat_last_channels (map g xs) V Dn) as (x3 & Hcat & Hshape).
  { destruct xs; [contradiction | discriminate]. }
  { intros t3 Ht3. apply in_map_iff in Ht3 as (t & <- & Ht). eexists. reflexivity. }
  rewrite map_map in Hshape. cbn [g shape nth] in Hshape.
  fold (channel_count Dn xs) in Hshape.
  rewrite Hcat. cbn [bind]. unfold shape_at. rewrite Hshape. cbn [lookup list_lookup bind].
  split; intros HC.
  - destruct (Z.eqb_spec (Z.of_nat (channel_count Dn xs)) (C self)) as [?|_]; [contradiction|].
    reflexivity.
  - rewrite HC, Z.eqb_refl. cbn [assert bind]. exists x3. split; [exact Hshape | reflexivity].
Qed.

(** C9, at a concrete input: a vector reducer with [D = 2] configured for
    3 channels refuses a signal with 2 channels. *)
Lemma vector_reducer_rejects_2_of_3 :
  (2%Z = Z.of_nat 2 /\ 1 < 2 /\ 0 < 1) /\
  forward {| C := 3; D := 2; O := repeat (eye 2) 3 |}
          (Single (Tensor [1; 4] [1%R; 2%R; 3%R; 4%R]))
  = Raise (AssertionError channels_message).
Proof.
  split; [repeat split; lia|].
  apply (proj1 (vector_reducer_channel_check
                  {| C := 3; D := 2; O := repeat (eye 2) 3 |}
                  (Single (Tensor [1; 4] [1%R; 2%R; 3%R; 4%R])) 1 2
                  eq_refl (Nat.lt_succ_diag_r 1) ltac:(discriminate) (Nat.lt_0_succ 0)
                  ltac:(intros t [<-|[]]; split; reflexivity))).
  cbn. discriminate.
Defined.

(** C3, at a concrete input: one scalar channel on one node. *)
Lemma scalar_reducer_abs_sample :
  (D Samples.ip_scalar_2 = 1%Z /\ 0 < 1) /\
  exists out,
    forward Samples.ip_scalar_2 (Single Samples.x_scalar) = Ok out /\
    shape out = [1; 1] /\
    get out [0; 0] = Rabs (get Samples.x_scalar [0; 0]).
Proof.
  split; [split; [reflexivity | lia]|].
  destruct (scalar_reducer_norms Samples.ip_scalar_2 (Single Samples.x_scalar) 1
              Samples.x_scalar eq_refl ltac:(discriminate) (Nat.lt_0_succ 0)
              ltac:(intros t [<-|[]]; eexists; reflexivity))
    as (out & Hout & Hshape & Hget).
  exists out. split; [exact Hout|]. split; [exact Hshape|].
  apply (Hget 0 0 (Nat.lt_0_succ 0) (Nat.lt_0_succ 0)). reflexivity.
Defined.

End InnerProductFeaturesFacts.

(** ** [InnerProductFeatures]: the vector branch *)

Module InnerProductsFacts.
Import Py Torch InnerProductFeatures PyFacts TorchFacts InnerProductFeaturesFacts.

Lemma index_nat {B : Type} (l : list B) (j : nat) (d : B) :
  j < length l -> index l (Z.of_nat j) = Ok (nth j l d).
Proof.
  intros Hj. unfold index.
  destruct (Z.ltb_spec (Z.of_nat j) 0) as [?|_]; [lia|].
  destruct (Z.leb_spec 0 (Z.of_nat j)) as [_|?]; [|lia].
  destruct (Z.ltb_spec (Z.of_nat j) (Z.of_nat (length l))) as [_|?]; [|lia].
  cbn [andb]. rewrite Nat2Z.id.
  destruct (l !! j) as [b|] eqn:Hl.
  - f_equal. symmetry. apply nth_lookup_Some with (d := d) in Hl. exact Hl.
  - apply lookup_ge_None in Hl. lia.
Qed.

(** Concatenating a single tensor returns it. *)
Lemma cat_last_single (t : tensor R) (a b c : nat) :
  shape t = [a; b; c] -> wf t -> cat_last 3 [t] = Ok t.
Proof.
  intros Hs Hwf. unfold cat_last. rewrite Hs. cbn [forallb].
  rewrite bool_decide_eq_true_2 by (rewrite Hs; split; reflexivity).
  cbn [andb negb Nat.eqb leading List.removelast map fold_right last_dim List.last app].
  destruct t as [sh dt]. cbn [shape data] in *. subst sh. unfold wf in Hwf.
  cbn [shape data numel_of fold_right] in Hwf.
  f_equal. f_equal; [rewrite Nat.add_0_r; reflexivity|].
  cbn [flat_map]. unfold row. cbn [shape data last_dim List.last numel_of fold_right].
  rewrite (flat_map_ext_seq _ (fun q => firstn c (skipn (q * c) dt)))
    by (intros j _; apply app_nil_r).
  rewrite rows_concat by (rewrite Hwf; lia). reflexivity.
Qed.

(** The vector branch on a single matrix of shape [V x (Dn * c)]. *)
Lemma forward_vector_single (self : t) (x : tensor R) (V Dn c : nat) :
  D self = Z.of_nat Dn -> 1 < Dn -> 0 < V -> shape x = [V; Dn * c] -> wf x ->
  forward self (Single x)
  = (let* _ := assert (Z.of_nat c =? C self)%Z channels_message in
     inner_products self (Tensor [V; Dn; c] (data x))).
Proof.
  intros HD HDn HV Hs Hwf. unfold forward. cbn [as_list mapM].
  rewrite (reshape_step (D self) x V Dn c HD) by (assumption || lia). cbn [bind].
  destruct (Z.eqb_spec (D self) 1) as [?|_]; [lia|].
  rewrite (cat_last_single _ V Dn c).
  - reflexivity.
  - reflexivity.
  - unfold wf in *. cbn [shape data numel_of fold_right] in *. rewrite Hwf, Hs. cbn. lia.
Qed.

(** A linear map applied to the rows of a matrix. *)
Lemma linear_entry (w y : tensor R) (V Dn : nat) :
  shape w = [Dn; Dn] -> shape y = [V; Dn] ->
  exists out,
    linear w y = Ok out /\ shape out = [V; Dn] /\
    forall v a, v < V -> a < Dn ->
      get out [v; a] = sum_n Dn (fun l => (get y [v; l] * get w [a; l])%R).
Proof.
  intros Hw Hy. unfold linear, transpose. rewrite Hw. cbn [bind].
  unfold matmul. rewrite Hy. cbn [shape tabulate]. rewrite Nat.eqb_refl.
  eexists. split; [reflexivity|]. split; [reflexivity|].
  intros v a Hv Ha. rewrite get_tabulate by (apply inb2; assumption).
  change (ix 0 [v; a]) with v. change (ix 1 [v; a]) with a.
  apply sum_n_ext. intros l Hl. cbn [smul Scalar_R]. f_equal.
  fold (tabulate [Dn; Dn] (fun idx => get w [ix 1 idx; ix 0 idx])).
  rewrite get_tabulate by (apply inb2; assumption). reflexivity.
Qed.

(** The inner products for arbitrary weights: feature [i] at node [v] is
    the sum over the components [k] and the channels [j] of
    [x_i[k] * (O_j x_j)[k]]. *)
Lemma inner_products_entries (self : t) (x3 : tensor R) (V Dn Cn : nat) (d : tensor R) :
  C self = Z.of_nat Cn -> shape x3 = [V; Dn; Cn] -> 0 < V -> 0 < Cn ->
  length (O self) = Cn -> (forall w, In w (O self) -> shape w = [Dn; Dn]) ->
  exists out,
    inner_products self x3 = Ok out /\ shape out = [V; Cn] /\
    forall v i, v < V -> i < Cn ->
      get out [v; i]
      = sum_n Dn (fun k => sum_n Cn (fun j =>
          (get x3 [v; k; i] *
           sum_n Dn (fun l => (get x3 [v; l; j] * get (nth j (O self) d) [k; l])%R))%R)).
Proof.
  intros HC Hs HV HCn HO Hws. unfold inner_products. rewrite HC, Nat2Z.id.
  destruct (mapM_exists
              (fun j => let* w := index (O self) (Z.of_nat j) in
                        let* xj := select_last x3 j in
                        linear w xj)
              (fun j out => shape out = [V; Dn] /\
                 forall v a, v < V -> a < Dn ->
                   get out [v; a]
                   = sum_n Dn (fun l => (get x3 [v; l; j] * get (nth j (O self) d) [a; l])%R))
              (seq 0 Cn)) as (Oxs & HOxs & Hlen & Hnth).
  { intros j Hj. apply in_seq in Hj.
    rewrite (index_nat _ j d) by lia. cbn [bind].
    unfold select_last. rewrite Hs.
    destruct (Nat.ltb_spec j Cn) as [_|?]; [|lia]. cbn [bind].
    destruct (linear_entry (nth j (O self) d)
                (tabulate [V; Dn] (fun idx => get x3 [ix 0 idx; ix 1 idx; j])) V Dn)
      as (out & Hout & Hshape & Hget).
    - apply Hws, nth_In. lia.
    - reflexivity.
    - exists out. split; [exact Hout|]. split; [exact Hshape|].
      intros v a Hv Ha. rewrite (Hget v a Hv Ha). apply sum_n_ext. intros l Hl.
      rewrite get_tabulate by (apply inb2; assumption). reflexivity. }
  rewrite HOxs. cbn [bind]. rewrite length_seq in Hlen, Hnth.
  destruct (stack_last_Ok Oxs V Dn) as (stacked & Hst).
  { destruct Oxs; [simpl in Hlen; lia | discriminate]. }
  { intros o Ho. destruct (In_nth Oxs o d Ho) as (j & Hj & <-).
    apply (Hnth j 0 d). lia. }
  rewrite Hst. cbn [bind].
  destruct (stack_last_inv Oxs stacked d Hst) as (r & c & Hshapes & Hss & Hgs).
  assert (Hrc : r = V /\ c = Dn).
  { destruct Oxs as [|o Oxs']; [simpl in Hlen; lia|].
    pose proof (Hshapes o (or_introl eq_refl)) as H1.
    destruct (Hnth 0 0 o HCn) as [H2 _]. cbn [nth] in H2. split; congruence. }
  destruct Hrc as [-> ->]. rewrite Hlen in Hss, Hgs.
  unfold einsum_bki_bkj_bi. rewrite Hs, Hss, !Nat.eqb_refl. cbn [andb bind].
  unfold shape_at. rewrite Hs. cbn [lookup list_lookup bind]. unfold reshape.
  rewrite (view_cols_Ok _ V Cn) by (try assumption; unfold numel; cbn; lia).
  eexists. split; [reflexivity|]. split; [reflexivity|].
  intros v i Hv Hi. unfold get at 1. cbn [shape data tabulate].
  rewrite nth_tabulate_data by (apply inb2; assumption).
  change (ix 0 [v; i]) with v. change (ix 1 [v; i]) with i.
  apply sum_n_ext. intros k Hk. apply sum_n_ext. intros j Hj. cbn [smul Scalar_R].
  f_equal. rewrite (Hgs v k j Hv Hk Hj).
  destruct (Hnth j 0 d Hj) as [_ Hg]. rewrite seq_nth in Hg by exact Hj. cbn [Nat.add] in Hg.
  apply Hg; assumption.
Qed.

(** The vector branch on a single matrix, for arbitrary weights: feature
    [i] is the sum over the channels [j] of the bilinear form
    [x_i^T O_j x_j]. *)
Lemma forward_bilinear (self : t) (x : tensor R) (V Cn Dn : nat) (d : tensor R) :
  C self = Z.of_nat Cn -> D self = Z.of_nat Dn ->
  1 < Dn -> 0 < Cn -> 0 < V -> shape x = [V; Cn * Dn] -> wf x ->
  length (O self) = Cn -> (forall w, In w (O self) -> shape w = [Dn; Dn]) ->
  exists out,
    forward self (Single x) = Ok out /\ shape out = [V; Cn] /\
    forall v i, v < V -> i < Cn ->
      get out [v; i] = sum_n Cn (fun j => bilinear (nth j (O self) d) x Cn Dn v i j).
Proof.
  intros HC HD HDn HCn HV Hs Hwf HO Hws.
  assert (Hs' : shape x = [V; Dn * Cn]) by (rewrite Hs; f_equal; f_equal; lia).
  rewrite (forward_vector_single self x V Dn Cn HD HDn HV Hs' Hwf).
  rewrite HC, Z.eqb_refl. cbn [assert bind].
  destruct (inner_products_entries self (Tensor [V; Dn; Cn] (data x)) V Dn Cn d
              HC eq_refl HV HCn HO Hws) as (out & Hout & Hshape & Hget).
  exists out. split; [exact Hout|]. split; [exact Hshape|].
  intros v i Hv Hi. rewrite (Hget v i Hv Hi). rewrite sum_n_swap.
  apply sum_n_ext. intros j Hj. unfold bilinear, component.
  apply sum_n_ext. intros k Hk.
  rewrite (get_reshaped x V Dn Cn v k i Hs' Hi). f_equal.
  apply sum_n_ext. intros l Hl.
  rewrite (get_reshaped x V Dn Cn v l j Hs' Hj). apply Rmult_comm.
Qed.

(** The constructor leaves every linear map at the identity. *)
Lemma init_identity (linear_weight : nat -> tensor R) (Cn Dn : nat) :
  init linear_weight (Z.of_nat Cn) (Z.of_nat Dn)
  = Ok {| C := Z.of_nat Cn; D := Z.of_nat Dn; O := repeat (eye Dn) Cn |}.
Proof.
  unfold init. rewrite (mapM_Ok_all _ (fun _ => linear_weight Dn)).
  2:{ intros a _. destruct (Z.ltb_spec (Z.of_nat Dn) 0) as [?|_]; [lia|].
      rewrite Nat2Z.id. reflexivity. }
  cbn [bind]. unfold reset_parameters. cbn [D C O].
  rewrite (mapM_Ok_all _ (fun _ => eye Dn)).
  2:{ intros a _. unfold eye_Z. destruct (Z.ltb_spec (Z.of_nat Dn) 0) as [?|_]; [lia|].
      rewrite Nat2Z.id. reflexivity. }
  cbn [bind]. rewrite !map_const, !repeat_length, length_seq, Nat2Z.id. reflexivity.
Qed.

(** The bilinear form of the identity is the inner product. *)
Lemma bilinear_eye (x : tensor R) (Cn Dn v i j : nat) :
  bilinear (eye Dn) x Cn Dn v i j = inner x Cn Dn v i j.
Proof.
  unfold bilinear, inner. apply sum_n_ext. intros k Hk. f_equal.
  rewrite (sum_n_ext Dn _ (fun l => (component x Cn v j l * (if k =? l then 1 else 0))%R)).
  - apply sum_n_delta. exact Hk.
  - intros l Hl. unfold eye. rewrite get_tabulate by (apply inb2; assumption).
    change (ix 0 [k; l]) with k. change (ix 1 [k; l]) with l.
    cbn [sone szero Scalar_R]. apply Rmult_comm.
Qed.

(** C8.  For [D > 1] and a signal of shape [V x (C*D)], the reducer as
    constructed, with every linear map at the identity, returns for each
    node and each feature [i] the sum over the channels [j] of the inner
    products [x_i . x_j], which is the bilinear form [x_i^T O_j x_j] summed
    over [j] with [O_j = I]. *)
Theorem identity_maps_give_inner_products (linear_weight : nat -> tensor R)
    (x : tensor R) (V Cn Dn : nat) :
  1 < Dn -> 0 < Cn -> 0 < V -> shape x = [V; Cn * Dn] -> wf x ->
  exists self out,
    init linear_weight (Z.of_nat Cn) (Z.of_nat Dn) = Ok self /\
    O self = repeat (eye Dn) Cn /\
    forward self (Single x) = Ok out /\
    shape out = [V; Cn] /\
    forall v i, v < V -> i < Cn ->
      get out [v; i] = sum_n Cn (fun j => inner x Cn Dn v i j) /\
      get out [v; i] = sum_n Cn (fun j => bilinear (nth j (O self) (eye Dn)) x Cn Dn v i j).
Proof.
  intros HDn HCn HV Hs Hwf.
  set (self := {| C := Z.of_nat Cn; D := Z.of_nat Dn; O := repeat (eye Dn) Cn |}).
  destruct (forward_bilinear self x V Cn Dn (eye Dn) eq_refl eq_refl HDn HCn HV Hs Hwf)
    as (out & Hout & Hshape & Hget).
  { apply repeat_length. }
  { intros w Hw. apply repeat_spec in Hw. subst w. reflexivity. }
  exists self, out. split; [apply init_identity|]. split; [reflexivity|].
  split; [exact Hout|]. split; [exact Hshape|].
  intros v i Hv Hi. rewrite (Hget v i Hv Hi). split; [|reflexivity].
  apply sum_n_ext. intros j Hj. cbn [O self]. rewrite nth_repeat. apply bilinear_eye.
Qed.

(** C8, at a concrete input: two planar channels, (1, 2) and (3, 4), laid
    out component by component on one node. *)
Lemma identity_maps_sample :
  (1 < 2 /\ 0 < 2 /\ 0 < 1 /\ wf (Tensor [1; 4] [1%R; 3%R; 2%R; 4%R])) /\
  exists out,
    forward {| C := 2; D := 2; O := repeat (eye 2) 2 |}
            (Single (Tensor [1; 4] [1%R; 3%R; 2%R; 4%R])) = Ok out /\
    shape out = [1; 2] /\
    get out [0; 0] = 16%R /\ get out [0; 1] = 36%R.
Proof.
  split; [repeat split; lia|].
  destruct (identity_maps_give_inner_products (fun n => eye n)
              (Tensor [1; 4] [1%R; 3%R; 2%R; 4%R]) 1 2 2
              (Nat.lt_succ_diag_r 1) (Nat.lt_0_succ 1) (Nat.lt_0_succ 0) eq_refl eq_refl)
    as (self & out & Hinit & HO & Hout & Hshape & Hget).
  rewrite init_identity in Hinit. injection Hinit as <-.
  exists out. split; [exact Hout|]. split; [exact Hshape|].
  split.
  - rewrite (proj1 (Hget 0 0 (Nat.lt_0_succ 0) (Nat.lt_0_succ 1))).
    unfold inner, component, get. rewrite !sum_n_S, !sum_n_0. cbn. lra.
  - rewrite (proj1 (Hget 0 1 (Nat.lt_0_succ 0) (Nat.lt_succ_diag_r 1))).
    unfold inner, component, get. rewrite !sum_n_S, !sum_n_0. cbn. lra.
Defined.

End InnerProductsFacts.

(** ** [setup_layers] *)

Module LayersFacts.
Import Py Torch Layers PyFacts.

Lemma init_Ok (linear_weight : nat -> tensor R) (C D : Z) :
  (0 <= D)%Z ->
  exists self,
    InnerProductFeatures.init linear_weight C D = Ok self /\
    InnerProductFeatures.C self = C /\ InnerProductFeatures.D self = D.
Proof.
  intros HD. unfold InnerProductFeatures.init.
  rewrite (mapM_Ok_all _ (fun _ => linear_weight (Z.to_nat D)))
    by (intros a _; destruct (Z.ltb_spec D 0) as [?|_]; [lia | reflexivity]).
  cbn [bind]. unfold InnerProductFeatures.reset_parameters.
  cbn [InnerProductFeatures.C InnerProductFeatures.D InnerProductFeatures.O].
  rewrite (mapM_Ok_all _ (fun _ => eye (Z.to_nat D))).
  - cbn [bind]. eexists. split; [reflexivity|]. split; reflexivity.
  - intros a _. unfold InnerProductFeatures.eye_Z.
    destruct (Z.ltb_spec D 0) as [?|_]; [lia | reflexivity].
Qed.

Lemma geometric_sum_closed (e : Z) (o : nat) :
  (1 - e ^ (Z.of_nat o + 1) = geometric_sum e o * (1 - e))%Z.
Proof.
  induction o as [|o IH].
  - simpl. lia.
  - cbn [geometric_sum]. rewrite Z.mul_add_distr_r, <- IH.
    replace (Z.of_nat (S o) + 1)%Z with (Z.succ (Z.of_nat o + 1)) by lia.
    rewrite Z.pow_succ_r by lia.
    replace (Z.of_nat (S o)) with (Z.of_nat o + 1)%Z by lia. ring.
Qed.

Lemma cum_channels_gradient_one (s : Z) (o : nat) :
  cum_channels_gradient s 1 o = Raise ZeroDivisionError.
Proof. reflexivity. Qed.

Lemma cum_channels_gradient_sum (s e : Z) (o : nat) :
  e <> 1%Z -> cum_channels_gradient s e o = Ok (s * geometric_sum e o)%Z.
Proof.
  intros He. unfold cum_channels_gradient, floordiv.
  destruct (Z.eqb_spec (1 - e) 0) as [Hz|Hz]; [lia|]. simpl.
  rewrite geometric_sum_closed, Z.div_mul by exact Hz. reflexivity.
Qed.

(** C10.  With [emb_dim == 1] the quotient in the channel count divides by
    zero and [setup_layers] raises [ZeroDivisionError]; with
    [emb_dim >= 2] the channel count before the inner-product adjustment is
    [signal_dim * (emb_dim^0 + ... + emb_dim^order)], and without
    inner-product features and with a non-negative [signal_dim] this is the
    width [setup_layers] gives to the layers it returns. *)
Theorem setup_layers_cum_channels (linear_weight : nat -> tensor R) (par : params) :
  (emb_dim par = 1%Z -> setup_layers linear_weight par = Raise ZeroDivisionError) /\
  ((2 <= emb_dim par)%Z ->
   cum_channels_gradient (signal_dim par) (emb_dim par) (order par)
   = Ok (signal_dim par * geometric_sum (emb_dim par) (order par))%Z) /\
  ((2 <= emb_dim par)%Z -> (0 <= signal_dim par)%Z -> inner_product_features par = false ->
   exists l,
     setup_layers linear_weight par = Ok l /\
     mlp_in_channels (mlp l)
     = (signal_dim par * geometric_sum (emb_dim par) (order par))%Z /\
     InnerProductFeatures.C (ip l)
     = (signal_dim par * geometric_sum (emb_dim par) (order par))%Z /\
     length (grad l) = order par).
Proof.
  split; [|split].
  - intros He. unfold setup_layers. rewrite He, cum_channels_gradient_one. reflexivity.
  - intros He. apply cum_channels_gradient_sum. lia.
  - intros He Hs Hipf. unfold setup_layers.
    rewrite cum_channels_gradient_sum by lia. cbn [bind].
    rewrite Hipf. cbn [cum_channels_adjust bind].
    destruct (init_Ok linear_weight
                (signal_dim par * geometric_sum (emb_dim par) (order par))%Z
                (signal_dim par) Hs) as (self & -> & HC & _).
    cbn [bind]. eexists. split; [reflexivity|]. cbn [mlp ip grad mlp_in_channels].
    split; [reflexivity|]. split; [exact HC|]. rewrite length_map, length_seq. reflexivity.
Qed.

(** C10, at concrete parameters: [emb_dim = 1] fails, and with
    [signal_dim = 3], [emb_dim = 2], [order = 2] the count is
    [3 * (1 + 2 + 4) = 21]. *)
Lemma setup_layers_cum_channels_samples :
  setup_layers (fun n => eye n)
    {| signal_dim := 3; emb_dim := 1; order := 2; inner_product_features := true;
       depth := 1; hidden_channels := 16; out_channels := 3; n_lin_layers := 2;
       dropout := 0; batch_norm := false; bias := true |}
  = Raise ZeroDivisionError /\
  cum_channels_gradient 3 2 2 = Ok 21%Z.
Proof.
  split.
  - apply (proj1 (setup_layers_cum_channels (fun n => eye n)
                    {| signal_dim := 3; emb_dim := 1; order := 2;
                       inner_product_features := true;
                       depth := 1; hidden_channels := 16; out_channels := 3;
                       n_lin_layers := 2;
                       dropout := 0; batch_norm := false; bias := true |})).
    reflexivity.
  - apply (proj1 (proj2 (setup_layers_cum_channels (fun n => eye n)
                    {| signal_dim := 3; emb_dim := 2; order := 2;
                       inner_product_features := true;
                       depth := 1; hidden_channels := 16; out_channels := 3;
                       n_lin_layers := 2;
                       dropout := 0; batch_norm := false; bias := true |}))).
    cbn. lia.
Defined.

Example setup_layers_emb_dim_1 :
  setup_layers (fun n => eye n)
    {| signal_dim := 3; emb_dim := 1; order := 2; inner_product_features := true;
       depth := 1; hidden_channels := 16; out_channels := 3; n_lin_layers := 2;
       dropout := 0; batch_norm := false; bias := true |}
  = Raise ZeroDivisionError.
Proof. reflexivity. Qed.

Example cum_channels_gradient_3_2_2 : cum_channels_gradient 3 2 2 = Ok 21%Z.
Proof. reflexivity. Qed.

End LayersFacts.

(** ** [compare_attractors] *)

Module PostprocessingFacts.
Import Py Postprocessing.

(** C5.  The first assertion hands [hasattr] a tuple instead of a string,
    so every call raises [TypeError] before any check on the slices. *)
Theorem compare_attractors_raises_type_error (data : dataset) (source_target : Z * Z) :
  compare_attractors data source_target = Raise TypeError.
Proof. reflexivity. Qed.

(** The dataset of the failing input has been clustered. *)
Lemma data_4_slices_clustered : "emb_2d" ∈ attrs Samples.data_4_slices.
Proof. vm_compute. reflexivity. Qed.

Lemma postprocessing_stores_emb_2d (data data' : dataset) :
  postprocessing data = Ok data' -> "emb_2d" ∈ attrs data'.
Proof.
  unfold postprocessing. destruct (bool_decide _); [|discriminate].
  destruct (slice_dict data !! "x"); [|discriminate].
  intros [= <-]. cbn [attrs]. unfold stored_attrs. set_solver.
Qed.

(** The checks on the slices, taken on their own: with four slices the
    pair (0, 1) passes. *)
Example slice_checks_4_slices :
  slice_checks [0; 5; 10; 15; 20]%Z 0 1
  = Ok ([0; 1; 2; 3; 4]%Z, [5; 6; 7; 8; 9]%Z).
Proof. reflexivity. Qed.

(** With two slices the only pair of distinct valid indices is refused. *)
Example slice_checks_2_slices :
  slice_checks [0; 5; 10]%Z 0 1 = Raise (AssertionError slices_message).
Proof. reflexivity. Qed.

(** With four slices the valid source index 2 is refused. *)
Example slice_checks_source_2_of_4 :
  slice_checks [0; 5; 10; 15; 20]%Z 2 0 = Raise (AssertionError slices_message).
Proof. reflexivity. Qed.

(** An index past the end raises [IndexError] before the assertions. *)
Example slice_checks_out_of_range :
  slice_checks [0; 5; 10; 15; 20]%Z 0 7 = Raise IndexError.
Proof. reflexivity. Qed.

End PostprocessingFacts.

(* ===================================================================== *)
(** * Further properties *)
(* ===================================================================== *)

(** ** [setup_layers] with inner-product features *)

Module SetupFacts.
Import Py Torch Layers PyFacts LayersFacts.

Lemma cum_channels_adjust_ipf (s : Z) (o : nat) (G : Z) :
  s <> 0%Z ->
  cum_channels_adjust true s o (s * G)
  = Ok (if (s =? 1)%Z then (Z.of_nat o + 1)%Z else G).
Proof.
  intros Hs. unfold cum_channels_adjust, floordiv.
  destruct (Z.eqb_spec s 0) as [?|_]; [contradiction|]. cbn [bind].
  rewrite (Z.mul_comm s G), Z.div_mul by exact Hs.
  destruct (s =? 1)%Z; reflexivity.
Qed.

(** With inner-product features, whatever [setup_layers] returns has one
    common width, [order + 1] for a scalar signal and
    [emb_dim^0 + ... + emb_dim^order] otherwise: the reducer is built for
    that many channels of dimension [signal_dim], every convolution and
    the perceptron take that many inputs, there are [depth] convolutions
    and [order] gradient layers, and the diffusion time starts at 0.  It
    returns nothing when [emb_dim] is 1 or [signal_dim] is 0. *)
Theorem setup_layers_inner_product_widths (linear_weight : nat -> tensor R) (par : params)
    (l : layers) :
  setup_layers linear_weight par = Ok l -> inner_product_features par = true ->
  emb_dim par <> 1%Z /\ signal_dim par <> 0%Z /\
  mlp_in_channels (mlp l)
  = (if (signal_dim par =? 1)%Z then (Z.of_nat (order par) + 1)%Z
     else geometric_sum (emb_dim par) (order par)) /\
  InnerProductFeatures.C (ip l) = mlp_in_channels (mlp l) /\
  InnerProductFeatures.D (ip l) = signal_dim par /\
  length (InnerProductFeatures.O (ip l)) = Z.to_nat (mlp_in_channels (mlp l)) /\
  length (convs l) = depth par /\
  (forall c, In c (convs l) ->
     gcn_in_channels c = mlp_in_channels (mlp l) /\
     gcn_out_channels c = mlp_in_channels (mlp l)) /\
  length (grad l) = order par /\
  Diffusion.diffusion_time (diffusion l) = Float32.zero.
Proof.
  intros Hl Hipf. unfold setup_layers in Hl.
  assert (He : emb_dim par <> 1%Z).
  { intros He. rewrite He, cum_channels_gradient_one in Hl. discriminate Hl. }
  rewrite cum_channels_gradient_sum in Hl by exact He. cbn [bind] in Hl.
  rewrite Hipf in Hl.
  assert (Hs : signal_dim par <> 0%Z).
  { intros Hs. rewrite Hs in Hl. discriminate Hl. }
  rewrite cum_channels_adjust_ipf in Hl by exact Hs. cbn [bind] in Hl.
  set (w := if (signal_dim par =? 1)%Z then (Z.of_nat (order par) + 1)%Z
            else geometric_sum (emb_dim par) (order par)) in *.
  apply bind_Ok_inv in Hl as (self & Hself & Hl). injection Hl as <-.
  cbn [mlp ip grad convs diffusion mlp_in_channels].
  unfold InnerProductFeatures.init in Hself.
  apply bind_Ok_inv in Hself as (ws & Hws & Hself).
  unfold InnerProductFeatures.reset_parameters in Hself.
  apply bind_Ok_inv in Hself as (ws' & Hws' & Hself). injection Hself as <-.
  cbn [InnerProductFeatures.C InnerProductFeatures.D InnerProductFeatures.O] in *.
  apply mapM_length in Hws, Hws'. rewrite length_seq in Hws.
  split; [exact He|]. split; [exact Hs|]. split; [reflexivity|]. split; [reflexivity|].
  split; [reflexivity|]. split; [congruence|].
  split; [rewrite length_map, length_seq; reflexivity|].
  split; [|split; [rewrite length_map, length_seq; reflexivity | reflexivity]].
  intros c Hc. apply in_map_iff in Hc as (i & <- & _). split; reflexivity.
Qed.

Lemma setup_layers_inner_product_widths_sample :
  exists l,
    setup_layers (fun n => eye n)
      {| signal_dim := 3; emb_dim := 2; order := 2; inner_product_features := true;
         depth := 2; hidden_channels := 16; out_channels := 3; n_lin_layers := 2;
         dropout := 0; batch_norm := false; bias := true |} = Ok l /\
    mlp_in_channels (mlp l) = 7%Z /\ InnerProductFeatures.C (ip l) = 7%Z /\
    length (convs l) = 2.
Proof.
  eexists. split; [reflexivity|].
  destruct (setup_layers_inner_product_widths (fun n => eye n)
              {| signal_dim := 3; emb_dim := 2; order := 2; inner_product_features := true;
                 depth := 2; hidden_channels := 16; out_channels := 3; n_lin_layers := 2;
                 dropout := 0; batch_norm := false; bias := true |}
              _ eq_refl eq_refl)
    as (_ & _ & Hw & HC & _ & _ & Hc & _).
  split; [exact Hw|]. split; [rewrite HC; exact Hw | exact Hc].
Defined.

(** A [signal_dim] of 0 with inner-product features: the adjustment of the
    channel count divides by it, and [setup_layers] raises
    [ZeroDivisionError] before any layer after the gradient layers is
    built. *)
Theorem setup_layers_signal_dim_zero (linear_weight : nat -> tensor R) (par : params) :
  emb_dim par <> 1%Z -> signal_dim par = 0%Z -> inner_product_features par = true ->
  setup_layers linear_weight par = Raise ZeroDivisionError.
Proof.
  intros He Hs Hipf. unfold setup_layers.
  rewrite cum_channels_gradient_sum by exact He. cbn [bind]. rewrite Hs, Hipf.
  reflexivity.
Qed.

Lemma setup_layers_signal_dim_zero_sample :
  ((2 <> 1)%Z /\ 0%Z = 0%Z) /\
  setup_layers (fun n => eye n)
    {| signal_dim := 0; emb_dim := 2; order := 2; inner_product_features := true;
       depth := 2; hidden_channels := 16; out_channels := 3; n_lin_layers := 2;
       dropout := 0; batch_norm := false; bias := true |} = Raise ZeroDivisionError.
Proof.
  split; [split; [discriminate | reflexivity]|].
  apply (setup_layers_signal_dim_zero (fun n => eye n)
           {| signal_dim := 0; emb_dim := 2; order := 2;
              inner_product_features := true;
              depth := 2; hidden_channels := 16; out_channels := 3;
              n_lin_layers := 2;
              dropout := 0; batch_norm := false; bias := true |}
           ltac:(discriminate) eq_refl eq_refl).
Defined.

End SetupFacts.

(** ** The reducer built by [setup_layers] fits the features it is given *)

Module PipelineFacts.
Import Py Torch Layers InnerProductFeatures PyFacts TorchFacts.
Import InnerProductFeaturesFacts InnerProductsFacts LayersFacts SetupFacts.

Lemma pow_sum_S_r (e k n : nat) : pow_sum e k (S n) = pow_sum e k n + e ^ (k + n).
Proof.
  revert k. induction n as [|n IH]; intros k.
  - cbn [pow_sum]. replace (k + 0) with k by lia. lia.
  - change (pow_sum e k (S (S n))) with (e ^ k + pow_sum e (S k) (S n)).
    rewrite IH. cbn [pow_sum]. replace (S k + n) with (k + S n) by lia. lia.
Qed.

Lemma pow_sum_pos (e n : nat) : 0 < pow_sum e 0 (S n).
Proof. cbn [pow_sum Nat.pow]. lia. Qed.

Lemma geometric_sum_of_nat (e o : nat) :
  geometric_sum (Z.of_nat e) o = Z.of_nat (pow_sum e 0 (S o)).
Proof.
  induction o as [|o IH]; [reflexivity|].
  rewrite pow_sum_S_r. cbn [geometric_sum]. rewrite IH, Nat2Z.inj_add, Nat2Z.inj_pow.
  reflexivity.
Qed.

(** The channels of the features of orders [k], [k+1], ... of a signal of
    dimension [sn] under [en] kernels. *)
Lemma channel_count_pow (sn en k : nat) (xs : list (tensor R)) (d : tensor R) :
  0 < sn ->
  (forall i, i < length xs -> width (nth i xs d) = sn * en ^ (k + i)) ->
  channel_count sn xs = pow_sum en k (length xs).
Proof.
  intros Hsn. revert k. induction xs as [|x xs IH]; intros k Hw; [reflexivity|].
  unfold channel_count in *. cbn [map fold_right length pow_sum].
  rewrite (IH (S k)).
  - pose proof (Hw 0 (Nat.lt_0_succ _)) as H0. cbn [nth] in H0.
    rewrite H0, Nat.add_0_r, Nat.mul_comm, Nat.div_mul by lia. reflexivity.
  - intros i Hi. specialize (Hw (S i)). cbn [nth length] in Hw.
    rewrite Hw by lia. f_equal. f_equal. lia.
Qed.

(** The vector branch of the reducer up to its channel check, on a list. *)
Lemma forward_vector_check (self : t) (x : input) (V Dn : nat) :
  D self = Z.of_nat Dn -> 1 < Dn -> as_list x <> [] -> 0 < V ->
  (forall t, In t (as_list x) -> shape t = [V; width t] /\ width t mod Dn = 0) ->
  Z.of_nat (channel_count Dn (as_list x)) = C self ->
  exists x3,
    shape x3 = [V; Dn; channel_count Dn (as_list x)] /\
    forward self x = inner_products self x3.
Proof.
  intros HD HDn Hne HV Hxs HC. unfold forward. set (xs := as_list x) in *.
  set (g := fun x_ : tensor R => Tensor [V; Dn; width x_ / Dn] (data x_)).
  rewrite (mapM_Ok_all _ g).
  2:{ intros t Ht. destruct (Hxs t Ht) as (Hs & Hm).
      apply (reshape_step (D self) t V Dn (width t / Dn) HD); [lia | exact HV |].
      rewrite Hs at 1. f_equal. f_equal.
      apply Nat.Div0.div_exact in Hm. exact Hm. }
  cbn [bind].
  destruct (Z.eqb_spec (D self) 1) as [?|_]; [lia|].
  destruct (cat_last_channels (map g xs) V Dn) as (x3 & Hcat & Hshape).
  { destruct xs; [contradiction | discriminate]. }
  { intros t3 Ht3. apply in_map_iff in Ht3 as (t & <- & Ht). eexists. reflexivity. }
  rewrite map_map in Hshape. cbn [g shape nth] in Hshape.
  fold (channel_count Dn xs) in Hshape.
  rewrite Hcat. cbn [bind]. unfold shape_at. rewrite Hshape. cbn [lookup list_lookup bind].
  rewrite HC, Z.eqb_refl. cbn [assert bind]. exists x3. split; [exact Hshape | reflexivity].
Qed.

(** For a vector signal of dimension [sn >= 2] and [en] kernels, the
    features of orders 0 to [order] have [sn * en^i] columns.  The reducer
    among the layers that [setup_layers] returns with inner-product
    features accepts that list: the channel check passes, and the result
    has one row per node and as many columns as the perceptron takes
    inputs. *)
Theorem reducer_fits_vector_features (linear_weight : nat -> tensor R) (par : params)
    (l : layers) (V sn en : nat) (xs : list (tensor R)) (d : tensor R) :
  setup_layers linear_weight par = Ok l ->
  signal_dim par = Z.of_nat sn -> 1 < sn ->
  emb_dim par = Z.of_nat en -> en <> 1 ->
  inner_product_features par = true -> 0 < V ->
  length xs = S (order par) ->
  (forall i, i < length xs -> shape (nth i xs d) = [V; sn * en ^ i]) ->
  exists out,
    forward (ip l) (Many xs) = Ok out /\
    shape out = [V; pow_sum en 0 (S (order par))] /\
    mlp_in_channels (mlp l) = Z.of_nat (pow_sum en 0 (S (order par))).
Proof.
  intros Hret Hs Hsn He Hen Hipf HV Hlen Hxs.
  set (Cn := pow_sum en 0 (S (order par))).
  set (self := {| C := Z.of_nat Cn; D := Z.of_nat sn; O := repeat (eye sn) Cn |}).
  assert (Hsetup : exists l, setup_layers linear_weight par = Ok l /\ ip l = self /\
                             mlp_in_channels (mlp l) = Z.of_nat Cn).
  { unfold setup_layers. rewrite cum_channels_gradient_sum by (rewrite He; lia).
    cbn [bind]. rewrite Hipf, cum_channels_adjust_ipf by lia. cbn [bind].
    destruct (Z.eqb_spec (signal_dim par) 1) as [?|_]; [lia|].
    rewrite He, geometric_sum_of_nat, Hs, init_identity. cbn [bind].
    eexists. split; [reflexivity|]. split; reflexivity. }
  destruct Hsetup as (l' & Hl & Hip & Hmlp).
  assert (l' = l) by congruence. subst l'. clear Hl.
  assert (Hcc : channel_count sn xs = Cn).
  { unfold Cn. rewrite <- Hlen. apply (channel_count_pow sn en 0 xs d); [lia|].
    intros i Hi. unfold width. rewrite (Hxs i Hi). reflexivity. }
  destruct (forward_vector_check self (Many xs) V sn eq_refl Hsn) as (x3 & Hx3 & Hfwd).
  { cbn [as_list]. destruct xs; [discriminate Hlen | discriminate]. }
  { exact HV. }
  { cbn [as_list]. intros t Ht. destruct (In_nth xs t d Ht) as (i & Hi & <-).
    unfold width. rewrite (Hxs i Hi). cbn [nth]. split; [reflexivity|].
    rewrite Nat.mul_comm. apply Nat.Div0.mod_mul. }
  { cbn [as_list C self]. rewrite Hcc. reflexivity. }
  cbn [as_list] in Hx3. rewrite Hcc in Hx3.
  destruct (inner_products_entries self x3 V sn Cn d eq_refl Hx3 HV)
    as (out & Hout & Hshape & _).
  { apply pow_sum_pos. }
  { apply repeat_length. }
  { intros w Hw. apply repeat_spec in Hw. subst w. reflexivity. }
  exists out. rewrite Hip, Hfwd. auto.
Qed.

(** For a scalar signal the reducer among the layers returned by
    [setup_layers] has [D = 1]: it turns the [order + 1] feature matrices,
    whatever their widths, into [order + 1] columns, again as many as the
    perceptron takes inputs. *)
Theorem reducer_fits_scalar_features (linear_weight : nat -> tensor R) (par : params)
    (l : layers) (V : nat) (xs : list (tensor R)) :
  setup_layers linear_weight par = Ok l ->
  signal_dim par = 1%Z ->
  inner_product_features par = true -> 0 < V ->
  length xs = S (order par) ->
  (forall t, In t xs -> exists c, shape t = [V; c]) ->
  exists out,
    forward (ip l) (Many xs) = Ok out /\
    shape out = [V; S (order par)] /\
    mlp_in_channels (mlp l) = Z.of_nat (S (order par)).
Proof.
  intros Hret Hs Hipf HV Hlen Hxs.
  assert (He : emb_dim par <> 1%Z).
  { intros He. unfold setup_layers in Hret.
    rewrite He, cum_channels_gradient_one in Hret. discriminate Hret. }
  assert (Hsetup : exists l, setup_layers linear_weight par = Ok l /\ D (ip l) = 1%Z /\
                             mlp_in_channels (mlp l) = Z.of_nat (S (order par))).
  { unfold setup_layers. rewrite cum_channels_gradient_sum by exact He.
    cbn [bind]. rewrite Hipf, cum_channels_adjust_ipf by lia. cbn [bind].
    rewrite Hs. cbn [Z.eqb Pos.eqb].
    destruct (init_Ok linear_weight (Z.of_nat (order par) + 1) 1) as (self & -> & _ & HD);
      [lia|].
    cbn [bind]. eexists. split; [reflexivity|]. split; [exact HD|].
    cbn [mlp mlp_in_channels]. lia. }
  destruct Hsetup as (l' & Hl & HD & Hmlp).
  assert (l' = l) by congruence. subst l'. clear Hl.
  destruct (forward_scalar (ip l) (Many xs) V (Tensor [] []) HD) as (out & Hout & Hshape & _).
  { cbn [as_list]. destruct xs; [discriminate Hlen | discriminate]. }
  { exact HV. }
  { exact Hxs. }
  cbn [as_list] in Hshape. rewrite Hlen in Hshape.
  exists out. auto.
Qed.

Lemma reducer_fits_vector_features_sample :
  exists l,
    setup_layers (fun n => eye n)
      {| signal_dim := 2; emb_dim := 2; order := 1; inner_product_features := true;
         depth := 1; hidden_channels := 16; out_channels := 3; n_lin_layers := 2;
         dropout := 0; batch_norm := false; bias := true |} = Ok l /\
    exists out,
      forward (ip l) (Many [Tensor [1; 2] [1; 2]%R; Tensor [1; 4] [1; 2; 3; 4]%R]) = Ok out /\
      shape out = [1; 3] /\ mlp_in_channels (mlp l) = 3%Z.
Proof.
  eexists. split; [reflexivity|].
  apply (reducer_fits_vector_features (fun n => eye n)
           {| signal_dim := 2; emb_dim := 2; order := 1; inner_product_features := true;
              depth := 1; hidden_channels := 16; out_channels := 3; n_lin_layers := 2;
              dropout := 0; batch_norm := false; bias := true |}
           _ 1 2 2 [Tensor [1; 2] [1; 2]%R; Tensor [1; 4] [1; 2; 3; 4]%R] (Tensor [] [])
           eq_refl eq_refl (Nat.lt_succ_diag_r 1) eq_refl ltac:(discriminate) eq_refl
           (Nat.lt_0_succ 0) eq_refl).
  intros [|[|i]] Hi; [reflexivity | reflexivity | cbn in Hi; lia].
Defined.

Lemma reducer_fits_scalar_features_sample :
  exists l,
    setup_layers (fun n => eye n)
      {| signal_dim := 1; emb_dim := 2; order := 1; inner_product_features := true;
         depth := 1; hidden_channels := 16; out_channels := 3; n_lin_layers := 2;
         dropout := 0; batch_norm := false; bias := true |} = Ok l /\
    exists out,
      forward (ip l) (Many [Samples.x_scalar; Samples.x_grad]) = Ok out /\
      shape out = [1; 2] /\ mlp_in_channels (mlp l) = 2%Z.
Proof.
  eexists. split; [reflexivity|].
  apply (reducer_fits_scalar_features (fun n => eye n)
           {| signal_dim := 1; emb_dim := 2; order := 1; inner_product_features := true;
              depth := 1; hidden_channels := 16; out_channels := 3; n_lin_layers := 2;
              dropout := 0; batch_norm := false; bias := true |}
           _ 1 [Samples.x_scalar; Samples.x_grad]
           eq_refl eq_refl eq_refl (Nat.lt_0_succ 0) eq_refl).
  intros t [<-|[<-|[]]]; eexists; reflexivity.
Defined.

End PipelineFacts.

(** ** [AnisoConv]: edges of the domain and composition *)

Module AnisoConvMore.
Import Py Torch AnisoConv PyFacts TorchFacts AnisoConvFacts.

Section WithGraph.
Context {A : Type} `{Scalar A}.
Variable EdgeIndex : Type.
Variable Kernels : Type.
Variable to_list : Kernels -> list (tensor A).
Variable to_SparseTensor : EdgeIndex -> nat * nat -> tensor A -> tensor A.
Variable to_dense_adj : EdgeIndex -> tensor A.
Variable dense_to_sparse : tensor A -> EdgeIndex.
Variable sparse_matmul : tensor A -> tensor A -> string -> result (tensor A).

Local Abbreviation message_and_aggregate' := (message_and_aggregate sparse_matmul).
Local Abbreviation apply_kernel' := (apply_kernel EdgeIndex to_SparseTensor sparse_matmul).
Local Abbreviation forward' :=
  (forward EdgeIndex Kernels to_list to_SparseTensor to_dense_adj dense_to_sparse
     sparse_matmul).
Local Abbreviation expand' :=
  (expand_adjacenecy_matrix EdgeIndex to_dense_adj dense_to_sparse).

(** With no kernel there is nothing to stack: [forward] returns nothing,
    with or without rotations. *)
Theorem forward_without_kernels self x e size kernels Rot :
  to_list kernels = [] ->
  forall out,
    forward EdgeIndex Kernels to_list to_SparseTensor to_dense_adj dense_to_sparse
      sparse_matmul self x e size kernels Rot <> Ok out.
Proof.
  intros Hk out Hout. apply forward_inv in Hout
    as (e' & size' & Rb & outs & stacked & rows & Houts & Hst & _).
  rewrite Hk in Houts. cbn in Houts. injection Houts as <-. discriminate Hst.
Qed.

(** Whenever [forward] returns, the output has one block of [k] columns
    per input column. *)
Lemma forward_shape self x e size kernels Rot out (n ch : nat) :
  shape x = [n; ch] -> forward' self x e size kernels Rot = Ok out ->
  exists rows, 0 < rows /\ 0 < ch /\ 0 < length (to_list kernels) /\
               shape out = [rows; length (to_list kernels) * ch].
Proof.
  intros Hx Hout.
  apply forward_inv in Hout
    as (e' & size' & Rb & outs & stacked & rows & Houts & Hst & Hrows & Hv).
  pose proof (mapM_length _ _ _ Houts) as Hlen.
  destruct (stack_last_inv outs stacked x Hst) as (r & c & Hshapes & Hss & _).
  destruct outs as [|o outs']; [discriminate Hst|].
  destruct (mapM_In _ _ _ o Houts (or_introl eq_refl)) as (K & _ & HK).
  destruct (apply_kernel_shape EdgeIndex to_SparseTensor sparse_matmul self x e' size' Rb
              K o n ch Hx HK) as (Hch & r' & Hr').
  rewrite (Hshapes o (or_introl eq_refl)) in Hr'. injection Hr' as -> ->.
  unfold shape_at in Hrows. rewrite Hss in Hrows. cbn in Hrows. injection Hrows as <-.
  destruct (flatten_stacked stacked out r' ch (length (o :: outs')) Hss Hv) as (Hr & Hso & _).
  rewrite Hlen in Hso. exists r'. repeat split; try assumption.
  rewrite <- Hlen. cbn. lia.
Qed.

(** Gradient features of order two: feeding the output of one call into a
    second call multiplies the number of columns by the number of kernels
    once more. *)
Theorem forward_twice_columns self1 self2 x e1 e2 size1 size2 ks1 ks2 Rot1 Rot2 out1 out2
    (n ch : nat) :
  shape x = [n; ch] ->
  forward EdgeIndex Kernels to_list to_SparseTensor to_dense_adj dense_to_sparse
    sparse_matmul self1 x e1 size1 ks1 Rot1 = Ok out1 ->
  forward EdgeIndex Kernels to_list to_SparseTensor to_dense_adj dense_to_sparse
    sparse_matmul self2 out1 e2 size2 ks2 Rot2 = Ok out2 ->
  exists rows,
    shape out2 = [rows; length (to_list ks2) * (length (to_list ks1) * ch)].
Proof.
  intros Hx H1 H2.
  destruct (forward_shape self1 x e1 size1 ks1 Rot1 out1 n ch Hx H1)
    as (r1 & _ & _ & _ & Hs1).
  destruct (forward_shape self2 out1 e2 size2 ks2 Rot2 out2 _ _ Hs1 H2)
    as (r2 & _ & _ & _ & Hs2).
  exists r2. exact Hs2.
Qed.

(** The sizes [message_and_aggregate] cannot handle, whatever the library
    does: a signal that is not a matrix cannot be unpacked, a signal
    without rows and a kernel without columns divide by zero, and a signal
    without columns cannot be viewed. *)
Theorem message_and_aggregate_degenerate self (K_t x : tensor A) :
  ((forall n dim, shape x <> [n; dim]) ->
   message_and_aggregate' self K_t x = Raise ValueError) /\
  (forall dim rows cols, shape x = [0; dim] -> shape K_t = [rows; cols] ->
   message_and_aggregate' self K_t x = Raise ZeroDivisionError) /\
  (forall n dim rows, shape x = [n; dim] -> 0 < n -> shape K_t = [rows; 0] ->
   message_and_aggregate' self K_t x = Raise ZeroDivisionError) /\
  (forall n rows cols, shape x = [n; 0] -> 0 < n -> 0 < cols -> shape K_t = [rows; cols] ->
   message_and_aggregate' self K_t x = Raise RuntimeError).
Proof.
  unfold message_and_aggregate, unpack2, shape_at, modulo_nat, floordiv_nat.
  split; [|split; [|split]].
  - intros Hx. destruct (shape x) as [|a [|b [|c sh]]]; try reflexivity.
    exfalso. apply (Hx a b). reflexivity.
  - intros dim rows cols -> ->. reflexivity.
  - intros n dim rows -> Hn ->. cbn [lookup list_lookup bind].
    destruct (Nat.eqb_spec n 0) as [?|_]; [lia|]. cbn [bind].
    rewrite Nat.Div0.mod_0_l. reflexivity.
  - intros n rows cols Hx Hn Hc HK. rewrite Hx, HK. cbn [lookup list_lookup bind].
    destruct (Nat.eqb_spec n 0) as [?|_]; [lia|]. cbn [bind].
    rewrite Nat.mul_0_r. cbn [Nat.eqb].
    destruct (Nat.eqb_spec cols 0) as [?|_]; [lia|]. cbn [bind].
    unfold view, infer_shape. cbn.
    replace (n * 0) with 0 by lia. rewrite Nat.Div0.div_0_l. reflexivity.
Qed.

(** Expanding the adjacency matrix of a graph on [r x c] nodes for vector
    spaces of dimension [dim]: the result is the sparse form of a
    well-formed [r*dim x c*dim] matrix in which every entry of the
    adjacency matrix fills a [dim x dim] block; with [dim = 0] the matrix
    is empty. *)
Theorem expand_adjacenecy_matrix_blocks (edge_index : EdgeIndex) (dim r c : nat) :
  shape (to_dense_adj edge_index) = [r; c] ->
  exists adj,
    expand' edge_index dim = Ok (dense_to_sparse adj) /\
    shape adj = [r * dim; c * dim] /\ wf adj /\
    (dim = 0 -> data adj = []) /\
    forall i j a b, i < r -> j < c -> a < dim -> b < dim ->
      get adj [i * dim + a; j * dim + b] = get (to_dense_adj edge_index) [i; j].
Proof.
  intros Hs. unfold expand_adjacenecy_matrix, repeat_interleave_cols.
  rewrite Hs. cbn [bind]. unfold repeat_interleave_rows. cbn [shape tabulate bind].
  eexists. split; [reflexivity|]. split; [reflexivity|]. split; [apply wf_tabulate|].
  split.
  - intros ->. apply length_zero_iff_nil. unfold tabulate at 1. cbn [data].
    rewrite length_tabulate_data. cbn [numel_of fold_right]. lia.
  - intros i j a b Hi Hj Ha Hb. rewrite get_tabulate by (apply inb2; nia).
    change (ix 0 [i * dim + a; j * dim + b]) with (i * dim + a).
    change (ix 1 [i * dim + a; j * dim + b]) with (j * dim + b).
    fold (tabulate [r; c * dim]
            (fun idx => get (to_dense_adj edge_index) [ix 0 idx; ix 1 idx / dim])).
    rewrite get_tabulate.
    + change (ix 0 [(i * dim + a) / dim; j * dim + b]) with ((i * dim + a) / dim).
      change (ix 1 [(i * dim + a) / dim; j * dim + b]) with (j * dim + b).
      rewrite !Nat.div_add_l, !Nat.div_small, !Nat.add_0_r by lia. reflexivity.
    + apply inb2; [|nia].
      rewrite Nat.div_add_l, Nat.div_small, Nat.add_0_r by lia. exact Hi.
Qed.

End WithGraph.

Lemma forward_without_kernels_sample :
  Samples.to_list_id [] = [] /\
  forall out,
    forward unit (list (tensor Z)) Samples.to_list_id Samples.to_SparseTensor_dense
      Samples.to_dense_adj_empty Samples.dense_to_sparse_unit Samples.sparse_matmul_sum
      init Samples.x_2x4 tt (2, 2) [] None <> Ok out.
Proof.
  split; [reflexivity|].
  apply (forward_without_kernels unit (list (tensor Z)) Samples.to_list_id
           Samples.to_SparseTensor_dense Samples.to_dense_adj_empty
           Samples.dense_to_sparse_unit Samples.sparse_matmul_sum
           init Samples.x_2x4 tt (2, 2) [] None eq_refl).
Defined.

Lemma forward_twice_columns_sample :
  exists out1 out2,
    forward unit (list (tensor Z)) Samples.to_list_id Samples.to_SparseTensor_dense
      Samples.to_dense_adj_empty Samples.dense_to_sparse_unit Samples.sparse_matmul_sum
      init Samples.x_2x4 tt (2, 2) [Samples.K_a; Samples.K_b; Samples.K_c] None = Ok out1 /\
    forward unit (list (tensor Z)) Samples.to_list_id Samples.to_SparseTensor_dense
      Samples.to_dense_adj_empty Samples.dense_to_sparse_unit Samples.sparse_matmul_sum
      init out1 tt (2, 2) [Samples.K_a; Samples.K_b] None = Ok out2 /\
    exists rows, shape out2 = [rows; 2 * (3 * 4)].
Proof.
  eexists. eexists.
  split; [vm_compute; reflexivity|]. split; [vm_compute; reflexivity|].
  eapply (forward_twice_columns unit (list (tensor Z)) Samples.to_list_id
            Samples.to_SparseTensor_dense Samples.to_dense_adj_empty
            Samples.dense_to_sparse_unit Samples.sparse_matmul_sum
            init init Samples.x_2x4 tt tt (2, 2) (2, 2)
            [Samples.K_a; Samples.K_b; Samples.K_c] [Samples.K_a; Samples.K_b]
            None None _ _ 2 4 eq_refl);
    vm_compute; reflexivity.
Defined.

Lemma expand_adjacenecy_matrix_blocks_sample :
  shape (Samples.to_dense_adj_self Samples.K_b) = [2; 2] /\
  exists adj,
    expand_adjacenecy_matrix (tensor Z) Samples.to_dense_adj_self
      Samples.dense_to_sparse_self Samples.K_b 3 = Ok adj /\
    shape adj = [6; 6] /\
    get adj [0 * 3 + 2; 1 * 3 + 2] = get Samples.K_b [0; 1].
Proof.
  split; [reflexivity|].
  destruct (expand_adjacenecy_matrix_blocks (tensor Z) Samples.to_dense_adj_self
              Samples.dense_to_sparse_self Samples.K_b 3 2 2 eq_refl)
    as (adj & Hadj & Hshape & _ & _ & Hget).
  exists adj. split; [exact Hadj|]. split; [exact Hshape|].
  apply (Hget 0 1 2 2); lia.
Defined.

End AnisoConvMore.

(** ** [Diffusion]: the scalar branch, refused calls and the stored time *)

Module DiffusionMore.
Import Py Torch Float32 Diffusion PyFacts TorchFacts DiffusionFacts.
Import InnerProductFeaturesFacts.

(** The block of index [j] of a concatenation of blocks of one length. *)
Lemma block_flat_map_seq {B : Type} (g : nat -> list B) (s n m j : nat) :
  (forall i, s <= i < s + n -> length (g i) = m) -> j < n ->
  firstn m (skipn (j * m) (flat_map g (seq s n))) = g (s + j).
Proof.
  revert s j. induction n as [|n IH]; intros s j Hg Hj; [lia|].
  cbn [seq flat_map]. pose proof (Hg s ltac:(lia)) as Hs. destruct j as [|j].
  - change (skipn (0 * m) (g s ++ flat_map g (seq (S s) n)))
      with (g s ++ flat_map g (seq (S s) n)).
    rewrite firstn_app, Hs, Nat.sub_diag, Nat.add_0_r.
    cbn [firstn]. rewrite app_nil_r. apply firstn_all2. lia.
  - rewrite skipn_app, Hs, skipn_all2 by lia. cbn [app].
    replace (S j * m - m) with (j * m) by lia.
    rewrite IH by (try lia; intros i Hi; apply Hg; lia).
    f_equal. lia.
Qed.

(** [for x_ in x.T] runs over the columns of [x]. *)
Lemma unbind_transpose (x : tensor R) (V K : nat) :
  shape x = [V; K] ->
  (let* xT := transpose x in unbind xT) = Ok (map (column x) (seq 0 K)).
Proof.
  intros Hx. unfold transpose. rewrite Hx. cbn [bind]. unfold unbind, tabulate.
  cbn [shape data]. f_equal. apply map_ext_in. intros j Hj. apply in_seq in Hj.
  unfold column. rewrite Hx. cbn [nth]. f_equal.
  cbn [numel_of fold_right tabulate_data]. rewrite Nat.mul_1_r.
  rewrite (block_flat_map_seq _ 0 K V j); [| |lia].
  - cbn [Nat.add]. apply flat_map_singletons. intros i _. reflexivity.
  - intros i _. rewrite (length_flat_map_seq _ 0 V 1); [lia|]. intros; reflexivity.
Qed.

Section WithLibrary.
Variable compute_eigendecomposition : tensor R -> tensor R * tensor R.
Variable vector_diffusion : tensor R -> float32 -> string -> par -> tensor R.
Variable scalar_diffusion : tensor R -> float32 -> string -> par -> tensor R.

Local Abbreviation ensure := (ensure_eigendecomposition compute_eigendecomposition).
Local Abbreviation fwd := (forward compute_eigendecomposition vector_diffusion scalar_diffusion).
Local Abbreviation scalar_par := (scalar_par compute_eigendecomposition).

Lemma ensure_L (L : tensor R) (method : string) :
  ensure method {[ "L" := Some L ]} L = (scalar_par L method, eigendecomposition_step L method).
Proof.
  unfold scalar_par, eigendecomposition_step.
  destruct (String.eqb_spec method "spectral") as [->|Hm].
  - apply ensure_fresh. discriminate.
  - apply ensure_other. exact Hm.
Qed.

Lemma ensure_Lc (Lc : tensor R) (method : string) :
  snd (ensure method {[ "Lc" := Some Lc ]} Lc) = eigendecomposition_step Lc method.
Proof.
  unfold eigendecomposition_step.
  destruct (String.eqb_spec method "spectral") as [->|Hm].
  - rewrite ensure_fresh by discriminate. reflexivity.
  - rewrite ensure_other by exact Hm. reflexivity.
Qed.

Lemma forward_scalar_branch self x L method normalise (V K : nat) :
  shape x = [V; K] ->
  fwd self x L None method normalise
  = ({| diffusion_time := clamp_min (diffusion_time self) eps |},
     eigendecomposition_step L method
       ++ map (fun x_ => scalar_diffusion_call x_ (clamp_min (diffusion_time self) eps) method
                           (scalar_par L method))
              (map (column x) (seq 0 K)),
     cat_last 2 (map (fun x_ => scalar_diffusion x_ (clamp_min (diffusion_time self) eps) method
                                  (scalar_par L method))
                     (map (column x) (seq 0 K)))).
Proof.
  intros Hx. unfold forward. rewrite ensure_L, (unbind_transpose x V K Hx). reflexivity.
Qed.

(** Without a connection Laplacian, a signal with [K] columns is diffused
    column by column: after the eigendecomposition of [L] (spectral method
    only) the library is called [K] times, the call of index [j] on column
    [j] of the signal, every call with the stored time and the one
    dictionary of the scalar branch; what it returns is concatenated. *)
Theorem scalar_diffusion_column_by_column self x L method normalise (V K : nat) :
  shape x = [V; K] ->
  log_of (fwd self x L None method normalise)
  = eigendecomposition_step L method
      ++ map (fun j => scalar_diffusion_call (column x j)
                         (clamp_min (diffusion_time self) eps) method (scalar_par L method))
             (seq 0 K) /\
  result_of (fwd self x L None method normalise)
  = cat_last 2 (map (fun j => scalar_diffusion (column x j)
                                (clamp_min (diffusion_time self) eps) method
                                (scalar_par L method))
                    (seq 0 K)).
Proof.
  intros Hx. rewrite (forward_scalar_branch self x L method normalise V K Hx).
  unfold log_of, result_of. cbn [fst snd]. rewrite !map_map. split; reflexivity.
Qed.

(** The result of the scalar branch.  A signal without columns leaves
    nothing to concatenate and the call returns nothing; when the library
    returns a column of [V] entries for every column of the signal, the
    result is a [V x K] matrix whose column [j] is the diffused column
    [j]. *)
Theorem scalar_diffusion_result self x L method normalise (V K : nat) :
  shape x = [V; K] ->
  (K = 0 -> forall out, result_of (fwd self x L None method normalise) <> Ok out) /\
  (0 < K ->
   (forall j, j < K ->
      shape (scalar_diffusion (column x j) (clamp_min (diffusion_time self) eps) method
               (scalar_par L method)) = [V; 1] /\
      wf (scalar_diffusion (column x j) (clamp_min (diffusion_time self) eps) method
            (scalar_par L method))) ->
   exists out,
     result_of (fwd self x L None method normalise) = Ok out /\
     shape out = [V; K] /\
     forall v j, v < V -> j < K ->
       get out [v; j]
       = get (scalar_diffusion (column x j) (clamp_min (diffusion_time self) eps) method
                (scalar_par L method)) [v; 0]).
Proof.
  intros Hx. rewrite (forward_scalar_branch self x L method normalise V K Hx).
  unfold result_of. cbn [snd]. rewrite map_map. split.
  - intros -> out. discriminate.
  - intros HK Hlib.
    set (f := fun j => scalar_diffusion (column x j) (clamp_min (diffusion_time self) eps)
                         method (scalar_par L method)) in *.
    destruct (cat_last_columns (map f (seq 0 K)) V (f 0)) as (out & Hout & Hshape & Hget).
    + destruct K; [lia | discriminate].
    + intros t Ht. apply in_map_iff in Ht as (j & <- & Hj). apply in_seq in Hj.
      apply Hlib. lia.
    + rewrite length_map, length_seq in Hshape, Hget.
      exists out. split; [exact Hout|]. split; [exact Hshape|].
      intros v j Hv Hj. rewrite (Hget v j Hv Hj).
      rewrite (map_nth f), seq_nth by exact Hj. reflexivity.
Qed.

(** The eigendecomposition comes before the dimension check.  A vector
    call that the check refuses has already computed the decomposition
    when the method is spectral, and has made no diffusion call. *)
Theorem refused_call_decomposes_first self x L Lc method normalise
    (V K rows : nat) (rest : list nat) :
  shape x = [V; K] -> shape Lc = rows :: rest -> 0 < rows -> (V * K) mod rows <> 0 ->
  result_of (fwd self x L (Some Lc) method normalise)
  = Raise (AssertionError dimension_message) /\
  log_of (fwd self x L (Some Lc) method normalise) = eigendecomposition_step Lc method /\
  times_used (log_of (fwd self x L (Some Lc) method normalise)) = [].
Proof.
  intros Hx HLc Hrows Hm. pose proof (ensure_Lc Lc method) as He.
  unfold forward, result_of, log_of.
  destruct (ensure_eigendecomposition _ _ _ _) as [p log]. cbn [snd] in He. subst log.
  rewrite (check_dimension_spec x Lc V K rows rest Hx HLc Hrows).
  destruct (Nat.eqb_spec ((V * K) mod rows) 0) as [?|_]; [contradiction|].
  cbn [fst snd]. split; [reflexivity|]. split; [reflexivity|].
  unfold eigendecomposition_step. destruct (String.eqb method "spectral"); reflexivity.
Qed.

(** The clamp is idempotent: whatever the first call found, a second call
    on the same object, with any arguments, leaves the stored time as the
    first call left it. *)
Theorem forward_time_idempotent self x1 x2 L1 L2 Lc1 Lc2 m1 m2 n1 n2 :
  state_after (fwd (state_after (fwd self x1 L1 Lc1 m1 n1)) x2 L2 Lc2 m2 n2)
  = state_after (fwd self x1 L1 Lc1 m1 n1).
Proof.
  rewrite !state_after_forward. cbn [diffusion_time]. f_equal.
  destruct (is_nan (diffusion_time self)) eqn:Hn.
  - destruct (diffusion_time self); try discriminate Hn. reflexivity.
  - assert (Hc : is_nan (clamp_min (diffusion_time self) eps) = false)
      by apply (clamp_min_eps_spec _ Hn).
    rewrite (clamp_min_number _ eps Hc).
    rewrite (clamp_min_number _ eps Hn).
    destruct (SFltb (diffusion_time self) eps) eqn:Hlt.
    + rewrite eps_value. reflexivity.
    + rewrite Hlt. reflexivity.
Qed.

End WithLibrary.

Lemma scalar_diffusion_column_by_column_sample :
  shape Samples.x_3x2 = [3; 2] /\
  log_of (forward Samples.eig_id Samples.diffusion_id Samples.diffusion_unsqueeze
            (init zero) Samples.x_3x2 Samples.L_3x3 None "spectral" false)
  = [compute_eigendecomposition_call Samples.L_3x3;
     scalar_diffusion_call (column Samples.x_3x2 0) (clamp_min zero eps) "spectral"
       (Diffusion.scalar_par Samples.eig_id Samples.L_3x3 "spectral");
     scalar_diffusion_call (column Samples.x_3x2 1) (clamp_min zero eps) "spectral"
       (Diffusion.scalar_par Samples.eig_id Samples.L_3x3 "spectral")].
Proof.
  split; [reflexivity|].
  exact (proj1 (scalar_diffusion_column_by_column Samples.eig_id Samples.diffusion_id
                  Samples.diffusion_unsqueeze (init zero) Samples.x_3x2 Samples.L_3x3
                  "spectral" false 3 2 eq_refl)).
Defined.

Lemma scalar_diffusion_result_sample :
  shape Samples.x_3x2 = [3; 2] /\
  exists out,
    result_of (forward Samples.eig_id Samples.diffusion_id Samples.diffusion_unsqueeze
                 (init zero) Samples.x_3x2 Samples.L_3x3 None "spectral" false) = Ok out /\
    shape out = [3; 2].
Proof.
  split; [reflexivity|].
  destruct (proj2 (scalar_diffusion_result Samples.eig_id Samples.diffusion_id
                     Samples.diffusion_unsqueeze (init zero) Samples.x_3x2 Samples.L_3x3
                     "spectral" false 3 2 eq_refl) (Nat.lt_0_succ 1))
    as (out & Hout & Hshape & _).
  - intros j _. unfold Samples.diffusion_unsqueeze, column, wf. cbn [shape data nth].
    split; [reflexivity|]. rewrite length_map, length_seq. reflexivity.
  - exists out. split; [exact Hout | exact Hshape].
Defined.

Lemma refused_call_decomposes_first_sample :
  (shape Samples.x_5x3 = [5; 3] /\ shape Samples.Lc_7x7 = [7; 7] /\ 0 < 7 /\
   (5 * 3) mod 7 <> 0) /\
  log_of (forward Samples.eig_id Samples.diffusion_id Samples.diffusion_id
            (init zero) Samples.x_5x3 Samples.L_1x1 (Some Samples.Lc_7x7) "spectral" false)
  = [compute_eigendecomposition_call Samples.Lc_7x7].
Proof.
  split; [split; [reflexivity | split; [reflexivity | split; [lia | discriminate]]]|].
  exact (proj1 (proj2 (refused_call_decomposes_first Samples.eig_id Samples.diffusion_id
                         Samples.diffusion_id (init zero) Samples.x_5x3 Samples.L_1x1
                         Samples.Lc_7x7 "spectral" false 5 3 7 [7] eq_refl eq_refl
                         (Nat.lt_0_succ 6) ltac:(discriminate)))).
Defined.

End DiffusionMore.

(** ** [InnerProductFeatures]: resetting the maps, inputs that are refused *)

Module InnerProductFeaturesMore.
Import Py Torch InnerProductFeatures PyFacts TorchFacts.
Import InnerProductFeaturesFacts InnerProductsFacts.

(** [reset_parameters] on a reducer whose maps have been trained: every
    weight, whatever it was, becomes the identity of size [D]; [C], [D]
    and the number of maps stay; resetting again changes nothing; and
    [forward] on a signal of shape [V x (C*D)] gives the sums of inner
    products again. *)
Theorem reset_parameters_restores_inner_products (self : t) (x : tensor R)
    (V Cn Dn : nat) :
  C self = Z.of_nat Cn -> D self = Z.of_nat Dn -> length (O self) = Cn ->
  1 < Dn -> 0 < Cn -> 0 < V -> shape x = [V; Cn * Dn] -> wf x ->
  exists self' out,
    reset_parameters self = Ok self' /\
    O self' = repeat (eye Dn) Cn /\ C self' = C self /\ D self' = D self /\
    reset_parameters self' = Ok self' /\
    forward self' (Single x) = Ok out /\
    shape out = [V; Cn] /\
    forall v i, v < V -> i < Cn ->
      get out [v; i] = sum_n Cn (fun j => inner x Cn Dn v i j).
Proof.
  intros HC HD HO HDn HCn HV Hs Hwf.
  assert (Heye : eye_Z (Z.of_nat Dn) = Ok (eye Dn)).
  { unfold eye_Z. destruct (Z.ltb_spec (Z.of_nat Dn) 0) as [?|_]; [lia|].
    rewrite Nat2Z.id. reflexivity. }
  set (self' := {| C := C self; D := D self; O := repeat (eye Dn) Cn |}).
  assert (Hreset : forall s, C s = C self -> D s = D self -> length (O s) = Cn ->
                             reset_parameters s = Ok self').
  { intros s HCs HDs HOs. unfold reset_parameters.
    rewrite (mapM_Ok_all _ (fun _ => eye Dn))
      by (intros a _; rewrite HDs, HD; exact Heye).
    cbn [bind]. rewrite map_const, HOs, HCs, HDs. reflexivity. }
  destruct (forward_bilinear self' x V Cn Dn (eye Dn) HC HD HDn HCn HV Hs Hwf)
    as (out & Hout & Hshape & Hget).
  { apply repeat_length. }
  { intros w Hw. apply repeat_spec in Hw. subst w. reflexivity. }
  exists self', out.
  split; [apply Hreset; [reflexivity | reflexivity | exact HO]|].
  split; [reflexivity|]. split; [reflexivity|]. split; [reflexivity|].
  split; [apply Hreset; [reflexivity | reflexivity | apply repeat_length]|].
  split; [exact Hout|]. split; [exact Hshape|].
  intros v i Hv Hi. rewrite (Hget v i Hv Hi).
  apply sum_n_ext. intros j Hj. cbn [O self']. rewrite nth_repeat. apply bilinear_eye.
Qed.

(** What [forward] refuses, in both branches: an empty list leaves
    nothing to concatenate, and a matrix whose number of columns is not a
    multiple of [D] cannot be reshaped into channels of dimension [D]. *)
Theorem forward_needs_whole_channels (self : t) :
  (forall out, forward self (Many []) <> Ok out) /\
  (forall xs x V w Dn, D self = Z.of_nat Dn -> 0 < Dn -> 0 < V ->
     In x xs -> shape x = [V; w] -> w mod Dn <> 0 ->
     forall out, forward self (Many xs) <> Ok out).
Proof.
  split.
  - intros out. unfold forward. cbn [as_list mapM bind].
    destruct (D self =? 1)%Z; discriminate.
  - intros xs x V w Dn HD HDn HV Hin Hs Hw out Hout. unfold forward in Hout.
    cbn [as_list] in Hout.
    apply bind_Ok_inv in Hout as (ys & Hys & _).
    destruct (In_nth xs x x Hin) as (i & Hi & Hnth).
    pose proof (mapM_nth _ xs ys i x x Hys Hi) as Hx. rewrite Hnth in Hx.
    unfold shape_at, dim_of_Z in Hx. rewrite Hs, HD in Hx.
    cbn [lookup list_lookup bind] in Hx.
    destruct (Z.eqb_spec (Z.of_nat Dn) (-1)) as [?|_]; [lia|].
    destruct (Z.ltb_spec (Z.of_nat Dn) 0) as [?|_]; [lia|].
    cbn [bind] in Hx. rewrite Nat2Z.id in Hx.
    unfold reshape, view, infer_shape, numel in Hx. rewrite Hs in Hx.
    cbn [count_infer List.filter length known_product fold_right numel_of] in Hx.
    destruct (Nat.eqb_spec (V * (Dn * 1)) 0) as [?|_]; [nia|].
    destruct (Nat.eqb_spec ((V * (w * 1)) mod (V * (Dn * 1))) 0) as [Hz|_];
      [|discriminate Hx].
    apply Hw. rewrite !Nat.mul_1_r in Hz.
    rewrite Nat.Div0.mul_mod_distr_l in Hz. nia.
Qed.

Lemma reset_parameters_restores_inner_products_sample :
  (1 < 2 /\ 0 < 2 /\ 0 < 1 /\ wf (Tensor [1; 4] [1%R; 3%R; 2%R; 4%R])) /\
  exists self' out,
    reset_parameters {| C := 2; D := 2; O := [Tensor [2; 2] [0; 5; 7; 0]%R; eye 2] |}
    = Ok self' /\
    O self' = [eye 2; eye 2] /\
    forward self' (Single (Tensor [1; 4] [1%R; 3%R; 2%R; 4%R])) = Ok out /\
    shape out = [1; 2].
Proof.
  split; [repeat split; lia|].
  destruct (reset_parameters_restores_inner_products
              {| C := 2; D := 2; O := [Tensor [2; 2] [0; 5; 7; 0]%R; eye 2] |}
              (Tensor [1; 4] [1%R; 3%R; 2%R; 4%R]) 1 2 2
              eq_refl eq_refl eq_refl
              (Nat.lt_succ_diag_r 1) (Nat.lt_0_succ 1) (Nat.lt_0_succ 0) eq_refl eq_refl)
    as (self' & out & Hreset & HO & _ & _ & _ & Hout & Hshape & _).
  exists self', out. auto.
Defined.

End InnerProductFeaturesMore.

(** ** [postprocessing]: the checks on the slices, the split after the
    embedding *)

Module PostprocessingMore.
Import Py Torch Postprocessing PyFacts.

(** [l[i]] returns exactly for the indices from [-len(l)] to [len(l) - 1]. *)
Lemma index_Ok_iff {B : Type} (l : list B) (i : Z) :
  (exists a, index l i = Ok a) <-> (- Z.of_nat (length l) <= i < Z.of_nat (length l))%Z.
Proof.
  unfold index. split.
  - intros (a & Ha).
    destruct (Z.ltb_spec i 0) as [Hi|Hi];
      match type of Ha with
      | (if ?b then _ else _) = _ => destruct b eqn:Hb; [|discriminate Ha]
      end;
      apply andb_true_iff in Hb as [H1 H2];
      apply Z.leb_le in H1; apply Z.ltb_lt in H2; lia.
  - intros Hi.
    assert (Hj : (0 <= (if (i <? 0)%Z then (i + Z.of_nat (length l))%Z else i)
                  < Z.of_nat (length l))%Z)
      by (destruct (Z.ltb_spec i 0); lia).
    destruct (Z.ltb_spec i 0) as [Hneg|Hpos].
    + destruct (Z.leb_spec 0 (i + Z.of_nat (length l))) as [_|?]; [|lia].
      destruct (Z.ltb_spec (i + Z.of_nat (length l)) (Z.of_nat (length l))) as [_|?]; [|lia].
      cbn [andb].
      destruct (l !! Z.to_nat (i + Z.of_nat (length l))) as [b|] eqn:Hl; [eauto|].
      apply lookup_ge_None in Hl. lia.
    + destruct (Z.leb_spec 0 i) as [_|?]; [|lia].
      destruct (Z.ltb_spec i (Z.of_nat (length l))) as [_|?]; [|lia].
      cbn [andb].
      destruct (l !! Z.to_nat i) as [b|] eqn:Hl; [eauto|].
      apply lookup_ge_None in Hl. lia.
Qed.

Lemma index_Raise {B : Type} (l : list B) (i : Z) :
  ~ (- Z.of_nat (length l) <= i < Z.of_nat (length l))%Z -> index l i = Raise IndexError.
Proof.
  intros Hi. unfold index.
  destruct (Z.ltb_spec i 0) as [Hneg|Hpos].
  - destruct (Z.leb_spec 0 (i + Z.of_nat (length l))) as [?|_]; [|reflexivity].
    destruct (Z.ltb_spec (i + Z.of_nat (length l)) (Z.of_nat (length l))) as [?|_]; [lia|].
    reflexivity.
  - destruct (Z.leb_spec 0 i) as [_|?]; [|lia].
    destruct (Z.ltb_spec i (Z.of_nat (length l))) as [?|_]; [lia|]. reflexivity.
Qed.

Lemma index_Ok_nth (l : list Z) (i : Z) (a : Z) :
  (0 <= i)%Z -> index l i = Ok a -> a = nth (Z.to_nat i) l 0%Z /\ Z.to_nat i < length l.
Proof.
  intros Hi Ha.
  assert (Hb : (- Z.of_nat (length l) <= i < Z.of_nat (length l))%Z)
    by (apply index_Ok_iff; eauto).
  rewrite <- (Z2Nat.id i Hi) in Ha.
  rewrite (InnerProductsFacts.index_nat l (Z.to_nat i) 0%Z) in Ha by lia.
  injection Ha as <-. split; [reflexivity | lia].
Qed.

Lemma In_range (a b x : Z) : In x (range a b) <-> in_range a b x.
Proof.
  unfold range, in_range. rewrite in_map_iff. split.
  - intros (i & <- & Hi). apply in_seq in Hi. lia.
  - intros Hx. exists (Z.to_nat (x - a)). split; [lia|]. apply in_seq. lia.
Qed.

(** Which pairs of indices the checks of [compare_attractors] let
    through, for a slice list of any length.  The checks return exactly
    when the source is below [len - 3], the target below [len - 2], both
    are at least [-len], and they differ: with [n_slices = len - 1] slices
    the last two sources and the last target are refused, and negative
    indices, which count from the end, are accepted.  An index with which
    [slices[s]], [slices[s+1]], [slices[t]] or [slices[t+1]] is out of
    range raises [IndexError], before any assertion is looked at. *)
Theorem slice_checks_accepts (slices : list Z) (s t : Z) :
  ((exists r, slice_checks slices s t = Ok r) <->
   (- Z.of_nat (length slices) <= s < Z.of_nat (length slices) - 3 /\
    - Z.of_nat (length slices) <= t < Z.of_nat (length slices) - 2 /\
    s <> t)%Z) /\
  (~ (- Z.of_nat (length slices) <= s < Z.of_nat (length slices) - 1 /\
      - Z.of_nat (length slices) <= t < Z.of_nat (length slices) - 1)%Z ->
   slice_checks slices s t = Raise IndexError).
Proof.
  set (len := Z.of_nat (length slices)).
  split; [split|].
  - intros (r & Hr). unfold slice_checks in Hr.
    apply bind_Ok_inv in Hr as (a & Ha & Hr).
    apply bind_Ok_inv in Hr as (b & Hb & Hr).
    apply bind_Ok_inv in Hr as (c & Hc & Hr).
    apply bind_Ok_inv in Hr as (d & Hd & Hr).
    apply bind_Ok_inv in Hr as (u1 & H1 & Hr).
    apply bind_Ok_inv in Hr as (u2 & H2 & _).
    assert (Hsa : (- len <= s < len)%Z) by (apply index_Ok_iff; eauto).
    assert (Htc : (- len <= t < len)%Z) by (apply index_Ok_iff; eauto).
    unfold assert in H1, H2. fold len in H1.
    destruct (Z.ltb_spec s (len - 1 - 2)) as [Hs|?]; [|discriminate H1].
    destruct (Z.ltb_spec t (len - 1 - 1)) as [Ht|?]; [|discriminate H1].
    destruct (Z.eqb_spec s t) as [?|Hne]; [discriminate H2|]. lia.
  - intros (Hs & Ht & Hne). unfold slice_checks.
    destruct (proj2 (index_Ok_iff slices s)) as (a & ->); [fold len; lia|].
    destruct (proj2 (index_Ok_iff slices (s + 1))) as (b & ->); [fold len; lia|].
    destruct (proj2 (index_Ok_iff slices t)) as (c & ->); [fold len; lia|].
    destruct (proj2 (index_Ok_iff slices (t + 1))) as (d & ->); [fold len; lia|].
    cbn [bind]. fold len. unfold assert.
    destruct (Z.ltb_spec s (len - 1 - 2)) as [_|?]; [|lia].
    destruct (Z.ltb_spec t (len - 1 - 1)) as [_|?]; [|lia].
    destruct (Z.eqb_spec s t) as [?|_]; [contradiction|]. cbn [andb negb bind]. eauto.
  - intros Hout. unfold slice_checks.
    destruct (Z_lt_le_dec s (- len)) as [?|Hs1];
      [rewrite (index_Raise slices s) by (fold len; lia); reflexivity|].
    destruct (Z_lt_le_dec s len) as [Hs2|?];
      [|rewrite (index_Raise slices s) by (fold len; lia); reflexivity].
    destruct (proj2 (index_Ok_iff slices s)) as (a & ->); [fold len; lia|]. cbn [bind].
    destruct (Z_lt_le_dec (s + 1) len) as [Hs3|?];
      [|rewrite (index_Raise slices (s + 1)) by (fold len; lia); reflexivity].
    destruct (proj2 (index_Ok_iff slices (s + 1))) as (b & ->); [fold len; lia|].
    cbn [bind].
    destruct (Z_lt_le_dec t (- len)) as [?|Ht1];
      [rewrite (index_Raise slices t) by (fold len; lia); reflexivity|].
    destruct (Z_lt_le_dec t len) as [Ht2|?];
      [|rewrite (index_Raise slices t) by (fold len; lia); reflexivity].
    destruct (proj2 (index_Ok_iff slices t)) as (c & ->); [fold len; lia|]. cbn [bind].
    rewrite (index_Raise slices (t + 1)) by (fold len; lia). reflexivity.
Qed.

(** For indices that are not negative and offsets that never decrease,
    as the slice list of a batch has them, the node ranges of the source
    and of the target that pass the checks are the nodes from
    [slices[s]] to [slices[s+1] - 1] and from [slices[t]] to
    [slices[t+1] - 1], and no node is in both. *)
Theorem slice_checks_disjoint_ranges (slices : list Z) (s t : nat) (s_s s_t : list Z) :
  slice_checks slices (Z.of_nat s) (Z.of_nat t) = Ok (s_s, s_t) ->
  nondecreasing slices ->
  (forall x, In x s_s <-> in_range (nth s slices 0%Z) (nth (S s) slices 0%Z) x) /\
  (forall x, In x s_t <-> in_range (nth t slices 0%Z) (nth (S t) slices 0%Z) x) /\
  (forall x, ~ (In x s_s /\ In x s_t)).
Proof.
  intros Hr Hmono. unfold slice_checks in Hr.
  apply bind_Ok_inv in Hr as (a & Ha & Hr).
  apply bind_Ok_inv in Hr as (b & Hb & Hr).
  apply bind_Ok_inv in Hr as (c & Hc & Hr).
  apply bind_Ok_inv in Hr as (d & Hd & Hr).
  apply bind_Ok_inv in Hr as (u1 & H1 & Hr).
  apply bind_Ok_inv in Hr as (u2 & H2 & Hr).
  injection Hr as <- <-.
  apply index_Ok_nth in Ha as (-> & Hsl); [|lia].
  apply index_Ok_nth in Hb as (-> & Hsl'); [|lia].
  apply index_Ok_nth in Hc as (-> & Htl); [|lia].
  apply index_Ok_nth in Hd as (-> & Htl'); [|lia].
  replace (Z.to_nat (Z.of_nat s + 1)) with (S s) in * by lia.
  replace (Z.to_nat (Z.of_nat t + 1)) with (S t) in * by lia.
  rewrite !Nat2Z.id in *.
  split; [intros x; apply In_range|]. split; [intros x; apply In_range|].
  intros x [Hxs Hxt]. apply In_range in Hxs, Hxt. unfold in_range in *.
  unfold assert in H2. destruct (Z.eqb_spec (Z.of_nat s) (Z.of_nat t)) as [?|Hne];
    [discriminate H2|].
  destruct (Nat.lt_ge_cases s t) as [Hlt|Hge].
  - pose proof (Hmono (S s) t ltac:(lia) ltac:(lia)). lia.
  - pose proof (Hmono (S t) s ltac:(lia) ltac:(lia)). lia.
Qed.

Section Embed.
Variable Manifold : Type.
Variable embed : tensor R -> string -> option Manifold -> tensor R * Manifold.

Local Abbreviation embed_with_centroids' := (embed_with_centroids Manifold embed).

(** The split after the embedding.  With [N] points and [k] centroids of
    one width, stacked and embedded into [N + k] rows, cutting [n] rows
    before the end gives the first [N + k - n] rows as the embedding of
    the points and the last [n] rows as the centroids: the points and the
    centroids come back apart exactly when [n], the number of clusters
    asked for, is the number [k] of centroids found.  For [n = 0] the cut
    [emb[:-0]] is empty and [emb[-0:]] is everything. *)
Theorem embed_with_centroids_split (emb centroids E : tensor R) (embed_typ : string)
    (manifold : option Manifold) (M : Manifold) (N k w c n : nat) :
  shape emb = [N; w] -> shape centroids = [k; w] ->
  embed (Tensor [N + k; w] (data emb ++ data centroids)) embed_typ manifold = (E, M) ->
  shape E = [N + k; c] -> n <= N + k ->
  exists emb_2d cents,
    embed_with_centroids' emb centroids embed_typ manifold (Z.of_nat n)
    = Ok (emb_2d, cents, M) /\
    (0 < n ->
     shape emb_2d = [N + k - n; c] /\ shape cents = [n; c] /\
     (forall i j, i < N + k - n -> j < c -> get emb_2d [i; j] = get E [i; j]) /\
     (forall i j, i < n -> j < c -> get cents [i; j] = get E [N + k - n + i; j])) /\
    (n = 0 -> shape emb_2d = [0; c] /\ data emb_2d = [] /\ shape cents = [N + k; c]).
Proof.
  intros Hemb Hcen Hembed HE Hn.
  unfold embed_with_centroids, Numpy.vstack2. rewrite Hemb, Hcen.
  cbn [Numpy.atleast_2d]. rewrite bool_decide_eq_true_2 by reflexivity.
  cbn [bind]. rewrite Hembed. unfold Numpy.slice_rows. rewrite HE. cbn [bind].
  eexists. eexists. split; [reflexivity|].
  cbn [numel_of fold_right]. rewrite Nat.mul_1_r.
  unfold Numpy.slice_bound. split.
  - intros Hpos.
    destruct (Z.ltb_spec (- Z.of_nat n) 0) as [_|?]; [|lia].
    rewrite Z.max_l by lia.
    replace (Z.to_nat (- Z.of_nat n + Z.of_nat (N + k))) with (N + k - n) by lia.
    rewrite Nat.sub_0_r. replace (N + k - (N + k - n)) with n by lia.
    split; [reflexivity|]. split; [reflexivity|]. split.
    + intros i j Hi Hj. unfold get. cbn [shape data]. rewrite HE.
      cbn [offset numel_of fold_right]. cbn [skipn Nat.mul].
      rewrite nth_firstn.
      destruct (Nat.ltb_spec (i * (c * 1) + (j * 1 + 0)) ((N + k - n) * c)) as [_|?];
        [reflexivity | nia].
    + intros i j Hi Hj. unfold get. cbn [shape data]. rewrite HE.
      cbn [offset numel_of fold_right].
      rewrite nth_firstn.
      destruct (Nat.ltb_spec (i * (c * 1) + (j * 1 + 0)) (n * c)) as [_|?]; [|nia].
      rewrite nth_skipn. f_equal. nia.
  - intros ->. change (- Z.of_nat 0)%Z with 0%Z. change (0 <? 0)%Z with false.
    change (Z.to_nat 0) with 0. rewrite Nat.min_0_l, Nat.sub_0_r.
    cbn [Nat.sub Nat.mul firstn skipn shape data]. rewrite ?Nat.sub_0_r. repeat split.
Qed.

End Embed.

Lemma slice_checks_disjoint_ranges_sample :
  slice_checks [0; 5; 10; 15; 20]%Z (Z.of_nat 0) (Z.of_nat 1)
  = Ok ([0; 1; 2; 3; 4]%Z, [5; 6; 7; 8; 9]%Z) /\
  nondecreasing [0; 5; 10; 15; 20]%Z /\
  forall x, ~ (In x [0; 1; 2; 3; 4]%Z /\ In x [5; 6; 7; 8; 9]%Z).
Proof.
  assert (Hmono : nondecreasing [0; 5; 10; 15; 20]%Z).
  { intros i j Hij Hj. cbn [length] in Hj.
    destruct i as [|[|[|[|[|i]]]]], j as [|[|[|[|[|j]]]]]; cbn [nth]; lia. }
  split; [reflexivity|]. split; [exact Hmono|].
  apply (slice_checks_disjoint_ranges [0; 5; 10; 15; 20]%Z 0 1
           [0; 1; 2; 3; 4]%Z [5; 6; 7; 8; 9]%Z eq_refl Hmono).
Defined.

Lemma embed_with_centroids_split_sample :
  exists emb_2d cents,
    embed_with_centroids unit (fun x _ _ => (x, tt))
      (Tensor [2; 2] [1; 2; 3; 4]%R) (Tensor [1; 2] [5; 6]%R) "umap" None (Z.of_nat 1)
    = Ok (emb_2d, cents, tt) /\
    shape emb_2d = [2; 2] /\ shape cents = [1; 2] /\
    get cents [0; 1] = get (Tensor [3; 2] [1; 2; 3; 4; 5; 6]%R) [2; 1].
Proof.
  destruct (embed_with_centroids_split unit (fun x _ _ => (x, tt))
              (Tensor [2; 2] [1; 2; 3; 4]%R) (Tensor [1; 2] [5; 6]%R)
              (Tensor [3; 2] [1; 2; 3; 4; 5; 6]%R) "umap" None tt 2 1 2 2 1
              eq_refl eq_refl eq_refl eq_refl ltac:(lia))
    as (emb_2d & cents & Hr & Hpos & _).
  destruct (Hpos (Nat.lt_0_succ 0)) as (H1 & H2 & _ & H4).
  exists emb_2d, cents. split; [exact Hr|]. split; [exact H1|]. split; [exact H2|].
  apply (H4 0 1); lia.
Defined.

End PostprocessingMore.

(** ** [generate_datasets]: what one trial contributes *)

Module GenerateDatasetsFacts.
Import Py Torch GenerateDatasets PyFacts.

Lemma nth_map_seq {B : Type} (f : nat -> B) (n i : nat) (d : B) :
  i < n -> nth i (map f (seq 0 n)) d = f i.
Proof.
  intros Hi. rewrite (nth_indep _ d (f 0)) by (rewrite length_map, length_seq; exact Hi).
  rewrite map_nth, seq_nth by exact Hi. reflexivity.
Qed.


Section Trial.
Variable pca_transform : tensor R -> tensor R.

Local Abbreviation trial_features' := (trial_features pca_transform).

(** One trial of [T >= 1] time steps, projected on [w] components, adds
    to the lists of its condition four items of one length, [T - 1]: the
    positions, which are the projected trial without its last row; the
    vectors, of the same shape; the time points [0, 1, ..., T - 2]; and
    [T - 1] copies of the condition label. *)
Theorem trial_features_aligned (c : nat) (trial : tensor R) (T w : nat) :
  shape (pca_transform trial) = [T; w] -> 0 < T ->
  exists pos vel timepoints labels,
    trial_features' c trial = Ok (pos, vel, timepoints, labels) /\
    shape pos = [T - 1; w] /\ shape vel = [T - 1; w] /\
    length timepoints = T - 1 /\ labels = repeat c (T - 1) /\
    (forall i, i < T - 1 -> nth i timepoints 0%R = INR i) /\
    (forall i j, i < T - 1 -> j < w -> get pos [i; j] = get (pca_transform trial) [i; j]).
Proof.
  intros Hs HT. unfold trial_features, Numpy.slice_rows_2d, Numpy.slice_rows,
    get_vector_array, Numpy.diff0, shape_at, Numpy.linspace, Numpy.repeat_scalar.
  rewrite Hs. cbn [bind lookup list_lookup].
  destruct (Z.ltb_spec (Z.of_nat T - 1) 0) as [?|_]; [lia|]. cbn [bind].
  eexists. eexists. eexists. eexists. split; [reflexivity|].
  assert (Hb : Numpy.slice_bound T (-1) = T - 1).
  { unfold Numpy.slice_bound. cbn [Z.ltb Z.compare]. lia. }
  rewrite Hb, Nat.sub_0_r.
  replace (Z.to_nat (Z.of_nat T - 1)) with (T - 1) by lia.
  split; [reflexivity|]. split; [reflexivity|].
  split; [rewrite length_map, length_seq; reflexivity|].
  split; [reflexivity|]. split.
  - intros i Hi.
    rewrite nth_map_seq by exact Hi.
    destruct (Z.eqb_spec (Z.of_nat T - 1) 1) as [HT1|HT1].
    + assert (i = 0) by lia. subst i. reflexivity.
    + replace (Z.of_nat T - 1 - 1)%Z with (Z.of_nat T - 2)%Z by lia.
      assert (Hnz : IZR (Z.of_nat T - 2) <> 0%R) by (apply not_0_IZR; lia).
      field. exact Hnz.
  - intros i j Hi Hj. unfold get. cbn [shape data]. rewrite Hs.
    cbn [offset numel_of fold_right skipn Nat.mul].
    rewrite nth_firstn.
    destruct (Nat.ltb_spec (i * (w * 1) + (j * 1 + 0)) ((T - 1) * (w * 1))) as [_|?];
      [reflexivity | nia].
Qed.

End Trial.

Lemma trial_features_aligned_sample :
  exists pos vel timepoints labels,
    trial_features (fun x => x) 3 (Tensor [3; 2] [1; 2; 4; 8; 9; 10]%R)
    = Ok (pos, vel, timepoints, labels) /\
    shape pos = [2; 2] /\ shape vel = [2; 2] /\
    length timepoints = 2 /\ labels = [3; 3].
Proof.
  destruct (trial_features_aligned (fun x => x) 3 (Tensor [3; 2] [1; 2; 4; 8; 9; 10]%R) 3 2
              eq_refl (Nat.lt_0_succ 2))
    as (pos & vel & tp & lab & Hr & Hp & Hv & Ht & Hl & _).
  exists pos, vel, tp, lab. auto.
Defined.

End GenerateDatasetsFacts.
